(** * Memorify: the storage layer and the request handlers, verified

    A shallow embedding of [server/database-storage.ts] (class
    [DatabaseStorage]) and of the request handlers that [registerRoutes]
    installs, over the tables of the schema.

    A table is the list of its rows in row-id order (the order in which a
    [select] without [orderBy] scans it); the engine runs with
    [PRAGMA foreign_keys = ON], so inserts and deletes are checked against
    the [FOREIGN KEY] clauses of the tables. *)

From Stdlib Require Import ZArith List Bool String Ascii Lia Permutation Sorted.
Import ListNotations.
Open Scope Z_scope.

(* ===================================================================== *)
(** ** Schema *)
(* ===================================================================== *)

Module User.
Record t : Type := mk
  { id : Z; username : string; password : string; createdAt : Z }.
End User.

Module Image.
(** A row as the table holds it: [uploadedAt] is the integer stored in
    column [uploaded_at]. *)
Record t : Type := mk
  { id : Z; userId : Z; path : string; description : option string;
    uploadedAt : Z }.
End Image.

Module InsertImage.
Record t : Type := mk
  { userId : Z; path : string; description : option string }.
End InsertImage.

Inductive FriendStatus : Type := pending | accepted | declined.

Module Friend.
Record t : Type := mk
  { id : Z; requesterId : Z; addresseeId : Z; status : FriendStatus;
    createdAt : Z }.
End Friend.

Module InsertFriend.
Record t : Type := mk { requesterId : Z; addresseeId : Z }.
End InsertFriend.

Module Group.
Record t : Type := mk
  { id : Z; name : string; description : option string; createdBy : Z;
    createdAt : Z }.
End Group.

Module GroupMember.
Record t : Type := mk { id : Z; groupId : Z; userId : Z; joinedAt : Z }.
End GroupMember.

Module ImageShare.
Record t : Type := mk
  { id : Z; imageId : Z; userId : option Z; groupId : option Z;
    sharedAt : Z }.
End ImageShare.

Module InsertImageShare.
Record t : Type := mk
  { imageId : Z; userId : option Z; groupId : option Z }.
End InsertImageShare.

Inductive NotificationType : Type := friend_request | group_invite | image_share.

Module Notification.
Record t : Type := mk
  { id : Z; userId : Z; type : NotificationType; content : string;
    senderId : option Z; groupId : option Z; imageId : option Z;
    isRead : bool; createdAt : Z }.
End Notification.

Module InsertNotification.
Record t : Type := mk
  { userId : Z; type : NotificationType; content : string;
    senderId : option Z; groupId : option Z; imageId : option Z }.
End InsertNotification.

(** Extended types of the schema. *)

Module Shares.
Record t : Type := mk { users : list User.t; groups : list Group.t }.
End Shares.

Module ImageWithShares.
(** [{ ...image, shares: { users, groups } }] *)
Record t : Type := mk
  { id : Z; userId : Z; path : string; description : option string;
    uploadedAt : Z; shares : Shares.t }.
End ImageWithShares.

Module NotificationWithDetails.
(** [Notification & { sender?: User; group?: Group; image?: Image }];
    [None] is an [undefined] field. *)
Record t : Type := mk
  { base : Notification.t; sender : option User.t;
    group : option Group.t; image : option Image.t }.
End NotificationWithDetails.

Module YearMonth.
(** [{ year: number; month: number }]; [None] is [NaN]. *)
Record t : Type := mk { year : option Z; month : option Z }.
End YearMonth.

(** The codec of a column declared [integer(..., { mode: 'timestamp' })],
    as all date columns of the schema are: the ORM stores a [Date] as its
    whole seconds since the epoch and reads the integer back as that many
    seconds.  A [Date] is given by its milliseconds since the epoch. *)
Definition timestamp_to_driver (date : Z) : Z := date / 1000.

Definition timestamp_from_driver (stored : Z) : Z := stored * 1000.

(** [image.uploadedAt], the [Date] of a selected row. *)
Definition uploadedAt_Date (i : Image.t) : Z :=
  timestamp_from_driver (Image.uploadedAt i).

(* ===================================================================== *)
(** ** The store *)
(* ===================================================================== *)

(** The [AUTOINCREMENT] counters of the tables the modelled code inserts
    into (table [sqlite_sequence]). *)
Record Sequence : Type := mkSequence
  { seq_images : Z; seq_friends : Z; seq_imageShares : Z;
    seq_notifications : Z }.

Record Store : Type := mkStore
  { users : list User.t;
    images : list Image.t;
    friends : list Friend.t;
    groups : list Group.t;
    groupMembers : list GroupMember.t;
    imageShares : list ImageShare.t;
    notifications : list Notification.t;
    sqlite_sequence : Sequence }.

Definition set_images (st : Store) (rows : list Image.t) : Store :=
  mkStore (users st) rows (friends st) (groups st) (groupMembers st)
          (imageShares st) (notifications st) (sqlite_sequence st).

Definition set_friends (st : Store) (rows : list Friend.t) : Store :=
  mkStore (users st) (images st) rows (groups st) (groupMembers st)
          (imageShares st) (notifications st) (sqlite_sequence st).

Definition set_imageShares (st : Store) (rows : list ImageShare.t) : Store :=
  mkStore (users st) (images st) (friends st) (groups st) (groupMembers st)
          rows (notifications st) (sqlite_sequence st).

Definition set_notifications (st : Store) (rows : list Notification.t) : Store :=
  mkStore (users st) (images st) (friends st) (groups st) (groupMembers st)
          (imageShares st) rows (sqlite_sequence st).

Definition set_sequence (st : Store) (s : Sequence) : Store :=
  mkStore (users st) (images st) (friends st) (groups st) (groupMembers st)
          (imageShares st) (notifications st) s.

Definition set_seq_images (s : Sequence) (n : Z) : Sequence :=
  mkSequence n (seq_friends s) (seq_imageShares s) (seq_notifications s).

Definition set_seq_friends (s : Sequence) (n : Z) : Sequence :=
  mkSequence (seq_images s) n (seq_imageShares s) (seq_notifications s).

Definition set_seq_imageShares (s : Sequence) (n : Z) : Sequence :=
  mkSequence (seq_images s) (seq_friends s) n (seq_notifications s).

Definition set_seq_notifications (s : Sequence) (n : Z) : Sequence :=
  mkSequence (seq_images s) (seq_friends s) (seq_imageShares s) n.

(* ===================================================================== *)
(** ** Query engine *)
(* ===================================================================== *)

(** [.limit(n)] *)
Definition limit {A : Type} (n : nat) (rows : list A) : list A := firstn n rows.

(** [result[0]] *)
Definition first_row {A : Type} (rows : list A) : option A := hd_error rows.

(** [eq(column, value)] on a nullable column: [NULL = v] is not true. *)
Definition eq_nullable (col : option Z) (v : Z) : bool :=
  match col with
  | Some c => c =? v
  | None => false
  end.

(** [inArray(column, values)] *)
Definition inArray (col : Z) (values : list Z) : bool :=
  existsb (fun v => col =? v) values.

Definition inArray_nullable (col : option Z) (values : list Z) : bool :=
  match col with
  | Some c => inArray c values
  | None => false
  end.

(** JavaScript truthiness of a nullable id: [null] and [0] are falsy. *)
Definition truthy (x : option Z) : option Z :=
  match x with
  | Some v => if v =? 0 then None else Some v
  | None => None
  end.

(** [ids.filter(Boolean) as number[]] *)
Definition filter_Boolean (ids : list (option Z)) : list Z :=
  flat_map (fun x => match truthy x with Some v => [v] | None => [] end) ids.

(** [ORDER BY]: a stable insertion sort; [le a b] says that [a] may come
    before [b]. *)
Section OrderBy.
Context {A : Type} (le : A -> A -> bool).

Fixpoint insert_row (x : A) (rows : list A) : list A :=
  match rows with
  | [] => [x]
  | y :: rest => if le x y then x :: rows else y :: insert_row x rest
  end.

Fixpoint order_by (rows : list A) : list A :=
  match rows with
  | [] => []
  | x :: rest => insert_row x (order_by rest)
  end.
End OrderBy.

(** [orderBy(desc(column))] on an integer column. *)
Definition order_by_desc {A : Type} (col : A -> Z) (rows : list A) : list A :=
  order_by (fun a b => col b <=? col a) rows.

(** The row id an [AUTOINCREMENT] table gives its next row: one more than
    the largest id in the table or ever handed out. *)
Definition next_id (ids : list Z) (seq : Z) : Z :=
  1 + fold_right Z.max (Z.max 0 seq) ids.

(** Does some row of a parent table carry this key? *)
Definition references {A : Type} (key : A -> Z) (parent : list A) (fk : Z) : bool :=
  existsb (fun r => key r =? fk) parent.

Definition references_nullable {A : Type} (key : A -> Z) (parent : list A)
           (fk : option Z) : bool :=
  match fk with
  | Some k => references key parent k
  | None => true
  end.

(* ===================================================================== *)
(** ** Effects: a store that survives a thrown error *)
(* ===================================================================== *)

Inductive Error : Type :=
| SqliteConstraint (message : string)
| JsError (message : string).

Definition M (A : Type) : Type := Store -> (Error + A) * Store.

Definition ret {A : Type} (a : A) : M A := fun st => (inr a, st).

Definition bind {A B : Type} (m : M A) (k : A -> M B) : M B :=
  fun st =>
    match m st with
    | (inr a, st') => k a st'
    | (inl e, st') => (inl e, st')
    end.

(** [try { body } catch (error) { handler }] around a whole request
    handler, whose [catch] block only writes the response. *)
Definition try_catch {A : Type} (body : M A) (handler : Error -> A)
  : Store -> A * Store :=
  fun st =>
    match body st with
    | (inr a, st') => (a, st')
    | (inl e, st') => (handler e, st')
    end.

(** A read of the store. *)
Definition query {A : Type} (q : Store -> A) : M A := fun st => (inr (q st), st).

(** A read that may throw. *)
Definition query_or_throw {A : Type} (q : Store -> Error + A) : M A :=
  fun st => (q st, st).

Declare Scope storage_scope.
Delimit Scope storage_scope with storage.
Notation "x <- m ;; k" := (bind m (fun x => k))
  (at level 61, m at next level, right associativity) : storage_scope.
Notation "m ;;; k" := (bind m (fun _ => k))
  (at level 61, right associativity) : storage_scope.

(** [for (const x of xs) { body x }] *)
Fixpoint for_of {A : Type} (xs : list A) (body : A -> M unit) : M unit :=
  match xs with
  | [] => ret tt
  | x :: rest => bind (body x) (fun _ => for_of rest body)
  end.

(** [promise.catch(() => undefined)] *)
Definition catch_undefined {A : Type} (r : Error + A) : option A :=
  match r with
  | inr a => Some a
  | inl _ => None
  end.

(* ===================================================================== *)
(** ** Dates: the engine's date functions and the JavaScript [Date] *)
(* ===================================================================== *)

(** The proleptic Gregorian calendar on day numbers counted from
    1970-01-01. *)
Definition days_from_civil (y m d : Z) : Z :=
  let y' := if m <=? 2 then y - 1 else y in
  let era := y' / 400 in
  let yoe := y' - era * 400 in
  let mp := if 2 <? m then m - 3 else m + 9 in
  let doy := (153 * mp + 2) / 5 + d - 1 in
  let doe := yoe * 365 + yoe / 4 - yoe / 100 + doy in
  era * 146097 + doe - 719468.

(** Year of an era and month (1 to 12) from the day of the era. *)
Definition yoe_of_doe (doe : Z) : Z :=
  (doe - doe / 1460 + doe / 36524 - doe / 146096) / 365.

Definition month_of_doe (doe : Z) : Z :=
  let yoe := yoe_of_doe doe in
  let doy := doe - (365 * yoe + yoe / 4 - yoe / 100) in
  let mp := (5 * doy + 2) / 153 in
  if mp <? 10 then mp + 3 else mp - 9.

(** Year and month (1 to 12) of a day number. *)
Definition civil_year_month (z : Z) : Z * Z :=
  let z' := z + 719468 in
  let era := z' / 146097 in
  let doe := z' - era * 146097 in
  let m := month_of_doe doe in
  let y := yoe_of_doe doe + era * 400 in
  (if m <=? 2 then y + 1 else y, m).

(** *** SQL date functions

    [datetime(x, 'unixepoch')] is a text ['YYYY-MM-DD HH:MM:SS'] of
    fixed width from 0000-01-01 00:00:00 to 9999-12-31 23:59:59, and
    [NULL] after that.  Texts of that shape compare as the instants
    they denote, so the value is carried as its whole second; [None] is
    [NULL].  Before 0000-01-01 the engine still answers, down to
    -4713-11-24 12:00:00, with a signed year, in texts that no longer
    compare as their instants: those instants are not modelled (they
    are [None] here), and what is proved below is about rows and bounds
    from the year 0000 on. *)
Definition datetime_min : Z := -62167219200.
Definition datetime_max : Z := 253402300799.

Definition datetime_unixepoch (seconds : Z) : option Z :=
  if (datetime_min <=? seconds) && (seconds <=? datetime_max)
  then Some seconds else None.

(** [datetime(${ms / 1000}, 'unixepoch')] with a bound JavaScript number:
    the argument is a real number of seconds, given here by its
    milliseconds ([None] is [NaN], bound as [NULL]); the text drops the
    fraction of the second. *)
Definition datetime_unixepoch_of_millis (ms : option Z) : option Z :=
  match ms with
  | Some t => datetime_unixepoch (t / 1000)
  | None => None
  end.

(** [column / 1000] on an integer column: integer division truncates
    toward zero. *)
Definition sql_div (a b : Z) : Z := Z.quot a b.

(** [a >= b] and [a <= b] on [datetime] texts; a comparison with [NULL]
    is not true. *)
Definition sql_ge (a b : option Z) : bool :=
  match a, b with
  | Some x, Some y => y <=? x
  | _, _ => false
  end.

Definition sql_le (a b : option Z) : bool :=
  match a, b with
  | Some x, Some y => x <=? y
  | _, _ => false
  end.

Definition digit (d : Z) : ascii := ascii_of_N (Z.to_N (48 + d)).

(** Zero-padded decimal fields of [strftime]. *)
Definition pad2 (n : Z) : string :=
  String (digit (n / 10 mod 10)) (String (digit (n mod 10)) EmptyString).

Definition pad4 (n : Z) : string :=
  String (digit (n / 1000 mod 10))
    (String (digit (n / 100 mod 10)) (pad2 n)).

(** [strftime('%Y', t)], [strftime('%m', t)], [strftime('%Y-%m', t)] *)
Definition strftime_Y (t : option Z) : option string :=
  option_map (fun s => pad4 (fst (civil_year_month (s / 86400)))) t.

Definition strftime_m (t : option Z) : option string :=
  option_map (fun s => pad2 (snd (civil_year_month (s / 86400)))) t.

Definition strftime_Ym (t : option Z) : option string :=
  option_map (fun s =>
    let ym := civil_year_month (s / 86400) in
    (pad4 (fst ym) ++ "-" ++ pad2 (snd ym))%string) t.

(** Order of two texts under the [BINARY] collation; [NULL] sorts before
    every text. *)
Definition sql_text_compare (a b : option string) : comparison :=
  match a, b with
  | None, None => Eq
  | None, Some _ => Lt
  | Some _, None => Gt
  | Some x, Some y => String.compare x y
  end.

Definition sql_text_leb (a b : option string) : bool :=
  match sql_text_compare a b with
  | Gt => false
  | _ => true
  end.

Definition sql_text_eqb (a b : option string) : bool :=
  match sql_text_compare a b with
  | Eq => true
  | _ => false
  end.

(** [GROUP BY key]: one row for each distinct key, the first of its
    group. *)
Fixpoint group_by_from {A : Type} (key : A -> option string)
         (seen : list (option string)) (rows : list A) : list A :=
  match rows with
  | [] => []
  | r :: rest =>
      if existsb (sql_text_eqb (key r)) seen
      then group_by_from key seen rest
      else r :: group_by_from key (key r :: seen) rest
  end.

Definition group_by {A : Type} (key : A -> option string) (rows : list A) : list A :=
  group_by_from key [] rows.

(** [orderBy(desc(key))] on a text key. *)
Definition order_by_desc_text {A : Type} (key : A -> option string)
           (rows : list A) : list A :=
  order_by (fun a b => sql_text_leb (key b) (key a)) rows.

(** *** JavaScript numbers and dates *)

Definition digit_value (c : ascii) : option Z :=
  let n := Z.of_N (N_of_ascii c) in
  if (48 <=? n) && (n <=? 57) then Some (n - 48) else None.

Fixpoint parse_digits (s : string) (acc : option Z) : option Z :=
  match s with
  | EmptyString => acc
  | String c rest =>
      match digit_value c with
      | Some d =>
          parse_digits rest
            (Some (10 * match acc with Some a => a | None => 0 end + d))
      | None => acc
      end
  end.

(** [parseInt(text)] on the texts the queries return (no leading blanks,
    no [0x] prefix): an optional sign and the longest run of decimal
    digits; [NaN] when there is none. *)
Definition parseInt (s : string) : option Z :=
  match s with
  | String c rest =>
      if (c =? "-")%char then option_map Z.opp (parse_digits rest None)
      else if (c =? "+")%char then parse_digits rest None
      else parse_digits s None
  | EmptyString => None
  end.

(** [parseInt] of a column value: [parseInt(null)] is [NaN]. *)
Definition parseInt_column (v : option string) : option Z :=
  match v with
  | Some s => parseInt s
  | None => None
  end.

(** [x - k] on a number that may be [NaN]. *)
Definition js_minus (x : option Z) (k : Z) : option Z :=
  option_map (fun v => v - k) x.

Section LocalTime.
(** The value of [Date.prototype.getTimezoneOffset()] on the server, in
    minutes (UTC minus local time), taken as constant: this is a server
    whose zone keeps one offset all year, as UTC does.  Where daylight
    saving applies, the offset is the one in force at the instant asked
    for, and two dates of one year can differ in it; that case is not
    modelled. *)
Variable timezoneOffset : Z.

(** Two-digit years are taken in the twentieth century. *)
Definition MakeFullYear (y : Z) : Z :=
  if (0 <=? y) && (y <=? 99) then 1900 + y else y.

(** Day number of the first of the month, moved by [date - 1]; a month
    outside 0..11 carries into the year. *)
Definition MakeDay (year month date : Z) : Z :=
  let ym := year + month / 12 in
  let mn := month mod 12 in
  days_from_civil ym (mn + 1) 1 + date - 1.

Definition MakeTime (hour min sec ms : Z) : Z :=
  hour * 3600000 + min * 60000 + sec * 1000 + ms.

Definition MakeDate (day time : Z) : Z := day * 86400000 + time.

Definition UTC (t : Z) : Z := t + timezoneOffset * 60000.

Definition TimeClip (t : Z) : option Z :=
  if Z.abs t <=? 8640000000000000 then Some t else None.

(** [new Date(year, month, date, hours, minutes, seconds, ms).getTime()];
    [None] is the [NaN] of an invalid date. *)
Definition Date_getTime (year month date hours minutes seconds ms : Z) : option Z :=
  TimeClip (UTC (MakeDate (MakeDay (MakeFullYear year) month date)
                          (MakeTime hours minutes seconds ms))).
End LocalTime.

(* ===================================================================== *)
(** ** [DatabaseStorage] *)
(* ===================================================================== *)

Module DatabaseStorage.
Local Open Scope storage_scope.

Definition foreign_key_failed : Error :=
  SqliteConstraint "FOREIGN KEY constraint failed".

(** *** User operations *)

Definition getUser (st : Store) (id : Z) : option User.t :=
  first_row (limit 1 (filter (fun u => User.id u =? id) (users st))).

(** *** Image operations *)

(** [now] is the [Date] the column default gives the new row: the
    schema's [default(new Date())] is evaluated once, when the schema is
    loaded, and every row inserted afterwards gets that date. *)
Definition createImage (now : Z) (image : InsertImage.t) : M Image.t :=
  fun st =>
    if references User.id (users st) (InsertImage.userId image)
    then
      let id := next_id (map Image.id (images st))
                        (seq_images (sqlite_sequence st)) in
      let row := Image.mk id (InsertImage.userId image) (InsertImage.path image)
                          (InsertImage.description image)
                          (timestamp_to_driver now) in
      (inr row,
       set_sequence (set_images st (images st ++ [row]))
                    (set_seq_images (sqlite_sequence st) id))
    else (inl foreign_key_failed, st).

Definition getImage (st : Store) (id : Z) : option Image.t :=
  first_row (limit 1 (filter (fun i => Image.id i =? id) (images st))).

Definition getUserImages (st : Store) (userId : Z) : list Image.t :=
  order_by_desc Image.uploadedAt
    (filter (fun i => Image.userId i =? userId) (images st)).

(** [datetime(${images.uploadedAt} / 1000, 'unixepoch')] *)
Definition uploaded_datetime (i : Image.t) : option Z :=
  datetime_unixepoch (sql_div (Image.uploadedAt i) 1000).

Section ServerClock.
Variable timezoneOffset : Z.

Definition getUserImagesByDate (st : Store) (userId year month : Z) : list Image.t :=
  let monthStart := Date_getTime timezoneOffset year month 1 0 0 0 0 in
  let monthEnd := Date_getTime timezoneOffset year (month + 1) 0 23 59 59 999 in
  order_by_desc Image.uploadedAt
    (filter
       (fun i =>
          (Image.userId i =? userId)
          && sql_ge (uploaded_datetime i) (datetime_unixepoch_of_millis monthStart)
          && sql_le (uploaded_datetime i) (datetime_unixepoch_of_millis monthEnd))
       (images st)).
End ServerClock.

Definition getUserImageDates (st : Store) (userId : Z) : list YearMonth.t :=
  let year := fun i => strftime_Y (uploaded_datetime i) in
  let month := fun i => strftime_m (uploaded_datetime i) in
  let year_month := fun i => strftime_Ym (uploaded_datetime i) in
  let results :=
    order_by_desc_text year_month
      (group_by year_month
         (filter (fun i => Image.userId i =? userId) (images st))) in
  map (fun result =>
         YearMonth.mk (parseInt_column (year result))
                      (js_minus (parseInt_column (month result)) 1))
      results.

Section NullComparison.
(** Whether a row with this column value satisfies [ne(column, null)].
    The statement compares the column with a bound [NULL] by [<>], which
    the engine finds true of no row: the function is constantly false.
    It is a parameter so that what is proved of the queries below does
    not rest on that. *)
Variable ne_null : option Z -> bool.

Definition getImageWithShares (st : Store) (imageId : Z) : option ImageWithShares.t :=
  match getImage st imageId with
  | None => None
  | Some image =>
      let userShares :=
        map ImageShare.userId
          (filter (fun s => (ImageShare.imageId s =? imageId)
                            && ne_null (ImageShare.userId s))
                  (imageShares st)) in
      let userIds := filter_Boolean userShares in
      let groupShares :=
        map ImageShare.groupId
          (filter (fun s => (ImageShare.imageId s =? imageId)
                            && ne_null (ImageShare.groupId s))
                  (imageShares st)) in
      let groupIds := filter_Boolean groupShares in
      let sharedUsers :=
        if (0 <? List.length userIds)%nat
        then filter (fun u => inArray (User.id u) userIds) (users st)
        else [] in
      let sharedGroups :=
        if (0 <? List.length groupIds)%nat
        then filter (fun g => inArray (Group.id g) groupIds) (groups st)
        else [] in
      Some (ImageWithShares.mk
              (Image.id image) (Image.userId image) (Image.path image)
              (Image.description image) (Image.uploadedAt image)
              (Shares.mk sharedUsers sharedGroups))
  end.
End NullComparison.

(** The three statements of [deleteImage]. *)
Definition delete_imageShares_of (id : Z) : M unit :=
  fun st =>
    (inr tt,
     set_imageShares st
       (filter (fun s => negb (ImageShare.imageId s =? id)) (imageShares st))).

Definition delete_notifications_of (id : Z) : M unit :=
  fun st =>
    (inr tt,
     set_notifications st
       (filter (fun n => negb (eq_nullable (Notification.imageId n) id))
               (notifications st))).

(** Removing a row of [images] that a share or a notification still
    refers to fails on the foreign key. *)
Definition delete_images_where_id (id : Z) : M unit :=
  fun st =>
    if existsb (fun i => Image.id i =? id) (images st)
       && (existsb (fun s => ImageShare.imageId s =? id) (imageShares st)
           || existsb (fun n => eq_nullable (Notification.imageId n) id)
                      (notifications st))
    then (inl foreign_key_failed, st)
    else (inr tt,
          set_images st (filter (fun i => negb (Image.id i =? id)) (images st))).

Definition deleteImage (id : Z) : M unit :=
  delete_imageShares_of id ;;;
  delete_notifications_of id ;;;
  delete_images_where_id id.

Definition userHasImageAccess (st : Store) (userId imageId : Z) : bool :=
  let image :=
    limit 1 (filter (fun i => (Image.id i =? imageId) && (Image.userId i =? userId))
                    (images st)) in
  if (0 <? List.length image)%nat then true else
  let directShare :=
    limit 1 (filter (fun s => (ImageShare.imageId s =? imageId)
                              && eq_nullable (ImageShare.userId s) userId)
                    (imageShares st)) in
  if (0 <? List.length directShare)%nat then true else
  let userGroups :=
    filter (fun m => GroupMember.userId m =? userId) (groupMembers st) in
  let userGroupIds := map GroupMember.groupId userGroups in
  if (List.length userGroupIds =? 0)%nat then false else
  let groupShare :=
    limit 1 (filter (fun s => (ImageShare.imageId s =? imageId)
                              && inArray_nullable (ImageShare.groupId s) userGroupIds)
                    (imageShares st)) in
  (0 <? List.length groupShare)%nat.

(** *** Friend operations *)

Definition createFriend (now : Z) (friend : InsertFriend.t) : M Friend.t :=
  fun st =>
    if references User.id (users st) (InsertFriend.requesterId friend)
       && references User.id (users st) (InsertFriend.addresseeId friend)
    then
      let id := next_id (map Friend.id (friends st))
                        (seq_friends (sqlite_sequence st)) in
      let row := Friend.mk id (InsertFriend.requesterId friend)
                           (InsertFriend.addresseeId friend) pending
                           (timestamp_to_driver now) in
      (inr row,
       set_sequence (set_friends st (friends st ++ [row]))
                    (set_seq_friends (sqlite_sequence st) id))
    else (inl foreign_key_failed, st).

Definition getFriendship (st : Store) (requesterId addresseeId : Z) : option Friend.t :=
  first_row
    (limit 1
       (filter
          (fun f =>
             ((Friend.requesterId f =? requesterId)
              && (Friend.addresseeId f =? addresseeId))
             || ((Friend.requesterId f =? addresseeId)
                 && (Friend.addresseeId f =? requesterId)))
          (friends st))).

Definition getFriendRequest (st : Store) (id : Z) : option Friend.t :=
  first_row (limit 1 (filter (fun f => Friend.id f =? id) (friends st))).

(** The [status] parameter of [updateFriendRequest]:
    ['accepted' | 'declined']. *)
Inductive Answer : Type := answer_accepted | answer_declined.

Definition status_of_answer (a : Answer) : FriendStatus :=
  match a with
  | answer_accepted => accepted
  | answer_declined => declined
  end.

Definition set_status (f : Friend.t) (s : FriendStatus) : Friend.t :=
  Friend.mk (Friend.id f) (Friend.requesterId f) (Friend.addresseeId f) s
            (Friend.createdAt f).

(** [update ... set status where id returning]; the result is
    [result[0]], [undefined] when no row has the id. *)
Definition updateFriendRequest (id : Z) (status : Answer) : M (option Friend.t) :=
  fun st =>
    let updated :=
      map (fun f => if Friend.id f =? id
                    then set_status f (status_of_answer status) else f)
          (friends st) in
    (inr (first_row (filter (fun f => Friend.id f =? id) updated)),
     set_friends st updated).

(** *** Group operations *)

Definition getGroup (st : Store) (id : Z) : Error + Group.t :=
  match limit 1 (filter (fun g => Group.id g =? id) (groups st)) with
  | [] => inl (JsError "Group not found")
  | g :: _ => inr g
  end.

Definition getGroupMembers (st : Store) (groupId : Z) : list User.t :=
  let memberRecords :=
    filter (fun m => GroupMember.groupId m =? groupId) (groupMembers st) in
  let userIds := map GroupMember.userId memberRecords in
  if (List.length userIds =? 0)%nat then []
  else filter (fun u => inArray (User.id u) userIds) (users st).

Definition isGroupMember (st : Store) (groupId userId : Z) : bool :=
  let result :=
    limit 1 (filter (fun m => (GroupMember.groupId m =? groupId)
                              && (GroupMember.userId m =? userId))
                    (groupMembers st)) in
  (0 <? List.length result)%nat.

(** *** Image sharing operations *)

Definition shareImage (now : Z) (share : InsertImageShare.t) : M ImageShare.t :=
  fun st =>
    if references Image.id (images st) (InsertImageShare.imageId share)
       && references_nullable User.id (users st) (InsertImageShare.userId share)
       && references_nullable Group.id (groups st) (InsertImageShare.groupId share)
    then
      let id := next_id (map ImageShare.id (imageShares st))
                        (seq_imageShares (sqlite_sequence st)) in
      let row := ImageShare.mk id (InsertImageShare.imageId share)
                   (InsertImageShare.userId share)
                   (InsertImageShare.groupId share)
                   (timestamp_to_driver now) in
      (inr row,
       set_sequence (set_imageShares st (imageShares st ++ [row]))
                    (set_seq_imageShares (sqlite_sequence st) id))
    else (inl foreign_key_failed, st).

(** *** Notification operations *)

Definition createNotification (now : Z) (notification : InsertNotification.t)
  : M Notification.t :=
  fun st =>
    if references User.id (users st) (InsertNotification.userId notification)
       && references_nullable User.id (users st)
            (InsertNotification.senderId notification)
       && references_nullable Group.id (groups st)
            (InsertNotification.groupId notification)
       && references_nullable Image.id (images st)
            (InsertNotification.imageId notification)
    then
      let id := next_id (map Notification.id (notifications st))
                        (seq_notifications (sqlite_sequence st)) in
      let row := Notification.mk id
                   (InsertNotification.userId notification)
                   (InsertNotification.type notification)
                   (InsertNotification.content notification)
                   (InsertNotification.senderId notification)
                   (InsertNotification.groupId notification)
                   (InsertNotification.imageId notification)
                   false (timestamp_to_driver now) in
      (inr row,
       set_sequence (set_notifications st (notifications st ++ [row]))
                    (set_seq_notifications (sqlite_sequence st) id))
    else (inl foreign_key_failed, st).

(** [await] inside the mapped async function: an error rejects the
    promise. *)
Definition await {A B : Type} (r : Error + A) (k : A -> Error + B) : Error + B :=
  match r with
  | inr a => k a
  | inl e => inl e
  end.

(** [Promise.all(rows.map(f))] *)
Fixpoint Promise_all {A B : Type} (f : A -> Error + B) (rows : list A)
  : Error + list B :=
  match rows with
  | [] => inr []
  | r :: rest =>
      await (f r) (fun d =>
      await (Promise_all f rest) (fun ds => inr (d :: ds)))
  end.

(** The body of the mapped function of [getUserNotifications]. *)
Definition with_details (st : Store) (notification : Notification.t)
  : Error + NotificationWithDetails.t :=
  await (match truthy (Notification.senderId notification) with
         | Some k => inr (getUser st k)
         | None => inr None
         end) (fun sender =>
  await (match truthy (Notification.groupId notification) with
         | Some k => inr (catch_undefined (getGroup st k))
         | None => inr None
         end) (fun group =>
  await (match truthy (Notification.imageId notification) with
         | Some k => inr (getImage st k)
         | None => inr None
         end) (fun image =>
  inr (NotificationWithDetails.mk notification sender group image)))).

Definition getUserNotifications (st : Store) (userId : Z)
  : Error + list NotificationWithDetails.t :=
  let notificationsList :=
    order_by_desc Notification.createdAt
      (filter (fun n => Notification.userId n =? userId) (notifications st)) in
  Promise_all (with_details st) notificationsList.

End DatabaseStorage.

(* ===================================================================== *)
(** ** Request handlers *)
(* ===================================================================== *)

Module Routes.
Import DatabaseStorage.
Local Open Scope storage_scope.

Inductive Json : Type :=
| JsonMessage (message : string)
| JsonFriend (friend : option Friend.t)
| JsonImage (image : Image.t).

(** [res.status(code).json(body)] *)
Record Response : Type := mkResponse { statusCode : Z; json : Json }.

(** The handlers take the ids of the request already through [parseInt],
    and [req.user] as the row of the authenticated user. *)

(** *** [POST /api/images] *)

Record UploadRequest : Type := mkUploadRequest
  { file : option string;          (* [req.file.filename] *)
    description : option string;   (* [req.body.description] *)
    userIds : option (list Z);     (* [JSON.parse(req.body.userIds)] *)
    groupIds : option (list Z) }.  (* [JSON.parse(req.body.groupIds)] *)

(** Body of [for (const userId of userIds)]. *)
Definition share_with_user (now : Z) (user : User.t) (image : Image.t)
           (userId : Z) : M unit :=
  shareImage now
    (InsertImageShare.mk (Image.id image) (Some userId) None) ;;;
  createNotification now
    (InsertNotification.mk userId image_share
       (User.username user ++ " shared an image with you")%string
       (Some (User.id user)) None (Some (Image.id image))) ;;;
  ret tt.

(** Body of [for (const groupId of groupIds)]; [userId] is the
    uploader's id, [req.user.id]. *)
Definition share_with_group (now : Z) (user : User.t) (image : Image.t)
           (groupId : Z) : M unit :=
  let userId := User.id user in
  shareImage now
    (InsertImageShare.mk (Image.id image) None (Some groupId)) ;;;
  members <- query (fun st => getGroupMembers st groupId) ;;
  group <- query_or_throw (fun st => getGroup st groupId) ;;
  for_of members (fun member =>
    if negb (User.id member =? userId)
    then
      createNotification now
        (InsertNotification.mk (User.id member) image_share
           (User.username user ++ " shared an image in " ++ Group.name group)%string
           (Some (User.id user)) (Some groupId) (Some (Image.id image))) ;;;
      ret tt
    else ret tt).

Definition post_api_images (now : Z) (user : User.t) (req : UploadRequest)
  : Store -> Response * Store :=
  try_catch
    (match file req with
     | None => ret (mkResponse 400 (JsonMessage "No image file uploaded"))
     | Some filename =>
         let userId := User.id user in
         image <- createImage now
                    (InsertImage.mk userId ("/uploads/" ++ filename)%string
                       (Some match description req with
                             | Some d => d
                             | None => EmptyString
                             end)) ;;
         (match userIds req, groupIds req with
          | None, None => ret tt
          | us, gs =>
              let userIds := match us with Some l => l | None => [] end in
              let groupIds := match gs with Some l => l | None => [] end in
              for_of userIds (share_with_user now user image) ;;;
              for_of groupIds (share_with_group now user image)
          end) ;;;
         ret (mkResponse 201 (JsonImage image))
     end)
    (fun _ => mkResponse 500 (JsonMessage "Failed to upload image")).

(** *** [POST /api/friends/request] *)

Definition post_api_friends_request (now : Z) (user : User.t) (addresseeId : Z)
  : Store -> Response * Store :=
  try_catch
    (let requesterId := User.id user in
     if requesterId =? addresseeId
     then ret (mkResponse 400
                 (JsonMessage "You cannot send a friend request to yourself"))
     else
       existingFriend <- query (fun st => getFriendship st requesterId addresseeId) ;;
       match existingFriend with
       | Some _ =>
           ret (mkResponse 400 (JsonMessage "Friend request already exists"))
       | None =>
           friend <- createFriend now (InsertFriend.mk requesterId addresseeId) ;;
           createNotification now
             (InsertNotification.mk addresseeId friend_request
                (User.username user ++ " sent you a friend request")%string
                (Some requesterId) None None) ;;;
           ret (mkResponse 201 (JsonFriend (Some friend)))
       end)
    (fun _ => mkResponse 500 (JsonMessage "Failed to send friend request")).

(** *** [PUT /api/friends/requests/:id] *)

(** [status !== "accepted" && status !== "declined"] rejects every other
    body. *)
Definition parse_answer (status : string) : option Answer :=
  if (status =? "accepted")%string then Some answer_accepted
  else if (status =? "declined")%string then Some answer_declined
  else None.

Definition put_api_friends_requests (now : Z) (user : User.t) (requestId : Z)
           (status : string) : Store -> Response * Store :=
  try_catch
    (match parse_answer status with
     | None =>
         ret (mkResponse 400
                (JsonMessage "Invalid status. Must be 'accepted' or 'declined'"))
     | Some answer =>
         request <- query (fun st => getFriendRequest st requestId) ;;
         match request with
         | None => ret (mkResponse 404 (JsonMessage "Friend request not found"))
         | Some request =>
             if negb (Friend.addresseeId request =? User.id user)
             then ret (mkResponse 403
                         (JsonMessage "You can only respond to your own friend requests"))
             else
               updatedRequest <- updateFriendRequest requestId answer ;;
               createNotification now
                 (InsertNotification.mk (Friend.requesterId request) friend_request
                    (match answer with
                     | answer_accepted =>
                         User.username user ++ " accepted your friend request"
                     | answer_declined =>
                         User.username user ++ " declined your friend request"
                     end)%string
                    (Some (User.id user)) None None) ;;;
               ret (mkResponse 200 (JsonFriend updatedRequest))
         end
     end)
    (fun _ => mkResponse 500 (JsonMessage "Failed to respond to friend request")).

End Routes.

(* ===================================================================== *)
(** ** Specification-side definitions and fixtures *)
(* ===================================================================== *)

Import DatabaseStorage Routes.

(** What [getUserNotifications] attaches for a foreign key. *)
Definition attach {A : Type} (fk : option Z) (lookup : Z -> option A) : option A :=
  match truthy fk with
  | Some k => lookup k
  | None => None
  end.

Definition details_of (st : Store) (n : Notification.t) : NotificationWithDetails.t :=
  NotificationWithDetails.mk n
    (attach (Notification.senderId n) (getUser st))
    (attach (Notification.groupId n) (fun k => catch_undefined (getGroup st k)))
    (attach (Notification.imageId n) (getImage st)).

(** Some friendship row links the unordered pair of users. *)
Definition friendship_exists (st : Store) (a b : Z) : Prop :=
  exists f, In f (friends st)
            /\ ((Friend.requesterId f = a /\ Friend.addresseeId f = b)
                \/ (Friend.requesterId f = b /\ Friend.addresseeId f = a)).

(** The row links the two users, whichever of them sent the request. *)
Definition links_pair (f : Friend.t) (a b : Z) : Prop :=
  (Friend.requesterId f = a /\ Friend.addresseeId f = b)
  \/ (Friend.requesterId f = b /\ Friend.addresseeId f = a).

Definition user_exists (st : Store) (id : Z) : Prop :=
  exists u, In u (users st) /\ User.id u = id.

(** A membership row links the user to the group. *)
Definition is_member (st : Store) (groupId userId : Z) : Prop :=
  exists m, In m (groupMembers st)
            /\ GroupMember.groupId m = groupId /\ GroupMember.userId m = userId.

(** How many of these notifications are addressed to the user. *)
Definition notified (created : list Notification.t) (userId : Z) : nat :=
  List.length (filter (fun n => Notification.userId n =? userId) created).

(** The ids that a field of the upload names: none when it is absent. *)
Definition named_ids (field : option (list Z)) : list Z :=
  match field with
  | Some ids => ids
  | None => []
  end.

(** The members that the loop of a group share notifies: the user rows of
    the group but the uploader's. *)
Definition members_to_notify (st : Store) (user : User.t) (groupId : Z)
  : list User.t :=
  filter (fun m => negb (User.id m =? User.id user)) (getGroupMembers st groupId).

(** Whom a notification is for, and the group it names. *)
Definition recipient_and_group (n : Notification.t) : Z * option Z :=
  (Notification.userId n, Notification.groupId n).

(** Of these notifications, those that name the group. *)
Definition of_group (created : list Notification.t) (groupId : Z)
  : list Notification.t :=
  filter (fun n => eq_nullable (Notification.groupId n) groupId) created.

(** Calendar year and zero-indexed month, in UTC, of an instant given in
    milliseconds since the epoch. *)
Definition utc_year_month (ms : Z) : Z * Z :=
  let ym := civil_year_month (ms / 86400000) in
  (fst ym, snd ym - 1).

(** Order of (year, month) pairs. *)
Definition ym_compare (a b : Z * Z) : comparison :=
  match fst a ?= fst b with
  | Eq => snd a ?= snd b
  | c => c
  end.

Definition ym_lt (a b : Z * Z) : Prop :=
  fst a < fst b \/ (fst a = fst b /\ snd a < snd b).

(** The key of the [GROUP BY] and [ORDER BY] of [getUserImageDates]. *)
Definition year_month_key (i : Image.t) : option string :=
  strftime_Ym (uploaded_datetime i).

(** Integers that, read as milliseconds since the epoch, lie between the
    epoch and the end of year 9999. *)
Definition valid_timestamp (ms : Z) : Prop := 0 <= ms <= 253402300799999.

Definition js_year_month (p : Z * Z) : YearMonth.t :=
  YearMonth.mk (Some (fst p)) (Some (snd p)).

(** First instant, in milliseconds since the epoch, of month [m]
    (January = 0) of year [y] on the server's clock. *)
Definition month_first_instant (timezoneOffset y m : Z) : Z :=
  days_from_civil y (m + 1) 1 * 86400000 + timezoneOffset * 60000.

(** The month after month [m] of year [y]. *)
Definition next_month (y m : Z) : Z * Z :=
  if m =? 11 then (y + 1, 0) else (y, m + 1).

(** Dates from the epoch to 2054-11-15: their seconds, taken for
    milliseconds, all fall in January 1970. *)
Definition uploaded_before_2054 (i : Image.t) : Prop :=
  0 <= uploadedAt_Date i < 2678400000000.

(** Fixtures. *)

Definition ann : User.t := User.mk 1 "ann" "x" 0.
Definition bob : User.t := User.mk 2 "bob" "y" 0.
Definition cat : User.t := User.mk 3 "cat" "z" 0.

Definition store_two_users : Store :=
  mkStore [ann; bob] [] [] [] [] [] [] (mkSequence 0 0 0 0).

(** Ann's request to Bob, already accepted. *)
Definition store_accepted : Store :=
  mkStore [ann; bob] [] [Friend.mk 1 1 2 accepted 0] [] [] [] []
          (mkSequence 0 1 0 0).

Definition image7 : Image.t :=
  Image.mk 7 1 "/uploads/a.png" (Some EmptyString) 1704067200000.

Definition store_one_image : Store :=
  mkStore [User.mk 1 "ann" "x" 0] [image7] [] [] [] [] []
          (mkSequence 7 0 0 0).


(** Ann, Bob and Cat in group 4; Ann has uploaded image 7. *)
Definition store_group : Store :=
  mkStore [ann; bob; cat] [image7]
          []
          [Group.mk 4 "trip" None 1 0]
          [GroupMember.mk 1 4 1 0; GroupMember.mk 2 4 2 0; GroupMember.mk 3 4 3 0]
          [] [] (mkSequence 7 0 0 0).

(** Rows of Ann, and one of Bob, whose stored integers, read as
    milliseconds, are 2024-01-15, 2024-01-31 23:59:59.999, 2024-02-01
    00:00:00.000 and 2023-12-31 (UTC). *)
Definition store_dates : Store :=
  mkStore [ann; bob]
          [Image.mk 1 1 "/uploads/a.png" None 1705312800000;
           Image.mk 2 1 "/uploads/b.png" None 1706745599999;
           Image.mk 3 1 "/uploads/c.png" None 1706745600000;
           Image.mk 4 1 "/uploads/d.png" None 1703980800000;
           Image.mk 5 2 "/uploads/e.png" None 1705312800000]
          [] [] [] [] [] (mkSequence 5 0 0 0).

(** Ann uploads an image; the date that the column default gives it is
    2024-01-15, 10:00:00 UTC. *)
Definition date_2024_01_15 : Z := 1705312800000.

Definition store_after_upload : Store :=
  snd (createImage date_2024_01_15
         (InsertImage.mk 1 "/uploads/a.png" (Some EmptyString))
         store_two_users).

(* ===================================================================== *)
(** ** [DatabaseStorage]: the remaining operations *)
(* ===================================================================== *)

Module InsertUser.
Record t : Type := mk { username : string; password : string }.
End InsertUser.

Module InsertGroup.
(** [name] is [req.body.name]; [None] when the body carries none. *)
Record t : Type := mk
  { name : option string; description : option string; createdBy : Z }.
End InsertGroup.

Module InsertGroupMember.
Record t : Type := mk { groupId : Z; userId : Z }.
End InsertGroupMember.

Module FriendWithUser.
(** [{ ...friend, user: user! }]; [None] is the [undefined] that
    [getUser] gives for an id without a row. *)
Record t : Type := mk { base : Friend.t; user : option User.t }.
End FriendWithUser.

Module GroupWithMembers.
(** [{ ...group, members }] *)
Record t : Type := mk { base : Group.t; members : list User.t }.
End GroupWithMembers.

Definition set_users (st : Store) (rows : list User.t) : Store :=
  mkStore rows (images st) (friends st) (groups st) (groupMembers st)
          (imageShares st) (notifications st) (sqlite_sequence st).

Definition set_groups (st : Store) (rows : list Group.t) : Store :=
  mkStore (users st) (images st) (friends st) rows (groupMembers st)
          (imageShares st) (notifications st) (sqlite_sequence st).

Definition set_groupMembers (st : Store) (rows : list GroupMember.t) : Store :=
  mkStore (users st) (images st) (friends st) (groups st) rows
          (imageShares st) (notifications st) (sqlite_sequence st).

Definition unique_failed : Error :=
  SqliteConstraint "UNIQUE constraint failed: users.username".

Definition not_null_failed : Error :=
  SqliteConstraint "NOT NULL constraint failed: groups.name".

(** [eq(friends.status, value)] *)
Definition status_eqb (a b : FriendStatus) : bool :=
  match a, b with
  | pending, pending | accepted, accepted | declined, declined => true
  | _, _ => false
  end.

(** The inserts into [users], [groups] and [group_members] take the
    [AUTOINCREMENT] counter of their table as the argument [seq]: its
    value when the statement runs. *)

(** *** User operations *)

Definition getUserByUsername (st : Store) (username : string) : option User.t :=
  first_row
    (limit 1 (filter (fun u => (User.username u =? username)%string) (users st))).

(** Column [username] is declared [UNIQUE]. *)
Definition createUser (seq now : Z) (user : InsertUser.t) : M User.t :=
  fun st =>
    if existsb (fun u => (User.username u =? InsertUser.username user)%string)
               (users st)
    then (inl unique_failed, st)
    else
      let id := next_id (map User.id (users st)) seq in
      let row := User.mk id (InsertUser.username user) (InsertUser.password user)
                         (timestamp_to_driver now) in
      (inr row, set_users st (users st ++ [row])).

(** *** Friend operations *)

(** The function mapped under [Promise.all] in the next two only calls
    [getUser], which does not throw. *)

Definition getFriendRequests (st : Store) (userId : Z) : list FriendWithUser.t :=
  let requests :=
    filter (fun f => (Friend.addresseeId f =? userId)
                     && status_eqb (Friend.status f) pending)
           (friends st) in
  map (fun request =>
         let user := getUser st (Friend.requesterId request) in
         FriendWithUser.mk request user)
      requests.

Definition getUserFriends (st : Store) (userId : Z) : list FriendWithUser.t :=
  let friendships :=
    filter (fun f => ((Friend.requesterId f =? userId)
                      || (Friend.addresseeId f =? userId))
                     && status_eqb (Friend.status f) accepted)
           (friends st) in
  map (fun friendship =>
         let otherUserId :=
           if Friend.requesterId friendship =? userId
           then Friend.addresseeId friendship
           else Friend.requesterId friendship in
         let user := getUser st otherUserId in
         FriendWithUser.mk friendship user)
      friendships.

(** *** Group operations *)

Definition createGroup (seq now : Z) (group : InsertGroup.t) : M Group.t :=
  fun st =>
    match InsertGroup.name group with
    | None => (inl not_null_failed, st)
    | Some name =>
        if references User.id (users st) (InsertGroup.createdBy group)
        then
          let id := next_id (map Group.id (groups st)) seq in
          let row := Group.mk id name (InsertGroup.description group)
                              (InsertGroup.createdBy group)
                              (timestamp_to_driver now) in
          (inr row, set_groups st (groups st ++ [row]))
        else (inl foreign_key_failed, st)
    end.

Definition getUserGroups (st : Store) (userId : Z) : list Group.t :=
  let memberGroups :=
    filter (fun m => GroupMember.userId m =? userId) (groupMembers st) in
  let groupIds := map GroupMember.groupId memberGroups in
  if (List.length groupIds =? 0)%nat then []
  else filter (fun g => inArray (Group.id g) groupIds) (groups st).

Definition getGroupWithMembers (st : Store) (id : Z) : option GroupWithMembers.t :=
  match catch_undefined (getGroup st id) with
  | None => None
  | Some group =>
      let members := getGroupMembers st id in
      Some (GroupWithMembers.mk group members)
  end.

Definition addGroupMember (seq now : Z) (member : InsertGroupMember.t)
  : M GroupMember.t :=
  fun st =>
    if references Group.id (groups st) (InsertGroupMember.groupId member)
       && references User.id (users st) (InsertGroupMember.userId member)
    then
      let id := next_id (map GroupMember.id (groupMembers st)) seq in
      let row := GroupMember.mk id (InsertGroupMember.groupId member)
                   (InsertGroupMember.userId member) (timestamp_to_driver now) in
      (inr row, set_groupMembers st (groupMembers st ++ [row]))
    else (inl foreign_key_failed, st).

Definition removeGroupMember (groupId userId : Z) : M unit :=
  fun st =>
    (inr tt,
     set_groupMembers st
       (filter (fun m => negb ((GroupMember.groupId m =? groupId)
                               && (GroupMember.userId m =? userId)))
               (groupMembers st))).

Definition getGroupImages (st : Store) (groupId : Z) : list Image.t :=
  let shares :=
    filter (fun s => eq_nullable (ImageShare.groupId s) groupId) (imageShares st) in
  let imageIds := map ImageShare.imageId shares in
  if (List.length imageIds =? 0)%nat then []
  else order_by_desc Image.uploadedAt
         (filter (fun i => inArray (Image.id i) imageIds) (images st)).

(** *** Notification operations *)

Definition getNotification (st : Store) (id : Z) : option Notification.t :=
  first_row (limit 1 (filter (fun n => Notification.id n =? id) (notifications st))).

(** [set({ isRead: true })] on one row. *)
Definition set_isRead (n : Notification.t) : Notification.t :=
  Notification.mk (Notification.id n) (Notification.userId n)
    (Notification.type n) (Notification.content n) (Notification.senderId n)
    (Notification.groupId n) (Notification.imageId n) true
    (Notification.createdAt n).

Definition markNotificationAsRead (id : Z) : M Notification.t :=
  fun st =>
    let updated :=
      map (fun n => if Notification.id n =? id then set_isRead n else n)
          (notifications st) in
    match filter (fun n => Notification.id n =? id) updated with
    | [] => (inl (JsError "Notification not found"), set_notifications st updated)
    | n :: _ => (inr n, set_notifications st updated)
    end.

Definition markAllNotificationsAsRead (userId : Z) : M unit :=
  fun st =>
    (inr tt,
     set_notifications st
       (map (fun n => if Notification.userId n =? userId then set_isRead n else n)
            (notifications st))).

(* ===================================================================== *)
(** ** Request handlers: images, groups and notifications *)
(* ===================================================================== *)

Local Open Scope storage_scope.

(** What [res.json] is given. *)
Inductive Body : Type :=
| BodyMessage (message : string)
| BodyImageWithShares (image : option ImageWithShares.t)
| BodyImages (images : list Image.t)
| BodyGroup (group : Group.t)
| BodyGroupWithMembers (group : GroupWithMembers.t)
| BodyNotification (notification : Notification.t)
| BodyUsers (users : list User.t).

(** [res.status(code).json(body)]; [res.json(body)] answers 200. *)
Record Reply : Type := mkReply { code : Z; body : Body }.

(** *** [GET /api/images/:id] *)

Section ImageRoutes.
Variable ne_null : option Z -> bool.

Definition get_api_images_id (user : User.t) (imageId : Z)
  : Store -> Reply * Store :=
  try_catch
    (let userId := User.id user in
     (* the statements after the access check *)
     let respond : M Reply :=
       imageWithShares <- query (fun st => getImageWithShares ne_null st imageId) ;;
       ret (mkReply 200 (BodyImageWithShares imageWithShares)) in
     image <- query (fun st => getImage st imageId) ;;
     match image with
     | None => ret (mkReply 404 (BodyMessage "Image not found"))
     | Some image =>
         if negb (Image.userId image =? userId)
         then
           hasAccess <- query (fun st => userHasImageAccess st userId imageId) ;;
           if negb hasAccess
           then ret (mkReply 403 (BodyMessage "You don't have access to this image"))
           else respond
         else respond
     end)
    (fun _ => mkReply 500 (BodyMessage "Failed to fetch image")).
End ImageRoutes.

(** *** [DELETE /api/images/:id]

    [unlink] is what removing the file from disk does
    ([fs.existsSync], [fs.unlinkSync]): it returns or throws. *)
Definition delete_api_images_id (unlink : Error + unit) (user : User.t)
           (imageId : Z) : Store -> Reply * Store :=
  try_catch
    (let userId := User.id user in
     image <- query (fun st => getImage st imageId) ;;
     match image with
     | None => ret (mkReply 404 (BodyMessage "Image not found"))
     | Some image =>
         if negb (Image.userId image =? userId)
         then ret (mkReply 403 (BodyMessage "You can only delete your own images"))
         else
           query_or_throw (fun _ => unlink) ;;;
           deleteImage imageId ;;;
           ret (mkReply 200 (BodyMessage "Image deleted successfully"))
     end)
    (fun _ => mkReply 500 (BodyMessage "Failed to delete image")).

(** *** [POST /api/groups] *)

Definition post_api_groups (seq_groups seq_groupMembers now : Z) (user : User.t)
           (name description : option string) : Store -> Reply * Store :=
  try_catch
    (let createdBy := User.id user in
     group <- createGroup seq_groups now
                (InsertGroup.mk name description createdBy) ;;
     addGroupMember seq_groupMembers now
       (InsertGroupMember.mk (Group.id group) createdBy) ;;;
     ret (mkReply 201 (BodyGroup group)))
    (fun _ => mkReply 500 (BodyMessage "Failed to create group")).

(** *** [GET /api/groups/:id] *)

Definition get_api_groups_id (user : User.t) (groupId : Z)
  : Store -> Reply * Store :=
  try_catch
    (let userId := User.id user in
     isMember <- query (fun st => isGroupMember st groupId userId) ;;
     if negb isMember
     then ret (mkReply 403 (BodyMessage "You are not a member of this group"))
     else
       group <- query (fun st => getGroupWithMembers st groupId) ;;
       match group with
       | None => ret (mkReply 404 (BodyMessage "Group not found"))
       | Some group => ret (mkReply 200 (BodyGroupWithMembers group))
       end)
    (fun _ => mkReply 500 (BodyMessage "Failed to fetch group")).

(** *** [POST /api/groups/:id/members] *)

Definition double_quote : string := String (ascii_of_N 34) EmptyString.

Definition post_api_groups_members (seq_groupMembers now : Z) (user : User.t)
           (groupId userId : Z) : Store -> Reply * Store :=
  try_catch
    (let currentUserId := User.id user in
     isMember <- query (fun st => isGroupMember st groupId currentUserId) ;;
     if negb isMember
     then ret (mkReply 403 (BodyMessage "You are not a member of this group"))
     else
       isAlreadyMember <- query (fun st => isGroupMember st groupId userId) ;;
       if isAlreadyMember
       then ret (mkReply 400 (BodyMessage "User is already a member of this group"))
       else
         addGroupMember seq_groupMembers now
           (InsertGroupMember.mk groupId userId) ;;;
         group <- query_or_throw (fun st => getGroup st groupId) ;;
         createNotification now
           (InsertNotification.mk userId group_invite
              (User.username user ++ " added you to the group "
               ++ double_quote ++ Group.name group ++ double_quote)%string
              (Some currentUserId) (Some groupId) None) ;;;
         ret (mkReply 201 (BodyMessage "User added to group")))
    (fun _ => mkReply 500 (BodyMessage "Failed to add member to group")).

(** *** [GET /api/groups/:id/images] *)

Definition get_api_groups_images (user : User.t) (groupId : Z)
  : Store -> Reply * Store :=
  try_catch
    (let userId := User.id user in
     isMember <- query (fun st => isGroupMember st groupId userId) ;;
     if negb isMember
     then ret (mkReply 403 (BodyMessage "You are not a member of this group"))
     else
       images <- query (fun st => getGroupImages st groupId) ;;
       ret (mkReply 200 (BodyImages images)))
    (fun _ => mkReply 500 (BodyMessage "Failed to fetch group images")).

(** *** [DELETE /api/groups/:groupId/members/:userId]

    [getGroup] returns a row or throws, so the test [if (!group)] of the
    handler never holds. *)
Definition delete_api_groups_members (user : User.t) (groupId memberIdToRemove : Z)
  : Store -> Reply * Store :=
  try_catch
    (let currentUserId := User.id user in
     group <- query_or_throw (fun st => getGroup st groupId) ;;
     if negb (memberIdToRemove =? currentUserId)
        && negb (Group.createdBy group =? currentUserId)
     then ret (mkReply 403
                 (BodyMessage "You don't have permission to remove this member"))
     else
       removeGroupMember groupId memberIdToRemove ;;;
       ret (mkReply 200 (BodyMessage "Member removed from group")))
    (fun _ => mkReply 500 (BodyMessage "Failed to remove member from group")).

(** *** [PUT /api/notifications/:id/read] *)

Definition put_api_notifications_read (user : User.t) (notificationId : Z)
  : Store -> Reply * Store :=
  try_catch
    (let userId := User.id user in
     notification <- query (fun st => getNotification st notificationId) ;;
     match notification with
     | None => ret (mkReply 404 (BodyMessage "Notification not found"))
     | Some notification =>
         if negb (Notification.userId notification =? userId)
         then ret (mkReply 403
                     (BodyMessage "You can only mark your own notifications as read"))
         else
           updatedNotification <- markNotificationAsRead notificationId ;;
           ret (mkReply 200 (BodyNotification updatedNotification))
     end)
    (fun _ => mkReply 500 (BodyMessage "Failed to mark notification as read")).

(** *** [PUT /api/notifications/read-all] *)

Definition put_api_notifications_read_all (user : User.t)
  : Store -> Reply * Store :=
  try_catch
    (let userId := User.id user in
     markAllNotificationsAsRead userId ;;;
     ret (mkReply 200 (BodyMessage "All notifications marked as read")))
    (fun _ => mkReply 500 (BodyMessage "Failed to mark notifications as read")).

(* ===================================================================== *)
(** ** Relations between stores and invariants of the tables *)
(* ===================================================================== *)

(** The step wrote nothing but notification rows (and their counter). *)
Definition same_but_notifications (st st' : Store) : Prop :=
  users st' = users st /\ images st' = images st /\ friends st' = friends st
  /\ groups st' = groups st /\ groupMembers st' = groupMembers st
  /\ imageShares st' = imageShares st.

(** The step wrote no row of [users], [images], [groups] or
    [group_members]. *)
Definition same_but_shares (st st' : Store) : Prop :=
  users st' = users st /\ images st' = images st /\ groups st' = groups st
  /\ groupMembers st' = groupMembers st.

(** The other party of a friendship row, seen from [userId], as
    [getUserFriends] picks it. *)
Definition other_party (f : Friend.t) (userId : Z) : Z :=
  if Friend.requesterId f =? userId
  then Friend.addresseeId f else Friend.requesterId f.

(** The ids of the users that [GET /api/friends] lists for [userId]. *)
Definition friend_ids (st : Store) (userId : Z) : list Z :=
  map (fun e => other_party (FriendWithUser.base e) userId)
      (getUserFriends st userId).

(** Two friendship rows link the same unordered pair of users. *)
Definition same_pair (f g : Friend.t) : Prop :=
  (Friend.requesterId f = Friend.requesterId g
   /\ Friend.addresseeId f = Friend.addresseeId g)
  \/ (Friend.requesterId f = Friend.addresseeId g
      /\ Friend.addresseeId f = Friend.requesterId g).

(** Table [friends]: distinct ids, at most one row for an unordered pair
    of users, nobody linked to themself. *)
Definition friends_invariant (st : Store) : Prop :=
  NoDup (map Friend.id (friends st))
  /\ ForallOrdPairs (fun f g => ~ same_pair f g) (friends st)
  /\ Forall (fun f => Friend.requesterId f <> Friend.addresseeId f) (friends st).

(** Every friendship row names two users of table [users]. *)
Definition friends_reference_users (st : Store) : Prop :=
  forall f, In f (friends st) ->
            user_exists st (Friend.requesterId f)
            /\ user_exists st (Friend.addresseeId f).

(** Table [group_members]: at most one row for a group and a user. *)
Definition memberships_distinct (st : Store) : Prop :=
  NoDup (map (fun m => (GroupMember.groupId m, GroupMember.userId m))
             (groupMembers st)).

(** Every membership row names a group of table [groups]. *)
Definition members_reference_groups (st : Store) : Prop :=
  forall m, In m (groupMembers st) ->
            exists g, In g (groups st) /\ Group.id g = GroupMember.groupId m.

(** The step wrote nothing but membership rows. *)
Definition same_but_memberships (st st' : Store) : Prop :=
  users st' = users st /\ images st' = images st /\ friends st' = friends st
  /\ groups st' = groups st /\ imageShares st' = imageShares st
  /\ notifications st' = notifications st.

(** [ne(column, null)] as the engine evaluates it: the statement
    compares the column with a bound [NULL] by [<>], and a comparison
    with [NULL] is true of no row, whatever the column holds. *)
Definition sql_ne_null (col : option Z) : bool := false.

(* ===================================================================== *)
(** ** [searchUsers] and [GET /api/users/search] *)
(* ===================================================================== *)

(** A text is given by the bytes of its UTF-8 encoding, as the driver
    hands it to the engine.  The engine's [LIKE] reads its two texts as
    C strings: a text ends before its first NUL byte, and is then a
    sequence of characters as [sqlite3Utf8Read] takes them out of the
    bytes. *)
Fixpoint c_string (bytes : list ascii) : list N :=
  match bytes with
  | [] => []
  | b :: rest =>
      if (N_of_ascii b =? 0)%N then [] else N_of_ascii b :: c_string rest
  end.

(** [sqlite3Utf8Trans1[lead - 0xc0]]: the payload bits of a lead byte. *)
Definition sqlite3Utf8Trans1 (lead : N) : N :=
  (if lead <? 0xE0 then lead - 0xC0
   else if lead <? 0xF0 then lead - 0xE0
   else if lead <? 0xF8 then lead - 0xF0
   else if lead <? 0xFC then lead - 0xF8
   else if lead <? 0xFE then lead - 0xFC
   else 0)%N.

(** The end of [sqlite3Utf8Read]: a value below 0x80, a surrogate, 0xFFFE
    and 0xFFFF are replaced by 0xFFFD. *)
Definition utf8_value (c : N) : N :=
  (if (c <? 0x80)
      || (N.land c 0xFFFFF800 =? 0xD800)
      || (N.land c 0xFFFFFFFE =? 0xFFFE)
   then 0xFFFD else c)%N.

(** The characters of a C string: a byte below 0xC0 is a character of
    its own; a byte from 0xC0 on takes with it the bytes 0x80..0xBF that
    follow, six bits each, in 32-bit arithmetic.  [pending] is the value
    of the character being read. *)
Fixpoint sqlite3Utf8Read (pending : option N) (bytes : list N) : list N :=
  let start (b : N) (continue : option N -> list N) : list N :=
    (if b <? 0xC0 then b :: continue None
     else continue (Some (sqlite3Utf8Trans1 b)))%N in
  match bytes with
  | [] =>
      match pending with
      | Some c => [utf8_value c]
      | None => []
      end
  | b :: rest =>
      match pending with
      | Some c =>
          if (N.land b 0xC0 =? 0x80)%N
          then sqlite3Utf8Read
                 (Some ((N.shiftl c 6 + N.land b 0x3F) mod 2 ^ 32)%N) rest
          else utf8_value c :: start b (fun p => sqlite3Utf8Read p rest)
      | None => start b (fun p => sqlite3Utf8Read p rest)
      end
  end.

Definition characters (text : string) : list N :=
  sqlite3Utf8Read None (c_string (list_ascii_of_string text)).

(** [sqlite3Tolower] on a character below 0x80; [LIKE] folds no other. *)
Definition like_lower (c : N) : N :=
  (if (65 <=? c) && (c <=? 90) then c + 32 else c)%N.

(** [patternCompare] for [LIKE] without [ESCAPE]: in the pattern [%]
    stands for any run of characters, [_] for any one character, and
    every other character for itself, the letters [A] to [Z] and [a] to
    [z] without regard to case. *)
Fixpoint like_match (pattern : list N) : list N -> bool :=
  match pattern with
  | [] => fun text => match text with [] => true | _ :: _ => false end
  | p :: rest =>
      if (p =? 37)%N
      then
        fix any_run (text : list N) : bool :=
          like_match rest text
          || match text with
             | [] => false
             | _ :: t => any_run t
             end
      else
        fun text =>
          match text with
          | [] => false
          | c :: t =>
              ((p =? 95)%N || (like_lower p =? like_lower c)%N)
              && like_match rest t
          end
  end.

(** [SQLITE_MAX_LIKE_PATTERN_LENGTH], in bytes. *)
Definition like_pattern_length : Z := 50000.

(** [like(column, pattern)]: a pattern of more bytes than the limit makes
    the statement fail (the driver throws a [SqliteError]). *)
Definition like (column pattern : string) : Error + bool :=
  if like_pattern_length <? Z.of_nat (String.length pattern)
  then inl (JsError "LIKE or GLOB pattern too complex")
  else inr (like_match (characters pattern) (characters column)).

(** A [WHERE] clause whose condition can fail: the rows are tested in
    table order, and the statement fails with the first row whose
    condition does. *)
Fixpoint where_or_throw {A : Type} (cond : A -> Error + bool) (rows : list A)
  : Error + list A :=
  match rows with
  | [] => inr []
  | r :: rest =>
      match cond r with
      | inl e => inl e
      | inr b =>
          match where_or_throw cond rest with
          | inl e => inl e
          | inr kept => inr (if b then r :: kept else kept)
          end
      end
  end.

(** [and(ne(users.id, currentUserId), like(users.username, ...))]: the
    second condition is not evaluated on the caller's row. *)
Definition searchUsers (st : Store) (query : string) (currentUserId : Z)
  : Error + list User.t :=
  where_or_throw
    (fun u => if negb (User.id u =? currentUserId)
              then like (User.username u) ("%" ++ query ++ "%")%string
              else inr false)
    (users st).

(** [query_param] is [req.query.query] when it is a string, [None]
    otherwise; the empty string is falsy. *)
Definition get_api_users_search (user : User.t) (query_param : option string)
  : Store -> Reply * Store :=
  try_catch
    (match query_param with
     | None | Some EmptyString =>
         ret (mkReply 400 (BodyMessage "Search query is required"))
     | Some text =>
         users <- query_or_throw (fun st => searchUsers st text (User.id user)) ;;
         ret (mkReply 200 (BodyUsers users))
     end)
    (fun _ => mkReply 500 (BodyMessage "Failed to search users")).

(** The text has a NUL byte. *)
Definition has_NUL (text : string) : bool :=
  existsb (fun b => (N_of_ascii b =? 0)%N) (list_ascii_of_string text).

(** The characters of the text hold those of the query as a run of
    consecutive characters, up to the case of ASCII letters; with
    [at_end], the run ends the text. *)
Definition holds_query (at_end : bool) (text query : string) : Prop :=
  exists before after,
    map like_lower (characters text)
    = before ++ map like_lower (characters query) ++ after
    /\ (at_end = true -> after = []).

(** The query has none of the two wildcard characters. *)
Definition no_wildcard (query : string) : Prop :=
  Forall (fun c => c <> 37%N /\ c <> 95%N) (characters query).


(* ===================================================================== *)
(** ** Months on the day line *)
(* ===================================================================== *)

(** Months as pairs (year, month) with the month from 1 to 12. *)
Definition following_month (p : Z * Z) : Z * Z :=
  if snd p =? 12 then (fst p + 1, 1) else (fst p, snd p + 1).

(** Day number of the first day of a month. *)
Definition first_day (p : Z * Z) : Z := days_from_civil (fst p) (snd p) 1.

(** The months in their order, indexed by the integers. *)
Definition month_of_index (k : Z) : Z * Z := (k / 12, k mod 12 + 1).

(* ===================================================================== *)
(** ** More fixtures *)
(* ===================================================================== *)

(** Ann has sent Bob a request that is still pending. *)
Definition store_pending : Store :=
  mkStore [ann; bob] [] [Friend.mk 1 1 2 pending 0] [] [] [] []
          (mkSequence 0 1 0 0).

(** Group 4 of Ann, Bob and Cat, with Ann's image 7 shared in it. *)
Definition store_shared : Store :=
  mkStore [ann; bob; cat] [image7]
          []
          [Group.mk 4 "trip" None 1 0]
          [GroupMember.mk 1 4 1 0; GroupMember.mk 2 4 2 0; GroupMember.mk 3 4 3 0]
          [ImageShare.mk 1 7 None (Some 4) 0] [] (mkSequence 7 0 1 0).

(** A server five and a half hours east of UTC all year; Ann's image
    was stored with the integer of 2024-01-31 23:30:00 UTC, which is the
    first of February on the server's clock. *)
Definition timezone_east : Z := -330.

Definition store_month_end : Store :=
  mkStore [ann] [Image.mk 1 1 "/uploads/a.png" None 1706743800000]
          [] [] [] [] [] (mkSequence 1 0 0 0).
(* ===================================================================== *)
(** ** Properties *)
(* ===================================================================== *)

(** *** Query engine facts *)

Lemma limit_filter_nonempty {A : Type} (p : A -> bool) (rows : list A) :
  (0 <? List.length (limit 1 (filter p rows)))%nat = existsb p rows.
Proof.
  induction rows as [|r rows IH]; simpl; [reflexivity|].
  destruct (p r); simpl; [reflexivity | exact IH].
Qed.

Lemma first_row_filter_Some {A : Type} (p : A -> bool) (rows : list A) (r : A) :
  first_row (limit 1 (filter p rows)) = Some r -> In r rows /\ p r = true.
Proof.
  induction rows as [|x rows IH]; simpl; [discriminate|].
  destruct (p x) eqn:Hp; simpl.
  - intros [= <-]. auto.
  - intros H. destruct (IH H). auto.
Qed.

Lemma first_row_filter_None {A : Type} (p : A -> bool) (rows : list A) :
  first_row (limit 1 (filter p rows)) = None <-> existsb p rows = false.
Proof.
  induction rows as [|x rows IH]; simpl; [tauto|].
  destruct (p x); simpl; [split; discriminate | exact IH].
Qed.

Lemma inArray_In (x : Z) (values : list Z) :
  inArray x values = true <-> In x values.
Proof.
  unfold inArray. rewrite existsb_exists. split.
  - intros [v [Hin Hv]]. apply Z.eqb_eq in Hv. now subst.
  - intros Hin. exists x. split; [assumption | apply Z.eqb_refl].
Qed.

Lemma eq_nullable_true (col : option Z) (v : Z) :
  eq_nullable col v = true <-> col = Some v.
Proof.
  destruct col as [c|]; simpl.
  - rewrite Z.eqb_eq. split; congruence.
  - split; discriminate.
Qed.

Lemma references_true {A : Type} (key : A -> Z) (parent : list A) (k : Z) :
  references key parent k = true <-> exists r, In r parent /\ key r = k.
Proof.
  unfold references. rewrite existsb_exists.
  split; intros [r [Hin Hk]]; exists r; split; auto; now apply Z.eqb_eq.
Qed.

(** *** C10, C1: friendship lookup and image access *)

Lemma first_row_filter_split {A : Type} (p : A -> bool) (rows : list A) (r : A) :
  first_row (limit 1 (filter p rows)) = Some r ->
  exists before after,
    rows = before ++ r :: after
    /\ p r = true
    /\ forall x, In x before -> p x = false.
Proof.
  induction rows as [|x rows IH]; simpl; [discriminate|].
  destruct (p x) eqn:Hp; simpl.
  - intros [= <-]. exists [], rows. repeat split; [assumption|].
    intros y [].
  - intros H. destruct (IH H) as (before & after & -> & Hr & Hb).
    exists (x :: before), after. repeat split; [assumption|].
    intros y [<- | Hy]; [assumption | now apply Hb].
Qed.

Lemma getFriendship_condition (f : Friend.t) (a b : Z) :
  ((Friend.requesterId f =? a) && (Friend.addresseeId f =? b))
  || ((Friend.requesterId f =? b) && (Friend.addresseeId f =? a)) = true
  <-> links_pair f a b.
Proof.
  unfold links_pair.
  rewrite orb_true_iff, !andb_true_iff, !Z.eqb_eq. tauto.
Qed.

(** C10. [getFriendship] is symmetric in its two arguments: looked up as
    (a, b) or as (b, a) it returns the same row.  The row it returns is
    the first row of the table that links the two users, whichever of
    them is the requester and whatever its status; it returns nothing
    only when no row links them.  So a request in either direction finds
    the row of an earlier request in the other. *)
Theorem getFriendship_symmetric (st : Store) (a b : Z) :
  getFriendship st a b = getFriendship st b a
  /\ match getFriendship st a b with
     | Some f =>
         exists before after,
           friends st = before ++ f :: after
           /\ links_pair f a b
           /\ forall g, In g before -> ~ links_pair g a b
     | None => forall g, In g (friends st) -> ~ links_pair g a b
     end.
Proof.
  split.
  - unfold getFriendship. f_equal. f_equal.
    apply filter_ext. intros f. apply orb_comm.
  - destruct (getFriendship st a b) as [f|] eqn:E; unfold getFriendship in E.
    + apply first_row_filter_split in E as (before & after & Hs & Hf & Hb).
      exists before, after. repeat split; [assumption | |].
      * now apply getFriendship_condition.
      * intros g Hg Hl. apply getFriendship_condition in Hl.
        rewrite (Hb g Hg) in Hl. discriminate.
    + apply first_row_filter_None in E.
      intros g Hg Hl. apply getFriendship_condition in Hl.
      assert (X : existsb (fun f =>
                 ((Friend.requesterId f =? a) && (Friend.addresseeId f =? b))
                 || ((Friend.requesterId f =? b) && (Friend.addresseeId f =? a)))
                (friends st) = true)
        by (apply existsb_exists; exists g; auto).
      rewrite E in X. discriminate.
Qed.

(** C1. [userHasImageAccess u i] is true exactly when [u] owns image [i],
    or a share of [i] names [u], or a share of [i] names a group that a
    membership row links [u] to; it is false when none of the three
    holds. *)
Theorem userHasImageAccess_iff (st : Store) (u i : Z) :
  userHasImageAccess st u i = true <->
  (exists img, In img (images st) /\ Image.id img = i /\ Image.userId img = u)
  \/ (exists s, In s (imageShares st)
               /\ ImageShare.imageId s = i /\ ImageShare.userId s = Some u)
  \/ (exists s g m, In s (imageShares st) /\ In m (groupMembers st)
                   /\ ImageShare.imageId s = i /\ ImageShare.groupId s = Some g
                   /\ GroupMember.groupId m = g /\ GroupMember.userId m = u).
Proof.
  unfold userHasImageAccess.
  rewrite !limit_filter_nonempty.
  set (ids := map GroupMember.groupId
                (filter (fun m => GroupMember.userId m =? u) (groupMembers st))).
  assert (Hids : forall g, In g ids <->
            exists m, In m (groupMembers st)
                      /\ GroupMember.groupId m = g /\ GroupMember.userId m = u).
  { intros g. unfold ids. rewrite in_map_iff. split.
    - intros [m [Hg Hm]]. apply filter_In in Hm as [Hin Hu].
      apply Z.eqb_eq in Hu. eauto.
    - intros [m [Hin [Hg Hu]]]. exists m. split; [assumption|].
      apply filter_In. split; [assumption | now apply Z.eqb_eq]. }
  assert (Howner : existsb (fun img => (Image.id img =? i) && (Image.userId img =? u))
                     (images st) = true <->
            exists img, In img (images st) /\ Image.id img = i /\ Image.userId img = u).
  { rewrite existsb_exists. split; intros [img [Hin H]]; exists img.
    - apply andb_true_iff in H as [H1 H2]. apply Z.eqb_eq in H1, H2. auto.
    - destruct H as [H1 H2]. split; [assumption|].
      apply andb_true_iff. now rewrite !Z.eqb_eq. }
  assert (Hdirect : existsb (fun s => (ImageShare.imageId s =? i)
                                      && eq_nullable (ImageShare.userId s) u)
                      (imageShares st) = true <->
            exists s, In s (imageShares st)
                      /\ ImageShare.imageId s = i /\ ImageShare.userId s = Some u).
  { rewrite existsb_exists. split; intros [s [Hin H]]; exists s.
    - apply andb_true_iff in H as [H1 H2]. apply Z.eqb_eq in H1.
      apply eq_nullable_true in H2. auto.
    - destruct H as [H1 H2]. split; [assumption|].
      apply andb_true_iff. now rewrite Z.eqb_eq, eq_nullable_true. }
  assert (Hgroup : existsb (fun s => (ImageShare.imageId s =? i)
                                     && inArray_nullable (ImageShare.groupId s) ids)
                     (imageShares st) = true <->
            exists s g m, In s (imageShares st) /\ In m (groupMembers st)
                   /\ ImageShare.imageId s = i /\ ImageShare.groupId s = Some g
                   /\ GroupMember.groupId m = g /\ GroupMember.userId m = u).
  { rewrite existsb_exists. split.
    - intros [s [Hin H]]. apply andb_true_iff in H as [H1 H2].
      apply Z.eqb_eq in H1. unfold inArray_nullable in H2.
      destruct (ImageShare.groupId s) as [g|] eqn:Hg; [|discriminate].
      apply inArray_In, Hids in H2 as [m [Hm [Hmg Hmu]]].
      exists s, g, m. repeat split; assumption.
    - intros [s [g [m [Hs [Hm [H1 [H2 [H3 H4]]]]]]]]. exists s.
      split; [assumption|]. apply andb_true_iff. split; [now apply Z.eqb_eq|].
      unfold inArray_nullable. rewrite H2. apply inArray_In, Hids. eauto. }
  destruct (existsb _ (images st)) eqn:E1.
  { split; [intros _; left; now apply Howner | reflexivity]. }
  destruct (existsb _ (imageShares st)) eqn:E2.
  { split; [intros _; right; left; now apply Hdirect | reflexivity]. }
  destruct (List.length ids =? 0)%nat eqn:E3.
  - apply Nat.eqb_eq in E3. apply length_zero_iff_nil in E3.
    split; [discriminate|].
    intros [H | [H | H]].
    + apply Howner in H. discriminate.
    + apply Hdirect in H. discriminate.
    + destruct H as [s [g [m [_ [Hm [_ [_ [H3 H4]]]]]]]].
      assert (Hin : In g ids) by (apply Hids; eauto).
      rewrite E3 in Hin. destruct Hin.
  - rewrite Hgroup. split; [tauto|].
    intros [H | [H | H]]; [| | assumption].
    + apply Howner in H. discriminate.
    + apply Hdirect in H. discriminate.
Qed.

(** *** C8: an image without shares *)

Lemma filter_none {A : Type} (p : A -> bool) (rows : list A) :
  (forall r, In r rows -> p r = false) -> filter p rows = [].
Proof.
  induction rows as [|x rows IH]; simpl; intros H; [reflexivity|].
  rewrite (H x (or_introl eq_refl)). apply IH. intros r Hr. apply H. now right.
Qed.

(** C8. For an image that exists and has no [ImageShare] row,
    [getImageWithShares] returns a composite whose [shares.users] and
    [shares.groups] are both present and empty, and whose other fields
    are those of the image row. *)
Theorem getImageWithShares_no_shares
        (ne_null : option Z -> bool) (st : Store) (imageId : Z) (I : Image.t) :
  getImage st imageId = Some I ->
  (forall s, In s (imageShares st) -> ImageShare.imageId s <> imageId) ->
  exists r,
    getImageWithShares ne_null st imageId = Some r
    /\ Shares.users (ImageWithShares.shares r) = []
    /\ Shares.groups (ImageWithShares.shares r) = []
    /\ ImageWithShares.id r = Image.id I
    /\ ImageWithShares.userId r = Image.userId I
    /\ ImageWithShares.path r = Image.path I
    /\ ImageWithShares.description r = Image.description I
    /\ ImageWithShares.uploadedAt r = Image.uploadedAt I.
Proof.
  intros Himg Hnone. unfold getImageWithShares. rewrite Himg.
  assert (Hno : forall q : ImageShare.t -> bool,
             filter (fun s => (ImageShare.imageId s =? imageId) && q s)
                    (imageShares st) = []).
  { intros q. apply filter_none. intros s Hs.
    apply Hnone in Hs. apply Z.eqb_neq in Hs. now rewrite Hs. }
  rewrite !Hno. simpl.
  eexists. split; [reflexivity|]. simpl. repeat split; reflexivity.
Qed.

Lemma getImageWithShares_no_shares_witness :
  exists r,
    getImageWithShares (fun _ => false) store_one_image 7 = Some r
    /\ Shares.users (ImageWithShares.shares r) = []
    /\ Shares.groups (ImageWithShares.shares r) = []
    /\ ImageWithShares.id r = 7
    /\ ImageWithShares.userId r = 1
    /\ ImageWithShares.path r = "/uploads/a.png"%string
    /\ ImageWithShares.description r = Some EmptyString
    /\ ImageWithShares.uploadedAt r = 1704067200000.
Proof.
  apply (getImageWithShares_no_shares (fun _ => false) store_one_image 7
           (Image.mk 7 1 "/uploads/a.png" (Some EmptyString) 1704067200000)).
  - reflexivity.
  - simpl. intros s [].
Defined.

(** *** C9: notification details *)

Lemma with_details_returns (st : Store) (n : Notification.t) :
  with_details st n = inr (details_of st n).
Proof.
  unfold with_details, details_of, attach.
  destruct (truthy (Notification.senderId n));
    destruct (truthy (Notification.groupId n));
    destruct (truthy (Notification.imageId n)); reflexivity.
Qed.

Lemma Promise_all_resolves {A B : Type} (f : A -> Error + B) (g : A -> B)
      (rows : list A) :
  (forall r, f r = inr (g r)) -> Promise_all f rows = inr (map g rows).
Proof.
  intros Hf. induction rows as [|r rows IH]; simpl; [reflexivity|].
  now rewrite Hf, IH.
Qed.







(** *** C3: deleting an image *)

(** C3. [deleteImage id] runs its three statements to the end: first the
    shares of the image go, then its notifications, and only then the
    image row; before the third statement the image rows are still those
    of the start while no share and no notification refers to [id], and
    afterwards no share, no notification and no image row with that id
    remains. *)
Theorem deleteImage_cascade (st : Store) (id : Z) :
  exists st1 st2 st3,
    delete_imageShares_of id st = (inr tt, st1)
    /\ delete_notifications_of id st1 = (inr tt, st2)
    /\ delete_images_where_id id st2 = (inr tt, st3)
    /\ deleteImage id st = (inr tt, st3)
    /\ images st2 = images st
    /\ (forall s, In s (imageShares st2) -> ImageShare.imageId s <> id)
    /\ (forall n, In n (notifications st2) -> Notification.imageId n <> Some id)
    /\ (forall s, In s (imageShares st3) -> ImageShare.imageId s <> id)
    /\ (forall n, In n (notifications st3) -> Notification.imageId n <> Some id)
    /\ (forall i, In i (images st3) -> Image.id i <> id)
    /\ getImage st3 id = None.
Proof.
  set (shares' := filter (fun s => negb (ImageShare.imageId s =? id)) (imageShares st)).
  set (notes' := filter (fun n => negb (eq_nullable (Notification.imageId n) id))
                        (notifications st)).
  set (images' := filter (fun i => negb (Image.id i =? id)) (images st)).
  set (st1 := set_imageShares st shares').
  set (st2 := set_notifications st1 notes').
  set (st3 := set_images st2 images').
  assert (Hs : forall s, In s shares' -> ImageShare.imageId s <> id).
  { intros s Hin. apply filter_In in Hin as [_ H].
    apply negb_true_iff, Z.eqb_neq in H. exact H. }
  assert (Hn : forall n, In n notes' -> Notification.imageId n <> Some id).
  { intros n Hin. apply filter_In in Hin as [_ H].
    apply negb_true_iff in H. intros Heq.
    apply eq_nullable_true in Heq. congruence. }
  assert (Hi : forall i, In i images' -> Image.id i <> id).
  { intros i Hin. apply filter_In in Hin as [_ H].
    apply negb_true_iff, Z.eqb_neq in H. exact H. }
  assert (Hfk : existsb (fun s => ImageShare.imageId s =? id) shares'
                || existsb (fun n => eq_nullable (Notification.imageId n) id) notes'
                = false).
  { apply orb_false_iff. split.
    - apply not_true_iff_false. intros H. apply existsb_exists in H as [s [Hin H]].
      apply Z.eqb_eq in H. now apply (Hs s).
    - apply not_true_iff_false. intros H. apply existsb_exists in H as [n [Hin H]].
      apply eq_nullable_true in H. now apply (Hn n). }
  assert (H3 : delete_images_where_id id st2 = (inr tt, st3)).
  { unfold delete_images_where_id. simpl. rewrite Hfk, andb_false_r. reflexivity. }
  assert (H4 : deleteImage id st = (inr tt, st3)).
  { unfold deleteImage, bind. simpl. fold shares' st1. fold notes' st2. exact H3. }
  assert (H5 : getImage st3 id = None).
  { unfold getImage. apply first_row_filter_None.
    apply not_true_iff_false. intros H. apply existsb_exists in H as [i [Hin H]].
    apply Z.eqb_eq in H. now apply (Hi i). }
  exists st1, st2, st3.
  repeat split; try reflexivity; assumption.
Qed.

(** *** C4: sending a friend request *)

Lemma getFriendship_None (st : Store) (a b : Z) :
  getFriendship st a b = None <-> ~ friendship_exists st a b.
Proof.
  unfold getFriendship. rewrite first_row_filter_None.
  rewrite <- not_true_iff_false, existsb_exists.
  apply not_iff_compat. split.
  - intros [f [Hin H]]. exists f. split; [assumption|].
    apply orb_true_iff in H as [H | H];
      apply andb_true_iff in H as [H1 H2]; apply Z.eqb_eq in H1, H2; auto.
  - intros [f [Hin H]]. exists f. split; [assumption|].
    apply orb_true_iff.
    destruct H as [[H1 H2] | [H1 H2]]; [left | right];
      apply andb_true_iff; now rewrite !Z.eqb_eq.
Qed.

Lemma user_exists_references (st : Store) (id : Z) :
  user_exists st id -> references User.id (users st) id = true.
Proof. intros H. now apply references_true. Qed.

(** C4, as stated, fails in its last part: Ann sends a request to user
    99, who has no row in table [users].  The two ids differ and no
    friendship row links them, yet no row is created: the insert breaks
    the foreign key, and the handler answers 500 and leaves the store as
    it was. *)
Lemma friend_request_to_a_missing_user :
  User.id ann <> 99
  /\ ~ friendship_exists store_two_users (User.id ann) 99
  /\ post_api_friends_request 5 ann 99 store_two_users
     = (mkResponse 500 (JsonMessage "Failed to send friend request"),
        store_two_users).
Proof.
  split; [simpl; lia|]. split; [intros [f [[] _]] | reflexivity].
Qed.

(** C4, amended.  A friend request from [user] to [a] is answered 400 and
    leaves the store as it was when [a] is the requester or when a
    friendship row of any status links the two, in either direction.
    Otherwise, when both have a row in table [users], it is answered 201
    and exactly one friendship row is added, pending, from the requester
    to [a], with one notification for [a]; when one of them has no such
    row, it is answered 500 and the store is left as it was. *)
Theorem post_api_friends_request_spec (now : Z) (user : User.t) (a : Z) (st : Store) :
  (User.id user = a \/ friendship_exists st (User.id user) a ->
   statusCode (fst (post_api_friends_request now user a st)) = 400
   /\ snd (post_api_friends_request now user a st) = st)
  /\ (User.id user <> a -> ~ friendship_exists st (User.id user) a ->
      user_exists st (User.id user) -> user_exists st a ->
      exists f n,
        statusCode (fst (post_api_friends_request now user a st)) = 201
        /\ json (fst (post_api_friends_request now user a st)) = JsonFriend (Some f)
        /\ friends (snd (post_api_friends_request now user a st)) = friends st ++ [f]
        /\ Friend.status f = pending
        /\ Friend.requesterId f = User.id user
        /\ Friend.addresseeId f = a
        /\ notifications (snd (post_api_friends_request now user a st))
           = notifications st ++ [n]
        /\ Notification.userId n = a
        /\ Notification.type n = friend_request)
  /\ (User.id user <> a -> ~ friendship_exists st (User.id user) a ->
      ~ (user_exists st (User.id user) /\ user_exists st a) ->
      post_api_friends_request now user a st
      = (mkResponse 500 (JsonMessage "Failed to send friend request"), st)).
Proof.
  unfold post_api_friends_request, try_catch, bind, query, ret.
  split; [|split].
  - intros [Heq | Hex].
    + apply Z.eqb_eq in Heq. rewrite Heq. simpl. auto.
    + destruct (User.id user =? a); [simpl; auto|].
      destruct (getFriendship st (User.id user) a) eqn:Hg; [simpl; auto|].
      apply getFriendship_None in Hg. contradiction.
  - intros Hne Hnone Huser Ha.
    apply Z.eqb_neq in Hne. rewrite Hne.
    apply getFriendship_None in Hnone. rewrite Hnone.
    assert (Hr : references User.id (users st) (User.id user) = true)
      by now apply user_exists_references.
    assert (Hra : references User.id (users st) a = true)
      by now apply user_exists_references.
    unfold createFriend, createNotification. simpl.
    rewrite Hr, Hra. simpl. rewrite Hr, Hra. simpl.
    eexists. eexists. repeat split; reflexivity.
  - intros Hne Hnone Hmiss.
    apply Z.eqb_neq in Hne. rewrite Hne.
    apply getFriendship_None in Hnone. rewrite Hnone.
    assert (Hr : references User.id (users st) (User.id user)
                 && references User.id (users st) a = false).
    { apply not_true_iff_false. intros H.
      apply andb_true_iff in H as [H1 H2].
      apply references_true in H1, H2. now apply Hmiss. }
    unfold createFriend. simpl. rewrite Hr. reflexivity.
Qed.

Lemma post_api_friends_request_spec_witness :
  (statusCode (fst (post_api_friends_request 5 bob 1 store_accepted)) = 400
   /\ snd (post_api_friends_request 5 bob 1 store_accepted) = store_accepted)
  /\ (exists f n,
        statusCode (fst (post_api_friends_request 5 ann 2 store_two_users)) = 201
        /\ json (fst (post_api_friends_request 5 ann 2 store_two_users))
           = JsonFriend (Some f)
        /\ friends (snd (post_api_friends_request 5 ann 2 store_two_users))
           = friends store_two_users ++ [f]
        /\ Friend.status f = pending
        /\ Friend.requesterId f = User.id ann
        /\ Friend.addresseeId f = 2
        /\ notifications (snd (post_api_friends_request 5 ann 2 store_two_users))
           = notifications store_two_users ++ [n]
        /\ Notification.userId n = 2
        /\ Notification.type n = friend_request)
  /\ post_api_friends_request 5 bob 3 store_two_users
     = (mkResponse 500 (JsonMessage "Failed to send friend request"),
        store_two_users).
Proof.
  split; [|split].
  - apply (proj1 (post_api_friends_request_spec 5 bob 1 store_accepted)).
    right. exists (Friend.mk 1 1 2 accepted 0). simpl. auto.
  - apply (proj1 (proj2 (post_api_friends_request_spec 5 ann 2 store_two_users))).
    + simpl. lia.
    + intros [f [[] _]].
    + exists ann. simpl. auto.
    + exists bob. simpl. auto.
  - apply (proj2 (proj2 (post_api_friends_request_spec 5 bob 3 store_two_users))).
    + simpl. lia.
    + intros [f [[] _]].
    + intros [_ [u [[<- | [<- | []]] Hu]]]; simpl in Hu; lia.
Defined.

(** *** C2: answering a friend request *)

(** C2, as stated, fails: Bob declines Ann's request after it was
    accepted; the handler answers 200 and the row goes from accepted to
    declined. *)
Lemma accepted_request_is_updated_again :
  getFriendRequest store_accepted 1 = Some (Friend.mk 1 1 2 accepted 0)
  /\ statusCode (fst (put_api_friends_requests 9 bob 1 "declined" store_accepted)) = 200
  /\ getFriendRequest (snd (put_api_friends_requests 9 bob 1 "declined" store_accepted)) 1
     = Some (Friend.mk 1 1 2 declined 0).
Proof. repeat split; reflexivity. Qed.

(** C2, amended. The answer is written whenever the body names accepted
    or declined, the request exists and the caller is its addressee,
    whatever the status of the row at that moment: every row with the
    request id takes the answered status, which is never pending, and all
    other rows stay as they are; in every other case the friendship table
    is left untouched. *)
Theorem put_api_friends_requests_effect
        (now : Z) (user : User.t) (requestId : Z) (status : string) (st : Store) :
  friends (snd (put_api_friends_requests now user requestId status st))
  = match parse_answer status, getFriendRequest st requestId with
    | Some answer, Some request =>
        if Friend.addresseeId request =? User.id user
        then map (fun f => if Friend.id f =? requestId
                           then set_status f (status_of_answer answer) else f)
                 (friends st)
        else friends st
    | _, _ => friends st
    end
  /\ (forall answer, parse_answer status = Some answer ->
                     status_of_answer answer = accepted
                     \/ status_of_answer answer = declined).
Proof.
  split.
  - unfold put_api_friends_requests, try_catch, bind, query, ret.
    destruct (parse_answer status) as [answer|]; [|reflexivity].
    destruct (getFriendRequest st requestId) as [request|]; [|reflexivity].
    destruct (Friend.addresseeId request =? User.id user); [|reflexivity].
    simpl. unfold createNotification. simpl.
    match goal with |- context [if ?c then _ else _] => destruct c end;
      reflexivity.
  - intros [|] _; simpl; auto.
Qed.

(** *** C5: the loop over the members of a group *)

Section GroupShare.
Variables (now : Z) (user : User.t) (image : Image.t) (groupId : Z) (group : Group.t).

(** The loop body of [share_with_group]. *)
Let notify (member : User.t) : M unit :=
  if negb (User.id member =? User.id user)
  then
    bind (createNotification now
            (InsertNotification.mk (User.id member) image_share
               (User.username user ++ " shared an image in " ++ Group.name group)%string
               (Some (User.id user)) (Some groupId) (Some (Image.id image))))
         (fun _ => ret tt)
  else ret tt.

Let from_this_share (n : Notification.t) : Prop :=
  Notification.type n = image_share
  /\ Notification.groupId n = Some groupId
  /\ Notification.imageId n = Some (Image.id image)
  /\ Notification.senderId n = Some (User.id user).

Lemma notify_members (members : list User.t) :
  forall st,
    (forall m, In m members -> In m (users st)) ->
    In user (users st) ->
    references Group.id (groups st) groupId = true ->
    references Image.id (images st) (Image.id image) = true ->
    exists st' created,
      for_of members notify st = (inr tt, st')
      /\ notifications st' = notifications st ++ created
      /\ users st' = users st /\ groupMembers st' = groupMembers st
      /\ Forall from_this_share created
      /\ map Notification.userId created
         = map User.id
             (filter (fun m => negb (User.id m =? User.id user)) members).
Proof.
  induction members as [|m members IH]; intros st Hsub Huser Hg Hi.
  - exists st, []. simpl. rewrite app_nil_r. repeat split; constructor.
  - simpl. unfold bind at 1. unfold notify at 1.
    destruct (negb (User.id m =? User.id user)) eqn:Hm.
    + unfold bind at 1. unfold createNotification at 1. simpl.
      assert (Hrm : references User.id (users st) (User.id m) = true).
      { apply references_true. exists m. split; [apply Hsub; now left | reflexivity]. }
      assert (Hru : references User.id (users st) (User.id user) = true).
      { apply references_true. eauto. }
      rewrite Hrm, Hru, Hg, Hi. simpl.
      match goal with |- context [for_of members notify ?s] =>
        destruct (IH s) as [st' [created [Hrun [Hn [Hu [Hgm [Hall Hids]]]]]]];
          simpl; auto
      end.
      { intros x Hx. apply Hsub. now right. }
      eexists st', (_ :: created). rewrite Hrun. simpl in Hn, Hu, Hgm.
      split; [reflexivity|]. split; [rewrite Hn, <- app_assoc; reflexivity|].
      split; [assumption|]. split; [assumption|]. split.
      * constructor; [|assumption]. repeat split; reflexivity.
      * simpl. now rewrite Hids.
    + unfold ret at 1.
      destruct (IH st) as [st' [created H]]; auto.
      { intros x Hx. apply Hsub. now right. }
      exists st', created. exact H.
Qed.
End GroupShare.

Lemma getGroupMembers_In (st : Store) (groupId : Z) (u : User.t) :
  In u (getGroupMembers st groupId) <->
  In u (users st) /\ is_member st groupId (User.id u).
Proof.
  unfold getGroupMembers, is_member.
  set (ids := map GroupMember.userId _).
  assert (Hids : forall k, In k ids <->
            exists m, In m (groupMembers st)
                      /\ GroupMember.groupId m = groupId /\ GroupMember.userId m = k).
  { intros k. unfold ids. rewrite in_map_iff. split.
    - intros [m [Hk Hm]]. apply filter_In in Hm as [Hin Hg].
      apply Z.eqb_eq in Hg. eauto.
    - intros [m [Hin [Hg Hk]]]. exists m. split; [assumption|].
      apply filter_In. split; [assumption | now apply Z.eqb_eq]. }
  destruct (List.length ids =? 0)%nat eqn:E.
  - apply Nat.eqb_eq, length_zero_iff_nil in E. split; [intros []|].
    intros [_ H]. apply Hids in H. rewrite E in H. destruct H.
  - rewrite filter_In, inArray_In, Hids. reflexivity.
Qed.

Section PrimaryKey.
Context {Row : Type} (key : Row -> Z).

(** A [WHERE] clause keeps a primary key unique. *)
Lemma where_keeps_primary_key (cond : Row -> bool) (rows : list Row) :
  NoDup (map key rows) -> NoDup (map key (filter cond rows)).
Proof.
  intros Hkey. induction rows as [|r rows IH]; simpl; [constructor|].
  apply NoDup_cons_iff in Hkey as [Hfresh Hrest].
  destruct (cond r); simpl; [|now apply IH].
  apply NoDup_cons_iff. split; [|now apply IH].
  rewrite in_map_iff. intros [r' [Hk Hin]].
  apply filter_In in Hin as [Hin _].
  apply Hfresh. rewrite <- Hk. now apply in_map.
Qed.
End PrimaryKey.

Lemma count_absent (l : list Z) (x : Z) :
  ~ In x l -> List.length (filter (fun y => y =? x) l) = 0%nat.
Proof.
  intros H. rewrite filter_none; [reflexivity|].
  intros y Hy. apply Z.eqb_neq. intros ->. contradiction.
Qed.

Lemma count_NoDup (l : list Z) (x : Z) :
  NoDup l -> In x l -> List.length (filter (fun y => y =? x) l) = 1%nat.
Proof.
  induction l as [|y l IH]; simpl; intros H Hin; [destruct Hin|].
  inversion H as [|? ? Hy Hl]; subst.
  destruct (Z.eqb_spec y x) as [->|Hne]; simpl.
  - now rewrite count_absent.
  - apply IH; [assumption|]. destruct Hin; [contradiction | assumption].
Qed.

Lemma length_filter_others (l : list Z) (x : Z) :
  NoDup l -> In x l ->
  S (List.length (filter (fun y => negb (y =? x)) l)) = List.length l.
Proof.
  induction l as [|y l IH]; simpl; intros H Hin; [destruct Hin|].
  inversion H as [|? ? Hy Hl]; subst.
  destruct (Z.eqb_spec y x) as [->|Hne]; simpl.
  - f_equal. clear IH H Hin Hl. induction l as [|z l IH]; simpl; [reflexivity|].
    destruct (Z.eqb_spec z x) as [->|Hz]; simpl.
    + exfalso. apply Hy. now left.
    + f_equal. apply IH. intros Hx. apply Hy. now right.
  - f_equal. apply IH; [assumption|]. destruct Hin; [contradiction | assumption].
Qed.

Lemma notified_map (created : list Notification.t) (uid : Z) :
  notified created uid
  = List.length (filter (fun y => y =? uid) (map Notification.userId created)).
Proof.
  unfold notified. induction created as [|n l IH]; simpl; [reflexivity|].
  destruct (Notification.userId n =? uid); simpl; now rewrite IH.
Qed.

Lemma map_filter_ids (p : Z -> bool) (l : list User.t) :
  map User.id (filter (fun m => p (User.id m)) l) = filter p (map User.id l).
Proof.
  induction l as [|x l IH]; simpl; [reflexivity|].
  destruct (p (User.id x)); simpl; now rewrite IH.
Qed.

Lemma getGroup_exists (st : Store) (G : Z) :
  references Group.id (groups st) G = true -> exists g, getGroup st G = inr g.
Proof.
  unfold getGroup, references.
  induction (groups st) as [|g gs IH]; simpl; [discriminate|].
  destruct (Group.id g =? G); simpl; [eauto | exact IH].
Qed.


(** *** The calendar and the texts of [strftime] *)

Lemma yoe_range (doe : Z) : 0 <= doe <= 146096 -> 0 <= yoe_of_doe doe <= 399.
Proof. intros H. unfold yoe_of_doe. Z.div_mod_to_equations. lia. Qed.

Lemma doy_range (doe : Z) :
  0 <= doe <= 146096 ->
  let yoe := yoe_of_doe doe in
  0 <= doe - (365 * yoe + yoe / 4 - yoe / 100) <= 365.
Proof. intros H. unfold yoe_of_doe. Z.div_mod_to_equations. lia. Qed.

Lemma doe_facts (doe : Z) :
  0 <= doe <= 146096 ->
  0 <= yoe_of_doe doe <= 399
  /\ 1 <= month_of_doe doe <= 12
  /\ (doe <= 146036 ->
      yoe_of_doe doe + (if month_of_doe doe <=? 2 then 1 else 0) <= 399).
Proof.
  intros H.
  pose proof (yoe_range doe H) as Hy.
  pose proof (doy_range doe H) as Hd. cbv zeta in Hd.
  unfold month_of_doe. cbv zeta.
  set (yoe := yoe_of_doe doe) in *.
  set (doy := doe - (365 * yoe + yoe / 4 - yoe / 100)) in *.
  assert (Hlast : doe <= 146036 -> yoe = 399 -> doy <= 305).
  { unfold doy, yoe, yoe_of_doe. intros. Z.div_mod_to_equations. lia. }
  assert (Hmp : 0 <= (5 * doy + 2) / 153 <= 11)
    by (Z.div_mod_to_equations; lia).
  assert (Hmp' : doy <= 305 -> (5 * doy + 2) / 153 <= 9)
    by (intros; Z.div_mod_to_equations; lia).
  split; [assumption|]. split.
  - destruct ((5 * doy + 2) / 153 <? 10) eqn:E; lia.
  - intros Hle. destruct ((5 * doy + 2) / 153 <? 10) eqn:E.
    + destruct ((5 * doy + 2) / 153 + 3 <=? 2) eqn:E2; lia.
    + destruct ((5 * doy + 2) / 153 - 9 <=? 2) eqn:E2; [|lia].
      destruct (Z.eq_dec yoe 399) as [e|]; [|lia].
      specialize (Hlast Hle e). specialize (Hmp' Hlast). lia.
Qed.

Lemma civil_year_month_range (z : Z) :
  0 <= z <= 2932896 ->
  0 <= fst (civil_year_month z) <= 9999 /\ 1 <= snd (civil_year_month z) <= 12.
Proof.
  intros Hz. unfold civil_year_month. cbv zeta.
  set (z' := z + 719468).
  set (era := z' / 146097).
  set (doe := z' - era * 146097).
  assert (Hdm : z' = 146097 * era + z' mod 146097) by apply Z_div_mod_eq_full.
  assert (Hm : 0 <= z' mod 146097 < 146097) by (apply Z.mod_pos_bound; lia).
  assert (Hdoe : 0 <= doe <= 146096) by (unfold doe; lia).
  destruct (doe_facts doe Hdoe) as [Hy [Hmo Hlast]].
  assert (Hera : 4 <= era <= 24) by (unfold z' in *; lia).
  simpl fst. simpl snd. split; [|assumption].
  destruct (month_of_doe doe <=? 2) eqn:E.
  - destruct (Z.eq_dec era 24) as [E24|].
    + assert (doe <= 146036) by (unfold doe, z' in *; lia).
      specialize (Hlast H). lia.
    + lia.
  - destruct (Z.eq_dec era 24) as [E24|]; lia.
Qed.

Lemma yoe_of_doe_inverse (yoe doy : Z) :
  0 <= yoe <= 399 -> 0 <= doy <= 364 ->
  yoe_of_doe (yoe * 365 + yoe / 4 - yoe / 100 + doy) = yoe.
Proof.
  intros Hy Hd. unfold yoe_of_doe.
  Z.div_mod_to_equations. lia.
Qed.


Lemma civil_year_month_of_era (era yoe doy : Z) :
  0 <= yoe <= 399 -> 0 <= doy <= 364 ->
  civil_year_month (era * 146097 + (yoe * 365 + yoe / 4 - yoe / 100 + doy) - 719468)
  = let mp := (5 * doy + 2) / 153 in
    let m := if mp <? 10 then mp + 3 else mp - 9 in
    (if m <=? 2 then yoe + era * 400 + 1 else yoe + era * 400, m).
Proof.
  intros Hy Hd. unfold civil_year_month. cbv zeta.
  set (doe := yoe * 365 + yoe / 4 - yoe / 100 + doy).
  assert (Hdoe : 0 <= doe <= 146096) by (unfold doe; Z.div_mod_to_equations; lia).
  replace (era * 146097 + doe - 719468 + 719468) with (doe + era * 146097) by lia.
  rewrite Z.div_add, (Z.div_small doe), Z.add_0_l by lia.
  replace (doe + era * 146097 - era * 146097) with doe by lia.
  assert (Ey : yoe_of_doe doe = yoe) by now apply yoe_of_doe_inverse.
  unfold month_of_doe. cbv zeta. rewrite Ey.
  replace (doe - (365 * yoe + yoe / 4 - yoe / 100)) with doy by (unfold doe; lia).
  reflexivity.
Qed.

(** The two readings of the calendar agree: the first day of month [m] of
    year [y] falls in month [m] of year [y]. *)
Lemma civil_year_month_first_day (y m : Z) :
  1 <= m <= 12 -> civil_year_month (days_from_civil y m 1) = (y, m).
Proof.
  intros Hm. unfold days_from_civil. cbv zeta.
  set (y' := if m <=? 2 then y - 1 else y).
  set (mp := if 2 <? m then m - 3 else m + 9).
  assert (Hmp : 0 <= mp <= 11) by (unfold mp; destruct (2 <? m) eqn:E; lia).
  assert (Hyoe : 0 <= y' - y' / 400 * 400 <= 399) by (Z.div_mod_to_equations; lia).
  replace ((153 * mp + 2) / 5 + 1 - 1) with ((153 * mp + 2) / 5) by lia.
  assert (Hdoy : 0 <= (153 * mp + 2) / 5 <= 364) by (Z.div_mod_to_equations; lia).
  rewrite civil_year_month_of_era by assumption. cbv zeta.
  assert (Emp : (5 * ((153 * mp + 2) / 5) + 2) / 153 = mp)
    by (Z.div_mod_to_equations; lia).
  rewrite Emp.
  replace (y' - y' / 400 * 400 + y' / 400 * 400) with y' by lia.
  unfold mp, y'.
  destruct (Z.ltb_spec 2 m); destruct (Z.leb_spec m 2); try lia.
  - destruct (Z.ltb_spec (m - 3) 10); try lia.
    destruct (Z.leb_spec (m - 3 + 3) 2); try lia. f_equal; lia.
  - destruct (Z.ltb_spec (m + 9) 10); try lia.
    destruct (Z.leb_spec (m + 9 - 9) 2); try lia. f_equal; lia.
Qed.

Lemma digit_code (d : Z) :
  0 <= d <= 9 -> N_of_ascii (digit d) = Z.to_N (48 + d).
Proof.
  intros H. unfold digit. apply N_ascii_embedding.
  apply N2Z.inj_lt. rewrite Z2N.id; lia.
Qed.

Lemma digit_value_digit (d : Z) : 0 <= d <= 9 -> digit_value (digit d) = Some d.
Proof.
  intros H. unfold digit_value. rewrite (digit_code d H).
  rewrite Z2N.id by lia.
  replace (48 <=? 48 + d) with true by (symmetry; apply Z.leb_le; lia).
  replace (48 + d <=? 57) with true by (symmetry; apply Z.leb_le; lia).
  cbn [andb]. f_equal. lia.
Qed.

Lemma digit_compare (a b : Z) :
  0 <= a <= 9 -> 0 <= b <= 9 -> Ascii.compare (digit a) (digit b) = (a ?= b).
Proof.
  intros Ha Hb. unfold Ascii.compare. rewrite !digit_code by assumption.
  rewrite Z2N.inj_compare by lia. apply Z.add_compare_mono_l.
Qed.

Lemma digit_not_sign (d : Z) (c : ascii) :
  0 <= d <= 9 -> (N_of_ascii c < 48)%N -> (digit d =? c)%char = false.
Proof.
  intros H Hc. apply Ascii.eqb_neq. intros Heq.
  apply (f_equal N_of_ascii) in Heq. rewrite (digit_code d H) in Heq.
  rewrite <- Heq in Hc. apply N2Z.inj_lt in Hc. rewrite Z2N.id in Hc; lia.
Qed.

Lemma decimal_digits (n : Z) :
  0 <= n <= 9999 ->
  n = 1000 * (n / 1000 mod 10) + 100 * (n / 100 mod 10)
      + 10 * (n / 10 mod 10) + n mod 10.
Proof. intros H. Z.div_mod_to_equations. lia. Qed.

Lemma decimal_digits2 (n : Z) :
  0 <= n <= 99 -> n = 10 * (n / 10 mod 10) + n mod 10.
Proof. intros H. Z.div_mod_to_equations. lia. Qed.

Lemma digit_range (n k : Z) : 0 <= n / k mod 10 <= 9.
Proof. pose proof (Z.mod_pos_bound (n / k) 10). lia. Qed.

Lemma digit_range0 (n : Z) : 0 <= n mod 10 <= 9.
Proof. pose proof (Z.mod_pos_bound n 10). lia. Qed.

Lemma parseInt_pad4 (n : Z) : 0 <= n <= 9999 -> parseInt (pad4 n) = Some n.
Proof.
  intros H. unfold pad4, pad2, parseInt.
  rewrite !digit_not_sign by (try apply digit_range; reflexivity).
  cbn [parse_digits].
  rewrite !digit_value_digit by (try apply digit_range; apply digit_range0).
  cbn iota. f_equal. rewrite (decimal_digits n H) at 5. lia.
Qed.

Lemma parseInt_pad2 (n : Z) : 0 <= n <= 99 -> parseInt (pad2 n) = Some n.
Proof.
  intros H. unfold pad2, parseInt.
  rewrite !digit_not_sign by (try apply digit_range; reflexivity).
  cbn [parse_digits].
  rewrite !digit_value_digit by (try apply digit_range; apply digit_range0).
  cbn iota. f_equal. rewrite (decimal_digits2 n H) at 3. lia.
Qed.

Lemma year_month_text_compare (y m y' m' : Z) :
  0 <= y <= 9999 -> 0 <= y' <= 9999 -> 0 <= m <= 99 -> 0 <= m' <= 99 ->
  String.compare (pad4 y ++ "-" ++ pad2 m) (pad4 y' ++ "-" ++ pad2 m')
  = ym_compare (y, m) (y', m').
Proof.
  intros Hy Hy' Hm Hm'. unfold pad4, pad2.
  cbn [String.append String.compare].
  rewrite !digit_compare by (try apply digit_range; apply digit_range0).
  change (Ascii.compare "-" "-") with Eq. cbn iota.
  unfold ym_compare. cbn [fst snd].
  pose proof (decimal_digits y Hy) as Ey.
  pose proof (decimal_digits y' Hy') as Ey'.
  pose proof (decimal_digits2 m Hm) as Em.
  pose proof (decimal_digits2 m' Hm') as Em'.
  pose proof (digit_range y 1000). pose proof (digit_range y 100).
  pose proof (digit_range y 10). pose proof (digit_range0 y).
  pose proof (digit_range y' 1000). pose proof (digit_range y' 100).
  pose proof (digit_range y' 10). pose proof (digit_range0 y').
  pose proof (digit_range m 10). pose proof (digit_range0 m).
  pose proof (digit_range m' 10). pose proof (digit_range0 m').
  set (a3 := y / 1000 mod 10) in *. set (a2 := y / 100 mod 10) in *.
  set (a1 := y / 10 mod 10) in *. set (a0 := y mod 10) in *.
  set (b3 := y' / 1000 mod 10) in *. set (b2 := y' / 100 mod 10) in *.
  set (b1 := y' / 10 mod 10) in *. set (b0 := y' mod 10) in *.
  set (c1 := m / 10 mod 10) in *. set (c0 := m mod 10) in *.
  set (e1 := m' / 10 mod 10) in *. set (e0 := m' mod 10) in *.
  clearbody a3 a2 a1 a0 b3 b2 b1 b0 c1 c0 e1 e0.
  repeat (match goal with
          | |- context [?a ?= ?b] => destruct (Z.compare_spec a b)
          end; cbn iota);
    first [reflexivity | exfalso; lia].
Qed.

(** *** [ORDER BY] and [GROUP BY] *)

Section OrderByFacts.
Context {A : Type} (le : A -> A -> bool).
Hypothesis le_total : forall a b, le a b = true \/ le b a = true.

Lemma insert_row_perm (x : A) (rows : list A) :
  Permutation (insert_row le x rows) (x :: rows).
Proof.
  induction rows as [|y rows IH]; simpl; [reflexivity|].
  destruct (le x y); [reflexivity|].
  rewrite IH. apply perm_swap.
Qed.

Lemma order_by_perm (rows : list A) : Permutation (order_by le rows) rows.
Proof.
  induction rows as [|x rows IH]; simpl; [reflexivity|].
  rewrite insert_row_perm. now constructor.
Qed.

Lemma insert_row_sorted (x : A) (rows : list A) :
  Sorted (fun a b => le a b = true) rows ->
  Sorted (fun a b => le a b = true) (insert_row le x rows).
Proof.
  induction rows as [|y rows IH]; simpl; intros Hs.
  - repeat constructor.
  - destruct (le x y) eqn:Hxy.
    + constructor; [assumption | now constructor].
    + inversion Hs as [|? ? Hrest Hhd]; subst.
      constructor; [now apply IH|].
      assert (Hyx : le y x = true).
      { destruct (le_total x y) as [H | H]; [congruence | assumption]. }
      destruct rows as [|z rows]; simpl.
      * now constructor.
      * destruct (le x z); constructor; [assumption|].
        now inversion Hhd.
Qed.

Lemma order_by_sorted (rows : list A) :
  Sorted (fun a b => le a b = true) (order_by le rows).
Proof.
  induction rows as [|x rows IH]; simpl; [constructor|].
  now apply insert_row_sorted.
Qed.
End OrderByFacts.

Lemma order_by_desc_perm {A : Type} (col : A -> Z) (rows : list A) :
  Permutation (order_by_desc col rows) rows.
Proof. apply order_by_perm. Qed.

Lemma order_by_desc_sorted {A : Type} (col : A -> Z) (rows : list A) :
  StronglySorted (fun a b => col b <= col a) (order_by_desc col rows).
Proof.
  apply Sorted_StronglySorted.
  - intros a b c Hab Hbc. lia.
  - assert (H : Sorted (fun a b => (col b <=? col a) = true)
                       (order_by_desc col rows)).
    { apply order_by_sorted. intros a b.
      destruct (Z.leb_spec (col b) (col a)); [now left | right].
      apply Z.leb_le. lia. }
    induction H as [|a l Hs IH Hhd]; constructor; [assumption|].
    destruct Hhd; constructor. now apply Z.leb_le.
Qed.

Lemma Sorted_map_in {A B : Type} (R : A -> A -> Prop) (R' : B -> B -> Prop)
      (f : A -> B) (l : list A) :
  (forall a b, In a l -> In b l -> R a b -> R' (f a) (f b)) ->
  Sorted R l -> Sorted R' (map f l).
Proof.
  intros Hf Hs. induction Hs as [|a l Hs IH Hhd]; simpl; constructor.
  - apply IH. intros x y Hx Hy. apply Hf; now right.
  - destruct Hhd as [|b l' Hab]; simpl; constructor.
    apply Hf; [now left | right; now left | assumption].
Qed.

Lemma StronglySorted_strict {A : Type} (R : A -> A -> Prop) (l : list A) :
  StronglySorted R l -> NoDup l ->
  StronglySorted (fun a b => R a b /\ a <> b) l.
Proof.
  intros Hs. induction Hs as [|a l Hs IH Hall]; intros Hnd; constructor.
  - apply IH. now inversion Hnd.
  - inversion Hnd as [|? ? Hnotin _]; subst.
    rewrite Forall_forall in *. intros b Hb. split; [now apply Hall|].
    intros ->. contradiction.
Qed.

Lemma StronglySorted_weaken {A : Type} (R R' : A -> A -> Prop) (l : list A) :
  (forall a b, R a b -> R' a b) -> StronglySorted R l -> StronglySorted R' l.
Proof.
  intros HR Hs. induction Hs as [|a l Hs IH Hall]; constructor; [assumption|].
  rewrite Forall_forall in *. auto.
Qed.

Lemma NoDup_map_transfer {A B C : Type} (f : A -> B) (g : A -> C) (l : list A) :
  (forall a b, In a l -> In b l -> g a = g b -> f a = f b) ->
  NoDup (map f l) -> NoDup (map g l).
Proof.
  induction l as [|x l IH]; simpl; intros Hfg Hnd; [constructor|].
  inversion Hnd as [|? ? Hx Hl]; subst. constructor.
  - intros Hin. apply Hx. apply in_map_iff in Hin as [y [Hy Hin]].
    apply in_map_iff. exists y. split; [|assumption].
    symmetry. apply Hfg; [now left | now right | now symmetry].
  - apply IH; [|assumption]. intros a b Ha Hb. apply Hfg; now right.
Qed.

Lemma string_compare_refl (s : string) : String.compare s s = Eq.
Proof.
  pose proof (String.compare_antisym s s) as H.
  destruct (String.compare s s); simpl in H; congruence.
Qed.

Lemma sql_text_eqb_eq (a b : option string) : sql_text_eqb a b = true <-> a = b.
Proof.
  unfold sql_text_eqb, sql_text_compare.
  destruct a as [x|], b as [y|]; try (split; [discriminate | congruence]);
    [|tauto].
  split.
  - destruct (String.compare x y) eqn:E; try discriminate.
    intros _. f_equal. now apply String.compare_eq_iff.
  - intros [= ->]. now rewrite string_compare_refl.
Qed.

Lemma sql_text_leb_total (a b : option string) :
  sql_text_leb a b = true \/ sql_text_leb b a = true.
Proof.
  unfold sql_text_leb, sql_text_compare.
  destruct a as [x|], b as [y|]; auto.
  rewrite (String.compare_antisym y x).
  destruct (String.compare x y); simpl; auto.
Qed.

Lemma seen_In (k : option string) (seen : list (option string)) :
  existsb (sql_text_eqb k) seen = true <-> In k seen.
Proof.
  rewrite existsb_exists. split.
  - intros [x [Hin Hx]]. apply sql_text_eqb_eq in Hx. now subst.
  - intros Hin. exists k. split; [assumption | now apply sql_text_eqb_eq].
Qed.

Section GroupByFacts.
Context {A : Type} (key : A -> option string).

Lemma group_by_from_In (rows : list A) :
  forall seen r, In r (group_by_from key seen rows) ->
                 In r rows /\ ~ In (key r) seen.
Proof.
  induction rows as [|x rows IH]; simpl; intros seen r Hin; [destruct Hin|].
  destruct (existsb (sql_text_eqb (key x)) seen) eqn:E.
  - apply IH in Hin as [H1 H2]. auto.
  - destruct Hin as [<- | Hin].
    + split; [now left|]. rewrite <- seen_In. congruence.
    + apply IH in Hin as [H1 H2]. split; [now right|].
      intros H. apply H2. now right.
Qed.

Lemma group_by_from_keys (rows : list A) :
  forall seen r, In r rows -> ~ In (key r) seen ->
                 In (key r) (map key (group_by_from key seen rows)).
Proof.
  induction rows as [|x rows IH]; simpl; intros seen r Hin Hout; [destruct Hin|].
  destruct (existsb (sql_text_eqb (key x)) seen) eqn:E.
  - destruct Hin as [-> | Hin]; [|now apply IH].
    apply seen_In in E. contradiction.
  - simpl. destruct Hin as [-> | Hin]; [now left|].
    destruct (sql_text_eqb (key x) (key r)) eqn:Ek.
    + apply sql_text_eqb_eq in Ek. now left.
    + right. apply IH; [assumption|].
      intros [H | H]; [|contradiction].
      apply sql_text_eqb_eq in H. congruence.
Qed.

Lemma group_by_from_NoDup (rows : list A) :
  forall seen, NoDup (map key (group_by_from key seen rows)).
Proof.
  induction rows as [|x rows IH]; simpl; intros seen; [constructor|].
  destruct (existsb (sql_text_eqb (key x)) seen) eqn:E; [apply IH|].
  simpl. constructor; [|apply IH].
  intros Hin. apply in_map_iff in Hin as [r [Hr Hin]].
  apply group_by_from_In in Hin as [_ Hout]. apply Hout. left. now symmetry.
Qed.
End GroupByFacts.

(** *** The months of a user's images *)

Lemma uploaded_in_window (i : Image.t) :
  valid_timestamp (Image.uploadedAt i) ->
  uploaded_datetime i = Some (Image.uploadedAt i / 1000)
  /\ Image.uploadedAt i / 1000 / 86400 = Image.uploadedAt i / 86400000
  /\ 0 <= fst (civil_year_month (Image.uploadedAt i / 86400000)) <= 9999
  /\ 1 <= snd (civil_year_month (Image.uploadedAt i / 86400000)) <= 12.
Proof.
  unfold valid_timestamp. intros H.
  assert (Hq : sql_div (Image.uploadedAt i) 1000 = Image.uploadedAt i / 1000).
  { unfold sql_div. apply Z.quot_div_nonneg; lia. }
  assert (Hs : 0 <= Image.uploadedAt i / 1000 <= datetime_max).
  { unfold datetime_max. Z.div_mod_to_equations. lia. }
  split; [|split].
  - unfold uploaded_datetime, datetime_unixepoch. rewrite Hq.
    replace (datetime_min <=? Image.uploadedAt i / 1000) with true
      by (symmetry; apply Z.leb_le; unfold datetime_min; lia).
    replace (Image.uploadedAt i / 1000 <=? datetime_max) with true
      by (symmetry; apply Z.leb_le; lia).
    reflexivity.
  - Z.div_mod_to_equations. lia.
  - apply civil_year_month_range. Z.div_mod_to_equations. lia.
Qed.

Lemma year_month_key_valid (i : Image.t) :
  valid_timestamp (Image.uploadedAt i) ->
  year_month_key i
  = Some (pad4 (fst (civil_year_month (Image.uploadedAt i / 86400000)))
          ++ "-" ++ pad2 (snd (civil_year_month (Image.uploadedAt i / 86400000))))%string.
Proof.
  intros H. destruct (uploaded_in_window i H) as [Hd [Hdiv _]].
  unfold year_month_key. rewrite Hd. simpl. now rewrite Hdiv.
Qed.

Lemma year_month_key_compare (a b : Image.t) :
  valid_timestamp (Image.uploadedAt a) -> valid_timestamp (Image.uploadedAt b) ->
  sql_text_compare (year_month_key a) (year_month_key b)
  = ym_compare (utc_year_month (Image.uploadedAt a))
               (utc_year_month (Image.uploadedAt b)).
Proof.
  intros Ha Hb.
  rewrite (year_month_key_valid a Ha), (year_month_key_valid b Hb).
  destruct (uploaded_in_window a Ha) as [_ [_ [Hya Hma]]].
  destruct (uploaded_in_window b Hb) as [_ [_ [Hyb Hmb]]].
  unfold sql_text_compare.
  rewrite year_month_text_compare by lia.
  unfold ym_compare, utc_year_month. cbn [fst snd].
  destruct (fst _ ?= fst _); try reflexivity.
  match goal with
  | |- (?a ?= ?b) = (?c ?= ?d) =>
      destruct (Z.compare_spec a b), (Z.compare_spec c d); try reflexivity; lia
  end.
Qed.

Lemma ym_compare_Eq (p q : Z * Z) : ym_compare p q = Eq <-> p = q.
Proof.
  unfold ym_compare. destruct p as [y m], q as [y' m']. cbn [fst snd].
  destruct (Z.compare_spec y y'); split; try discriminate;
    try (intros [= -> ->]; lia).
  - intros H'. apply Z.compare_eq in H'. congruence.
  - intros [= _ ->]. apply Z.compare_refl.
Qed.

Lemma year_month_key_eq (a b : Image.t) :
  valid_timestamp (Image.uploadedAt a) -> valid_timestamp (Image.uploadedAt b) ->
  (year_month_key a = year_month_key b
   <-> utc_year_month (Image.uploadedAt a) = utc_year_month (Image.uploadedAt b)).
Proof.
  intros Ha Hb.
  rewrite <- sql_text_eqb_eq, <- ym_compare_Eq.
  unfold sql_text_eqb. rewrite (year_month_key_compare a b Ha Hb).
  destruct (ym_compare _ _); split; congruence.
Qed.

Lemma year_month_result (i : Image.t) :
  valid_timestamp (Image.uploadedAt i) ->
  YearMonth.mk (parseInt_column (strftime_Y (uploaded_datetime i)))
               (js_minus (parseInt_column (strftime_m (uploaded_datetime i))) 1)
  = js_year_month (utc_year_month (Image.uploadedAt i)).
Proof.
  intros H. destruct (uploaded_in_window i H) as [Hd [Hdiv [Hy Hm]]].
  rewrite Hd. unfold strftime_Y, strftime_m, parseInt_column, option_map.
  rewrite Hdiv, parseInt_pad4, parseInt_pad2 by lia.
  reflexivity.
Qed.

(** What [getUserImageDates] computes.  The query reads the stored
    integer as milliseconds ([uploadedAt / 1000] seconds since the epoch):
    over integers that so read lie between the epoch and the end of year
    9999, it returns the (year, month) pairs, month counted from
    January = 0, of the months so read in which the user has a row, each
    pair once, in strictly descending order of (year, month). *)
Lemma getUserImageDates_of_stored (st : Store) (u : Z) :
  (forall i, In i (images st) -> Image.userId i = u ->
             valid_timestamp (Image.uploadedAt i)) ->
  exists pairs : list (Z * Z),
    getUserImageDates st u = map js_year_month pairs
    /\ (forall p, In p pairs <->
                  exists i, In i (images st) /\ Image.userId i = u
                            /\ utc_year_month (Image.uploadedAt i) = p)
    /\ NoDup pairs
    /\ StronglySorted (fun p q => ym_lt q p) pairs
    /\ Forall (fun p => 0 <= snd p <= 11) pairs.
Proof.
  intros Hvalid.
  unfold getUserImageDates. cbv zeta.
  fold year_month_key.
  set (rows := filter (fun i => Image.userId i =? u) (images st)).
  set (groups := group_by year_month_key rows).
  set (sorted := order_by_desc_text year_month_key groups).
  assert (Hrows : forall i, In i rows <-> In i (images st) /\ Image.userId i = u).
  { intros i. unfold rows. now rewrite filter_In, Z.eqb_eq. }
  assert (Hperm : Permutation sorted groups) by apply order_by_perm.
  assert (Hsub : forall i, In i sorted -> In i rows).
  { intros i Hi. apply (Permutation_in _ Hperm) in Hi.
    now apply group_by_from_In in Hi as [Hi _]. }
  assert (Hok : forall i, In i sorted -> valid_timestamp (Image.uploadedAt i)).
  { intros i Hi. apply Hsub, Hrows in Hi as [Hi Hu]. now apply Hvalid. }
  exists (map (fun i => utc_year_month (Image.uploadedAt i)) sorted).
  split; [|split; [|split; [|split]]].
  - rewrite map_map. apply map_ext_in. intros i Hi.
    apply year_month_result. now apply Hok.
  - intros p. rewrite in_map_iff. split.
    + intros [i [Hp Hi]]. exists i. apply Hsub, Hrows in Hi as [Hi Hu]. auto.
    + intros [i [Hi [Hu Hp]]].
      assert (Hir : In i rows) by now apply Hrows.
      assert (Hk : In (year_month_key i) (map year_month_key groups)).
      { apply group_by_from_keys; [assumption | intros []]. }
      apply in_map_iff in Hk as [j [Hjk Hj]].
      apply (Permutation_in _ (Permutation_sym Hperm)) in Hj.
      exists j. split; [|assumption].
      rewrite <- Hp. apply year_month_key_eq; auto.
  - apply NoDup_map_transfer with (f := year_month_key).
    + intros a b Ha Hb. apply year_month_key_eq; auto.
    + apply (Permutation_NoDup (l := map year_month_key groups)).
      * apply Permutation_map. now symmetry.
      * apply group_by_from_NoDup.
  - apply StronglySorted_weaken
      with (R := fun p q => ym_compare q p <> Gt /\ p <> q).
    { intros p q [Hle Hne]. unfold ym_lt, ym_compare in *.
      destruct p as [y m], q as [y' m']. cbn [fst snd] in *.
      destruct (Z.compare_spec y' y); [|lia|congruence].
      destruct (Z.compare_spec m' m); [|lia|congruence].
      subst. congruence. }
    apply StronglySorted_strict.
    + apply Sorted_StronglySorted.
      * intros p q r Hpq Hqr. unfold ym_compare in *.
        destruct p as [y m], q as [y' m'], r as [y'' m'']. cbn [fst snd] in *.
        destruct (Z.compare_spec y' y); try congruence;
          destruct (Z.compare_spec y'' y'); try congruence;
          destruct (Z.compare_spec y'' y); try lia; try congruence.
        destruct (Z.compare_spec m' m); try congruence;
          destruct (Z.compare_spec m'' m'); try congruence;
          destruct (Z.compare_spec m'' m); try lia; congruence.
      * apply Sorted_map_in
          with (R := fun a b => sql_text_leb (year_month_key b) (year_month_key a) = true).
        -- intros a b Ha Hb Hle. unfold sql_text_leb in Hle.
           rewrite year_month_key_compare in Hle by auto.
           destruct (ym_compare _ _); congruence.
        -- apply (order_by_sorted
                    (fun a b => sql_text_leb (year_month_key b) (year_month_key a))).
           intros a b. apply sql_text_leb_total.
    + apply NoDup_map_transfer with (f := year_month_key).
      * intros a b Ha Hb. apply year_month_key_eq; auto.
      * apply (Permutation_NoDup (l := map year_month_key groups)).
        -- apply Permutation_map. now symmetry.
        -- apply group_by_from_NoDup.
  - apply Forall_forall. intros p Hp.
    apply in_map_iff in Hp as [i [<- Hi]].
    destruct (uploaded_in_window i (Hok i Hi)) as [_ [_ [_ Hm]]].
    unfold utc_year_month. cbn [snd]. lia.
Qed.

Lemma getUserImageDates_of_stored_witness :
  exists pairs : list (Z * Z),
    getUserImageDates store_dates 1 = map js_year_month pairs
    /\ (forall p, In p pairs <->
                  exists i, In i (images store_dates) /\ Image.userId i = 1
                            /\ utc_year_month (Image.uploadedAt i) = p)
    /\ NoDup pairs
    /\ StronglySorted (fun p q => ym_lt q p) pairs
    /\ Forall (fun p => 0 <= snd p <= 11) pairs.
Proof.
  apply (getUserImageDates_of_stored store_dates 1).
  intros i Hi _. simpl in Hi. unfold valid_timestamp.
  destruct Hi as [<- | [<- | [<- | [<- | [<- | []]]]]]; simpl; lia.
Defined.

Example getUserImageDates_store_dates :
  getUserImageDates store_dates 1
  = [YearMonth.mk (Some 2024) (Some 1); YearMonth.mk (Some 2024) (Some 0);
     YearMonth.mk (Some 2023) (Some 11)].
Proof. vm_compute. reflexivity. Qed.

(** *** The images of a month *)

Lemma days_from_civil_range (y mo : Z) :
  1970 <= y <= 9999 -> 1 <= mo <= 12 ->
  0 <= days_from_civil y mo 1 <= 2932866.
Proof.
  intros Hy Hm. unfold days_from_civil. cbv zeta.
  destruct (mo <=? 2) eqn:E1; destruct (2 <? mo) eqn:E2; try lia;
    Z.div_mod_to_equations; lia.
Qed.

Lemma MakeDay_first (y m : Z) :
  0 <= m <= 11 -> MakeDay y m 1 = days_from_civil y (m + 1) 1.
Proof.
  intros H. unfold MakeDay. cbv zeta.
  rewrite Z.div_small, Z.mod_small by lia.
  rewrite !Z.add_0_r. lia.
Qed.

Lemma MakeDay_last (y m : Z) :
  0 <= m <= 11 ->
  MakeDay y (m + 1) 0
  = days_from_civil (fst (next_month y m)) (snd (next_month y m) + 1) 1 - 1.
Proof.
  intros H. unfold MakeDay, next_month. cbv zeta.
  destruct (Z.eqb_spec m 11) as [->|Hne]; cbn [fst snd].
  - replace ((11 + 1) / 12) with 1 by reflexivity.
    replace ((11 + 1) mod 12) with 0 by reflexivity. lia.
  - rewrite Z.div_small, Z.mod_small by lia.
    rewrite !Z.add_0_r. reflexivity.
Qed.

Lemma next_month_range (y m : Z) :
  1970 <= y <= 9998 -> 0 <= m <= 11 ->
  1970 <= fst (next_month y m) <= 9999 /\ 0 <= snd (next_month y m) <= 11.
Proof.
  intros Hy Hm. unfold next_month.
  destruct (Z.eqb_spec m 11); cbn [fst snd]; lia.
Qed.

Lemma month_first_instant_seconds (tz y m : Z) :
  month_first_instant tz y m
  = 1000 * (days_from_civil y (m + 1) 1 * 86400 + tz * 60).
Proof. unfold month_first_instant. lia. Qed.

Lemma Date_getTime_month_start (tz y m : Z) :
  1970 <= y <= 9999 -> 0 <= m <= 11 -> -1440 <= tz <= 1440 ->
  Date_getTime tz y m 1 0 0 0 0 = Some (month_first_instant tz y m).
Proof.
  intros Hy Hm Htz. unfold Date_getTime.
  assert (HY : MakeFullYear y = y).
  { unfold MakeFullYear. destruct ((0 <=? y) && (y <=? 99)) eqn:E; [lia | reflexivity]. }
  rewrite HY, MakeDay_first by assumption.
  pose proof (days_from_civil_range y (m + 1) Hy ltac:(lia)) as HD.
  unfold month_first_instant, MakeDate, MakeTime, UTC, TimeClip.
  set (D := days_from_civil y (m + 1) 1) in *.
  replace (D * 86400000 + (0 * 3600000 + 0 * 60000 + 0 * 1000 + 0) + tz * 60000)
    with (D * 86400000 + tz * 60000) by lia.
  replace (Z.abs (D * 86400000 + tz * 60000) <=? 8640000000000000) with true
    by (symmetry; apply Z.leb_le; lia).
  reflexivity.
Qed.

Lemma Date_getTime_month_end (tz y m : Z) :
  1970 <= y <= 9998 -> 0 <= m <= 11 -> -1440 <= tz <= 1440 ->
  Date_getTime tz y (m + 1) 0 23 59 59 999
  = Some (month_first_instant tz (fst (next_month y m)) (snd (next_month y m)) - 1).
Proof.
  intros Hy Hm Htz. unfold Date_getTime.
  assert (HY : MakeFullYear y = y).
  { unfold MakeFullYear. destruct ((0 <=? y) && (y <=? 99)) eqn:E; [lia | reflexivity]. }
  rewrite HY, MakeDay_last by assumption.
  destruct (next_month_range y m Hy Hm) as [Hyn Hmn].
  pose proof (days_from_civil_range _ (snd (next_month y m) + 1) Hyn ltac:(lia)) as HD.
  unfold month_first_instant, MakeDate, MakeTime, UTC, TimeClip.
  set (D := days_from_civil _ (snd (next_month y m) + 1) 1) in *.
  replace ((D - 1) * 86400000 + (23 * 3600000 + 59 * 60000 + 59 * 1000 + 999)
           + tz * 60000)
    with (D * 86400000 + tz * 60000 - 1) by lia.
  replace (Z.abs (D * 86400000 + tz * 60000 - 1) <=? 8640000000000000) with true
    by (symmetry; apply Z.leb_le; lia).
  reflexivity.
Qed.

Lemma datetime_unixepoch_in_window (s : Z) :
  datetime_min <= s <= datetime_max -> datetime_unixepoch s = Some s.
Proof.
  intros H. unfold datetime_unixepoch.
  replace (datetime_min <=? s) with true by (symmetry; apply Z.leb_le; lia).
  replace (s <=? datetime_max) with true by (symmetry; apply Z.leb_le; lia).
  reflexivity.
Qed.

(** The two conditions of the query say that the timestamp lies in the
    month. *)
Lemma month_conditions (tz y m : Z) (i : Image.t) :
  1970 <= y <= 9998 -> 0 <= m <= 11 -> -1440 <= tz <= 1440 ->
  valid_timestamp (Image.uploadedAt i) ->
  sql_ge (uploaded_datetime i)
         (datetime_unixepoch_of_millis (Date_getTime tz y m 1 0 0 0 0))
  && sql_le (uploaded_datetime i)
            (datetime_unixepoch_of_millis (Date_getTime tz y (m + 1) 0 23 59 59 999))
  = (month_first_instant tz y m <=? Image.uploadedAt i)
    && (Image.uploadedAt i
        <? month_first_instant tz (fst (next_month y m)) (snd (next_month y m))).
Proof.
  intros Hy Hm Htz Hv.
  rewrite Date_getTime_month_start, Date_getTime_month_end by lia.
  destruct (uploaded_in_window i Hv) as [Hd _]. rewrite Hd.
  destruct (next_month_range y m Hy Hm) as [Hyn Hmn].
  pose proof (days_from_civil_range y (m + 1) ltac:(lia) ltac:(lia)) as HD.
  pose proof (days_from_civil_range _ (snd (next_month y m) + 1) Hyn ltac:(lia)) as HDn.
  rewrite !month_first_instant_seconds.
  set (L := days_from_civil y (m + 1) 1 * 86400 + tz * 60) in *.
  set (H := days_from_civil _ (snd (next_month y m) + 1) 1 * 86400 + tz * 60) in *.
  unfold datetime_unixepoch_of_millis.
  assert (EL : 1000 * L / 1000 = L) by (Z.div_mod_to_equations; lia).
  assert (EH : (1000 * H - 1) / 1000 = H - 1) by (Z.div_mod_to_equations; lia).
  rewrite EL, EH.
  rewrite !datetime_unixepoch_in_window
    by (unfold datetime_min, datetime_max, L, H; lia).
  unfold sql_ge, sql_le. unfold valid_timestamp in Hv.
  set (t := Image.uploadedAt i) in *.
  f_equal.
  - destruct (Z.leb_spec L (t / 1000)), (Z.leb_spec (1000 * L) t);
      try reflexivity; exfalso; Z.div_mod_to_equations; lia.
  - destruct (Z.leb_spec (t / 1000) (H - 1)), (Z.ltb_spec t (1000 * H));
      try reflexivity; exfalso; Z.div_mod_to_equations; lia.
Qed.

(** What [getUserImagesByDate] computes.  For a year from 1970 to 9998 and
    a month from 0 to 11, on a server whose clock is within a day of UTC,
    and over stored integers that read as milliseconds lie between the
    epoch and the end of year 9999, it returns exactly the user's rows
    whose stored integer, read as milliseconds, lies in the half-open
    interval from the first instant of the month to the first instant of
    the next month, largest first. *)
Lemma getUserImagesByDate_of_stored (tz : Z) (st : Store) (u y m : Z) :
  1970 <= y <= 9998 -> 0 <= m <= 11 -> -1440 <= tz <= 1440 ->
  (forall i, In i (images st) -> Image.userId i = u ->
             valid_timestamp (Image.uploadedAt i)) ->
  let first := month_first_instant tz y m in
  let next := month_first_instant tz (fst (next_month y m)) (snd (next_month y m)) in
  Permutation (getUserImagesByDate tz st u y m)
              (filter (fun i => (Image.userId i =? u)
                                && (first <=? Image.uploadedAt i)
                                && (Image.uploadedAt i <? next))
                      (images st))
  /\ (forall i, In i (getUserImagesByDate tz st u y m) <->
                In i (images st) /\ Image.userId i = u
                /\ first <= Image.uploadedAt i < next)
  /\ StronglySorted (fun a b => Image.uploadedAt b <= Image.uploadedAt a)
                    (getUserImagesByDate tz st u y m).
Proof.
  intros Hy Hm Htz Hvalid first next.
  assert (Hfilter :
    filter (fun i =>
              (Image.userId i =? u)
              && sql_ge (uploaded_datetime i)
                   (datetime_unixepoch_of_millis (Date_getTime tz y m 1 0 0 0 0))
              && sql_le (uploaded_datetime i)
                   (datetime_unixepoch_of_millis
                      (Date_getTime tz y (m + 1) 0 23 59 59 999)))
           (images st)
    = filter (fun i => (Image.userId i =? u)
                       && (first <=? Image.uploadedAt i)
                       && (Image.uploadedAt i <? next))
             (images st)).
  { apply filter_ext_in. intros i Hi.
    rewrite <- !andb_assoc.
    destruct (Z.eqb_spec (Image.userId i) u) as [Hu|]; [|reflexivity].
    cbn [andb]. apply month_conditions; auto. }
  assert (Hperm : Permutation (getUserImagesByDate tz st u y m)
                    (filter (fun i => (Image.userId i =? u)
                                      && (first <=? Image.uploadedAt i)
                                      && (Image.uploadedAt i <? next))
                            (images st))).
  { unfold getUserImagesByDate. cbv zeta. rewrite Hfilter.
    apply order_by_desc_perm. }
  split; [exact Hperm|]. split.
  - intros i. split.
    + intros Hi. apply (Permutation_in _ Hperm) in Hi.
      apply filter_In in Hi as [Hin Hc].
      apply andb_true_iff in Hc as [Hc H3]. apply andb_true_iff in Hc as [H1 H2].
      apply Z.eqb_eq in H1. apply Z.leb_le in H2. apply Z.ltb_lt in H3. auto.
    + intros [Hin [Hu [H1 H2]]].
      apply (Permutation_in _ (Permutation_sym Hperm)).
      apply filter_In. split; [assumption|].
      rewrite !andb_true_iff. repeat split;
        [now apply Z.eqb_eq | now apply Z.leb_le | now apply Z.ltb_lt].
  - unfold getUserImagesByDate. cbv zeta. apply order_by_desc_sorted.
Qed.

Lemma getUserImagesByDate_of_stored_witness :
  Permutation (getUserImagesByDate 0 store_dates 1 2024 0)
              (filter (fun i => (Image.userId i =? 1)
                                && (month_first_instant 0 2024 0 <=? Image.uploadedAt i)
                                && (Image.uploadedAt i <? month_first_instant 0 2024 1))
                      (images store_dates))
  /\ (forall i, In i (getUserImagesByDate 0 store_dates 1 2024 0) <->
                In i (images store_dates) /\ Image.userId i = 1
                /\ month_first_instant 0 2024 0 <= Image.uploadedAt i
                   < month_first_instant 0 2024 1)
  /\ StronglySorted (fun a b => Image.uploadedAt b <= Image.uploadedAt a)
                    (getUserImagesByDate 0 store_dates 1 2024 0).
Proof.
  apply (getUserImagesByDate_of_stored 0 store_dates 1 2024 0); try lia.
  intros i Hi _. simpl in Hi. unfold valid_timestamp.
  destruct Hi as [<- | [<- | [<- | [<- | [<- | []]]]]]; simpl; lia.
Defined.

(** A row whose integer reads as the last millisecond of January is in,
    one that reads as the first of February is out. *)
Example getUserImagesByDate_store_dates :
  map Image.id (getUserImagesByDate 0 store_dates 1 2024 0) = [2; 1].
Proof. vm_compute. reflexivity. Qed.

(** *** C6, C7: the stored seconds are read as milliseconds *)

Lemma january_1970 (z : Z) : 0 <= z <= 30 -> civil_year_month z = (1970, 1).
Proof.
  intros Hz.
  replace z with (4 * 146097 + (369 * 365 + 369 / 4 - 369 / 100 + (z + 306)) - 719468)
    by (replace (369 / 4) with 92 by reflexivity;
        replace (369 / 100) with 3 by reflexivity; lia).
  rewrite civil_year_month_of_era by lia. cbv zeta.
  assert (E : (5 * (z + 306) + 2) / 153 = 10) by (Z.div_mod_to_equations; lia).
  rewrite E. reflexivity.
Qed.

Lemma seconds_read_as_milliseconds (i : Image.t) :
  uploaded_before_2054 i ->
  valid_timestamp (Image.uploadedAt i)
  /\ Image.uploadedAt i < 2678400000
  /\ utc_year_month (Image.uploadedAt i) = (1970, 0).
Proof.
  unfold uploaded_before_2054, uploadedAt_Date, timestamp_from_driver, valid_timestamp.
  intros H. split; [lia|]. split; [lia|].
  unfold utc_year_month. cbv zeta.
  rewrite january_1970 by (Z.div_mod_to_equations; lia).
  reflexivity.
Qed.

Lemma NoDup_constant {A : Type} (c : A) (l : list A) :
  NoDup l -> (forall x, In x l -> x = c) -> In c l -> l = [c].
Proof.
  intros Hnd Hall Hin. destruct l as [|x l]; [destruct Hin|].
  assert (Hx : x = c) by (apply Hall; now left). subst x.
  destruct l as [|y l]; [reflexivity|].
  assert (Hy : y = c) by (apply Hall; right; now left). subst y.
  inversion Hnd as [|? ? Hnotin _]. exfalso. apply Hnotin. now left.
Qed.

(** Every user with an image uploaded before 2054-11-15 gets the single
    answer January 1970. *)
Lemma getUserImageDates_january_1970 (st : Store) (u : Z) :
  (forall i, In i (images st) -> Image.userId i = u -> uploaded_before_2054 i) ->
  (exists i, In i (images st) /\ Image.userId i = u) ->
  getUserImageDates st u = [YearMonth.mk (Some 1970) (Some 0)].
Proof.
  intros Hall [i0 [Hi0 Hu0]].
  destruct (getUserImageDates_of_stored st u) as [pairs [Hres [Hin [Hnd _]]]].
  { intros i Hi Hu. now apply seconds_read_as_milliseconds, Hall. }
  rewrite Hres.
  rewrite (NoDup_constant (1970, 0) pairs); [reflexivity | assumption | |].
  - intros p Hp. apply Hin in Hp as [i [Hi [Hu <-]]].
    now apply seconds_read_as_milliseconds, Hall.
  - apply Hin. exists i0. split; [assumption|]. split; [assumption|].
    now apply seconds_read_as_milliseconds, Hall.
Qed.

Lemma days_from_civil_after_1970 (y mo : Z) :
  1971 <= y <= 9999 -> 1 <= mo <= 12 -> 365 <= days_from_civil y mo 1.
Proof.
  intros Hy Hm. unfold days_from_civil. cbv zeta.
  destruct (mo <=? 2) eqn:E1; destruct (2 <? mo) eqn:E2; try lia;
    Z.div_mod_to_equations; lia.
Qed.

(** And no month from 1971 on shows any of those images. *)
Lemma getUserImagesByDate_empty (tz : Z) (st : Store) (u y m : Z) :
  1971 <= y <= 9998 -> 0 <= m <= 11 -> -1440 <= tz <= 1440 ->
  (forall i, In i (images st) -> Image.userId i = u -> uploaded_before_2054 i) ->
  getUserImagesByDate tz st u y m = [].
Proof.
  intros Hy Hm Htz Hall.
  destruct (getUserImagesByDate_of_stored tz st u y m) as [_ [Hin _]]; try lia.
  { intros i Hi Hu. now apply seconds_read_as_milliseconds, Hall. }
  destruct (getUserImagesByDate tz st u y m) as [|i l] eqn:E; [reflexivity|].
  exfalso.
  destruct (proj1 (Hin i) (or_introl eq_refl)) as [Hi [Hu [Hlo _]]].
  destruct (seconds_read_as_milliseconds i (Hall i Hi Hu)) as [_ [Hlt _]].
  pose proof (days_from_civil_after_1970 y (m + 1) ltac:(lia) ltac:(lia)) as Hd.
  unfold month_first_instant in Hlo. lia.
Qed.


Lemma store_after_upload_images :
  images store_after_upload
  = [Image.mk 1 1 "/uploads/a.png" (Some EmptyString) 1705312800].
Proof. reflexivity. Qed.

(** C6. An image uploaded on 2024-01-15 is stored with its seconds since
    the epoch, and its [uploadedAt] is a date of January 2024 (year 2024,
    month 0); [getUserImageDates] divides the stored seconds by 1000
    before reading them as seconds and reports January 1970. *)
Theorem getUserImageDates_reads_seconds_as_milliseconds :
  exists i,
    images store_after_upload = [i]
    /\ Image.userId i = 1
    /\ uploadedAt_Date i = date_2024_01_15
    /\ utc_year_month (uploadedAt_Date i) = (2024, 0)
    /\ getUserImageDates store_after_upload 1
       = [YearMonth.mk (Some 1970) (Some 0)].
Proof.
  eexists. split; [apply store_after_upload_images|].
  repeat split; vm_compute; reflexivity.
Qed.

(** C7. The same image lies in January 2024, from the first instant of
    the month to the first instant of February, and
    [getUserImagesByDate] for January 2024 does not return it: it is
    found under January 1970. *)
Theorem getUserImagesByDate_misses_the_upload :
  exists i,
    images store_after_upload = [i]
    /\ Image.userId i = 1
    /\ month_first_instant 0 2024 0 <= uploadedAt_Date i
       < month_first_instant 0 2024 1
    /\ getUserImagesByDate 0 store_after_upload 1 2024 0 = []
    /\ getUserImagesByDate 0 store_after_upload 1 1970 0 = [i].
Proof.
  eexists. split; [apply store_after_upload_images|].
  split; [reflexivity|]. split; [vm_compute; split; congruence|].
  split; vm_compute; reflexivity.
Qed.

(* ===================================================================== *)
(** ** Access to images: what the tables decide *)
(* ===================================================================== *)

(** [userHasImageAccess] as one boolean over the three tables it reads. *)
Lemma userHasImageAccess_existsb (st : Store) (u i : Z) :
  userHasImageAccess st u i
  = existsb (fun img => (Image.id img =? i) && (Image.userId img =? u)) (images st)
    || existsb (fun s => (ImageShare.imageId s =? i)
                         && eq_nullable (ImageShare.userId s) u)
               (imageShares st)
    || existsb (fun s => (ImageShare.imageId s =? i)
                         && inArray_nullable (ImageShare.groupId s)
                              (map GroupMember.groupId
                                 (filter (fun m => GroupMember.userId m =? u)
                                         (groupMembers st))))
               (imageShares st).
Proof.
  unfold userHasImageAccess. cbv zeta. rewrite !limit_filter_nonempty.
  destruct (existsb _ (images st)); [reflexivity|].
  destruct (existsb (fun s => _ && eq_nullable _ _) (imageShares st));
    [reflexivity|].
  cbn [orb].
  destruct (map GroupMember.groupId _) as [|g gs]; [|reflexivity].
  cbn [List.length Nat.eqb]. symmetry.
  apply not_true_is_false. intros H. apply existsb_exists in H.
  destruct H as (s & _ & H). apply andb_true_iff in H. destruct H as [_ H].
  destruct (ImageShare.groupId s); discriminate.
Qed.

Lemma existsb_incl {A : Type} (p : A -> bool) (l l' : list A) :
  incl l l' -> existsb p l = true -> existsb p l' = true.
Proof.
  intros Hi H. apply existsb_exists in H. destruct H as (x & Hx & Hp).
  apply existsb_exists. exists x. split; [apply Hi; exact Hx | exact Hp].
Qed.

Lemma inArray_nullable_incl (col : option Z) (l l' : list Z) :
  incl l l' -> inArray_nullable col l = true -> inArray_nullable col l' = true.
Proof.
  destruct col as [c|]; [|discriminate]. cbn [inArray_nullable].
  intros Hi H. apply inArray_In. apply Hi. apply inArray_In. exact H.
Qed.

(** Rows are only ever added: access is kept. *)
Lemma userHasImageAccess_mono (st st' : Store) (u i : Z) :
  incl (images st) (images st') ->
  incl (imageShares st) (imageShares st') ->
  incl (groupMembers st) (groupMembers st') ->
  userHasImageAccess st u i = true -> userHasImageAccess st' u i = true.
Proof.
  intros Hi Hs Hm. rewrite !userHasImageAccess_existsb.
  intros H. apply orb_true_iff in H. destruct H as [H|H].
  - apply orb_true_iff in H. destruct H as [H|H].
    + rewrite (existsb_incl _ _ _ Hi H). reflexivity.
    + rewrite (existsb_incl _ _ _ Hs H). rewrite orb_true_r. reflexivity.
  - apply orb_true_iff. right.
    apply existsb_exists in H. destruct H as (s & Hin & H).
    apply existsb_exists. exists s. split; [apply Hs; exact Hin|].
    apply andb_true_iff in H. destruct H as [H1 H2]. rewrite H1. cbn [andb].
    revert H2. apply inArray_nullable_incl.
    intros g Hg. apply in_map_iff in Hg. destruct Hg as (m & Hg & Hm').
    apply filter_In in Hm'. destruct Hm' as [Hm1 Hm2].
    apply in_map_iff. exists m. split; [exact Hg|].
    apply filter_In. split; [apply Hm; exact Hm1 | exact Hm2].
Qed.

Lemma userHasImageAccess_ext (st st' : Store) (u i : Z) :
  images st' = images st -> imageShares st' = imageShares st ->
  groupMembers st' = groupMembers st ->
  userHasImageAccess st' u i = userHasImageAccess st u i.
Proof.
  intros Hi Hs Hm. rewrite !userHasImageAccess_existsb, Hi, Hs, Hm. reflexivity.
Qed.

Lemma owner_has_access (st : Store) (img : Image.t) :
  In img (images st) ->
  userHasImageAccess st (Image.userId img) (Image.id img) = true.
Proof.
  intros H. rewrite userHasImageAccess_existsb.
  apply orb_true_iff. left. apply orb_true_iff. left.
  apply existsb_exists. exists img. split; [exact H|].
  rewrite !Z.eqb_refl. reflexivity.
Qed.

(** The store [deleteImage] leaves. *)
Lemma deleteImage_run (st : Store) (id : Z) :
  deleteImage id st
  = (inr tt,
     mkStore (users st)
       (filter (fun i => negb (Image.id i =? id)) (images st))
       (friends st) (groups st) (groupMembers st)
       (filter (fun s => negb (ImageShare.imageId s =? id)) (imageShares st))
       (filter (fun n => negb (eq_nullable (Notification.imageId n) id))
               (notifications st))
       (sqlite_sequence st)).
Proof.
  unfold deleteImage, bind, delete_imageShares_of, delete_notifications_of,
    delete_images_where_id.
  cbn [images imageShares notifications set_imageShares set_notifications].
  assert (E1 : existsb (fun s => ImageShare.imageId s =? id)
                 (filter (fun s => negb (ImageShare.imageId s =? id))
                         (imageShares st)) = false).
  { apply not_true_is_false. intros H. apply existsb_exists in H.
    destruct H as (s & Hs & H). apply filter_In in Hs. destruct Hs as [_ Hs].
    rewrite H in Hs. discriminate. }
  assert (E2 : existsb (fun n => eq_nullable (Notification.imageId n) id)
                 (filter (fun n => negb (eq_nullable (Notification.imageId n) id))
                         (notifications st)) = false).
  { apply not_true_is_false. intros H. apply existsb_exists in H.
    destruct H as (n & Hn & H). apply filter_In in Hn. destruct Hn as [_ Hn].
    rewrite H in Hn. discriminate. }
  rewrite E1, E2, andb_false_r. reflexivity.
Qed.

Lemma existsb_filter {A : Type} (p q : A -> bool) (l : list A) :
  existsb p (filter q l) = existsb (fun x => q x && p x) l.
Proof.
  induction l as [|x l IH]; [reflexivity|].
  cbn [filter existsb]. destruct (q x); cbn [existsb andb orb]; rewrite IH; reflexivity.
Qed.

Lemma existsb_false {A : Type} (p : A -> bool) (l : list A) :
  (forall x, In x l -> p x = false) -> existsb p l = false.
Proof.
  intros H. induction l as [|x l IH]; [reflexivity|].
  cbn [existsb]. rewrite (H x (or_introl eq_refl)). apply IH.
  intros y Hy. apply H. right. exact Hy.
Qed.

Lemma existsb_same {A : Type} (p q : A -> bool) (l : list A) :
  (forall x, In x l -> p x = q x) -> existsb p l = existsb q l.
Proof.
  intros H. induction l as [|x l IH]; [reflexivity|].
  cbn [existsb]. rewrite (H x (or_introl eq_refl)). f_equal. apply IH.
  intros y Hy. apply H. right. exact Hy.
Qed.

(** X1. [deleteImage] always completes; once it has run,
    [userHasImageAccess] is false for the deleted id whoever asks, and
    it answers as before for every other image. *)
Theorem deleteImage_revokes_access (st : Store) (id : Z) :
  fst (deleteImage id st) = inr tt
  /\ (forall u, userHasImageAccess (snd (deleteImage id st)) u id = false)
  /\ (forall u j, j <> id ->
        userHasImageAccess (snd (deleteImage id st)) u j
        = userHasImageAccess st u j).
Proof.
  rewrite deleteImage_run. cbn [fst snd]. split; [reflexivity|]. split.
  - intros u. rewrite userHasImageAccess_existsb.
    cbn [images imageShares groupMembers].
    rewrite !existsb_filter.
    rewrite !existsb_false; [reflexivity| | |];
      intros x _; destruct (_ x =? id); reflexivity.
  - intros u j Hj. rewrite !userHasImageAccess_existsb.
    cbn [images imageShares groupMembers].
    rewrite !existsb_filter.
    f_equal; [f_equal|]; apply existsb_same; intros x _.
    + destruct (Z.eqb_spec (Image.id x) id) as [E|E];
        destruct (Z.eqb_spec (Image.id x) j); try reflexivity; congruence.
    + destruct (Z.eqb_spec (ImageShare.imageId x) id) as [E|E];
        destruct (Z.eqb_spec (ImageShare.imageId x) j); try reflexivity; congruence.
    + destruct (Z.eqb_spec (ImageShare.imageId x) id) as [E|E];
        destruct (Z.eqb_spec (ImageShare.imageId x) j); try reflexivity; congruence.
Qed.

(* ===================================================================== *)
(** ** Frames: what a step leaves alone *)
(* ===================================================================== *)

Section Frames.
Variable R : Store -> Store -> Prop.
Hypothesis R_refl : forall st, R st st.
Hypothesis R_trans : forall a b c, R a b -> R b c -> R a c.

Lemma bind_keeps {A B : Type} (m : M A) (k : A -> M B) (st : Store) :
  R st (snd (m st)) -> (forall a s, R s (snd (k a s))) ->
  R st (snd (bind m k st)).
Proof.
  intros Hm Hk. unfold bind. destruct (m st) as [[e|a] s]; cbn [snd] in *.
  - exact Hm.
  - eapply R_trans; [exact Hm | apply Hk].
Qed.

Lemma for_of_keeps {A : Type} (body : A -> M unit) (xs : list A) :
  (forall x s, R s (snd (body x s))) ->
  forall st, R st (snd (for_of xs body st)).
Proof.
  intros Hb. induction xs as [|x xs IH]; intros st; cbn [for_of].
  - apply R_refl.
  - apply bind_keeps; [apply Hb | intros _ s; apply IH].
Qed.
End Frames.

Lemma same_but_notifications_refl (st : Store) : same_but_notifications st st.
Proof. repeat split. Qed.

Lemma same_but_notifications_trans (a b c : Store) :
  same_but_notifications a b -> same_but_notifications b c ->
  same_but_notifications a c.
Proof.
  unfold same_but_notifications.
  intros (A1 & A2 & A3 & A4 & A5 & A6) (B1 & B2 & B3 & B4 & B5 & B6).
  repeat split; congruence.
Qed.

Lemma same_but_shares_refl (st : Store) : same_but_shares st st.
Proof. repeat split. Qed.

Lemma same_but_shares_trans (a b c : Store) :
  same_but_shares a b -> same_but_shares b c -> same_but_shares a c.
Proof.
  unfold same_but_shares.
  intros (A1 & A2 & A3 & A4) (B1 & B2 & B3 & B4). repeat split; congruence.
Qed.

Lemma notifications_are_not_shares (st st' : Store) :
  same_but_notifications st st' -> same_but_shares st st'.
Proof.
  intros (A1 & A2 & A3 & A4 & A5 & A6). repeat split; assumption.
Qed.

Lemma createNotification_frame (now : Z) (n : InsertNotification.t) (st : Store) :
  same_but_notifications st (snd (createNotification now n st)).
Proof.
  unfold createNotification.
  destruct (_ && _); cbn [snd]; repeat split.
Qed.

Lemma shareImage_frame (now : Z) (s : InsertImageShare.t) (st : Store) :
  same_but_shares st (snd (shareImage now s st)).
Proof.
  unfold shareImage. destruct (_ && _); cbn [snd]; repeat split.
Qed.

Lemma ret_frame {A : Type} (R : Store -> Store -> Prop) (a : A) (st : Store) :
  (forall s, R s s) -> R st (snd (ret a st)).
Proof. intros H. apply H. Qed.

Lemma share_with_user_frame (now : Z) (user : User.t) (image : Image.t)
      (v : Z) (st : Store) :
  same_but_shares st (snd (share_with_user now user image v st)).
Proof.
  unfold share_with_user.
  apply bind_keeps; [exact same_but_shares_trans | apply shareImage_frame |].
  intros _ s. apply bind_keeps; [exact same_but_shares_trans | |].
  - apply notifications_are_not_shares, createNotification_frame.
  - intros _ s'. apply same_but_shares_refl.
Qed.

(** The loop over the members of [share_with_group]. *)
Lemma notify_loop_frame (now : Z) (user : User.t) (image : Image.t) (G : Z)
      (group : Group.t) (members : list User.t) (st : Store) :
  same_but_notifications st
    (snd (for_of members (fun member =>
            if negb (User.id member =? User.id user)
            then
              bind (createNotification now
                      (InsertNotification.mk (User.id member) image_share
                         (User.username user ++ " shared an image in "
                          ++ Group.name group)%string
                         (Some (User.id user)) (Some G) (Some (Image.id image))))
                   (fun _ => ret tt)
            else ret tt) st)).
Proof.
  apply for_of_keeps;
    [exact same_but_notifications_refl | exact same_but_notifications_trans |].
  intros m s. destruct (negb _).
  - apply bind_keeps; [exact same_but_notifications_trans | |].
    + apply createNotification_frame.
    + intros _ s'. apply same_but_notifications_refl.
  - apply same_but_notifications_refl.
Qed.

(** What follows [shareImage] in [share_with_group]. *)
Lemma share_with_group_tail_frame (now : Z) (user : User.t) (image : Image.t)
      (G : Z) (st : Store) :
  same_but_notifications st
    (snd (bind (query (fun st => getGroupMembers st G)) (fun members =>
          bind (query_or_throw (fun st => getGroup st G)) (fun group =>
          for_of members (fun member =>
            if negb (User.id member =? User.id user)
            then
              bind (createNotification now
                      (InsertNotification.mk (User.id member) image_share
                         (User.username user ++ " shared an image in "
                          ++ Group.name group)%string
                         (Some (User.id user)) (Some G) (Some (Image.id image))))
                   (fun _ => ret tt)
            else ret tt))) st)).
Proof.
  unfold bind at 1. unfold query at 1. unfold bind at 1.
  unfold query_or_throw at 1.
  destruct (getGroup st G) as [e|group]; [apply same_but_notifications_refl|].
  apply notify_loop_frame.
Qed.

Lemma share_with_group_frame (now : Z) (user : User.t) (image : Image.t)
      (G : Z) (st : Store) :
  same_but_shares st (snd (share_with_group now user image G st)).
Proof.
  unfold share_with_group. cbv zeta.
  apply bind_keeps; [exact same_but_shares_trans | apply shareImage_frame |].
  intros _ s. apply notifications_are_not_shares, share_with_group_tail_frame.
Qed.

Lemma isGroupMember_existsb (st : Store) (G u : Z) :
  isGroupMember st G u
  = existsb (fun m => (GroupMember.groupId m =? G) && (GroupMember.userId m =? u))
            (groupMembers st).
Proof. unfold isGroupMember. cbv zeta. apply limit_filter_nonempty. Qed.

Lemma isGroupMember_inArray (st : Store) (G u : Z) :
  inArray G (map GroupMember.groupId
               (filter (fun m => GroupMember.userId m =? u) (groupMembers st)))
  = isGroupMember st G u.
Proof.
  rewrite isGroupMember_existsb. unfold inArray.
  induction (groupMembers st) as [|m l IH]; [reflexivity|].
  cbn [filter existsb]. destruct (GroupMember.userId m =? u).
  - cbn [map existsb]. rewrite IH, andb_true_r, (Z.eqb_sym G). reflexivity.
  - rewrite IH, andb_false_r. reflexivity.
Qed.

Lemma isGroupMember_iff (st : Store) (G u : Z) :
  isGroupMember st G u = true <-> is_member st G u.
Proof.
  rewrite isGroupMember_existsb, existsb_exists. unfold is_member.
  split; intros (m & Hm & H); exists m; (split; [exact Hm|]).
  - apply andb_true_iff in H. destruct H as [H1 H2].
    apply Z.eqb_eq in H1, H2. split; assumption.
  - destruct H as [H1 H2]. rewrite H1, H2, !Z.eqb_refl. reflexivity.
Qed.

(** X2. Sharing an image with a user gives that user access to that
    image and changes nobody else's access; the user gets one unread
    notification naming the image and the sender. *)
Theorem share_with_user_grants_access
        (now : Z) (user : User.t) (image : Image.t) (v : Z) (st : Store) :
  user_exists st (User.id user) ->
  In image (images st) ->
  user_exists st v ->
  exists st' s n,
    share_with_user now user image v st = (inr tt, st')
    /\ (forall u i,
          userHasImageAccess st' u i
          = userHasImageAccess st u i || ((i =? Image.id image) && (u =? v)))
    /\ imageShares st' = imageShares st ++ [s]
    /\ ImageShare.imageId s = Image.id image
    /\ ImageShare.userId s = Some v
    /\ ImageShare.groupId s = None
    /\ notifications st' = notifications st ++ [n]
    /\ Notification.userId n = v
    /\ Notification.type n = image_share
    /\ Notification.senderId n = Some (User.id user)
    /\ Notification.imageId n = Some (Image.id image)
    /\ Notification.isRead n = false.
Proof.
  intros Hu Hi Hv.
  assert (Ri : references Image.id (images st) (Image.id image) = true).
  { apply references_true. exists image. split; [exact Hi | reflexivity]. }
  pose proof (user_exists_references _ _ Hu) as Ru.
  pose proof (user_exists_references _ _ Hv) as Rv.
  unfold share_with_user, bind, shareImage, createNotification, ret.
  cbn [InsertImageShare.imageId InsertImageShare.userId InsertImageShare.groupId
       references_nullable].
  rewrite Ri, Rv. cbn [andb].
  cbn [users images groups set_sequence set_imageShares
       InsertNotification.userId InsertNotification.senderId
       InsertNotification.groupId InsertNotification.imageId
       references_nullable].
  rewrite Ri, Rv, Ru. cbn [andb].
  eexists. eexists. eexists. split; [reflexivity|].
  split; [|repeat split; reflexivity].
  intros u i. rewrite !userHasImageAccess_existsb.
  cbn [images imageShares groupMembers set_sequence set_notifications
       set_imageShares].
  rewrite !existsb_app. cbn [existsb ImageShare.imageId ImageShare.userId
                             ImageShare.groupId eq_nullable inArray_nullable].
  rewrite !orb_false_r, andb_false_r, orb_false_r.
  rewrite (Z.eqb_sym v u), (Z.eqb_sym (Image.id image) i).
  destruct (existsb _ (images st)); cbn [orb]; [reflexivity|].
  destruct (existsb (fun s => _ && eq_nullable _ _) (imageShares st));
    cbn [orb]; [reflexivity|].
  apply orb_comm.
Qed.

Lemma share_with_user_grants_access_witness :
  exists st' s n,
    share_with_user 9 ann image7 2 store_group = (inr tt, st')
    /\ userHasImageAccess store_group 2 7 = false
    /\ userHasImageAccess st' 2 7 = true
    /\ imageShares st' = imageShares store_group ++ [s]
    /\ notifications st' = notifications store_group ++ [n]
    /\ Notification.userId n = 2.
Proof.
  destruct (share_with_user_grants_access 9 ann image7 2 store_group)
    as (st' & s & n & H1 & H2 & H3 & _ & _ & _ & H7 & H8 & _).
  - exists ann. split; [left; reflexivity | reflexivity].
  - left. reflexivity.
  - exists bob. split; [right; left; reflexivity | reflexivity].
  - exists st', s, n. split; [exact H1|]. split; [reflexivity|].
    split; [rewrite H2; reflexivity|]. repeat split; assumption.
Defined.

(** The tables after [share_with_group], whatever the loop over the
    members does. *)
Lemma share_with_group_tables
      (now : Z) (user : User.t) (image : Image.t) (G : Z) (st : Store) :
  In image (images st) ->
  (exists g, In g (groups st) /\ Group.id g = G) ->
  exists s,
    imageShares (snd (share_with_group now user image G st))
    = imageShares st ++ [s]
    /\ images (snd (share_with_group now user image G st)) = images st
    /\ groupMembers (snd (share_with_group now user image G st))
       = groupMembers st
    /\ ImageShare.imageId s = Image.id image
    /\ ImageShare.userId s = None
    /\ ImageShare.groupId s = Some G.
Proof.
  intros Hi Hg.
  assert (Ri : references Image.id (images st) (Image.id image) = true).
  { apply references_true. exists image. split; [exact Hi | reflexivity]. }
  assert (Rg : references Group.id (groups st) G = true).
  { apply references_true. exact Hg. }
  remember (share_with_group now user image G st) as r eqn:Er.
  unfold share_with_group in Er. cbv zeta in Er. unfold bind at 1 in Er.
  unfold shareImage in Er.
  cbn [InsertImageShare.imageId InsertImageShare.userId InsertImageShare.groupId
       references_nullable] in Er.
  rewrite Ri, Rg in Er. cbn [andb] in Er.
  match type of Er with
  | _ = _ ?s1 =>
      assert (F : same_but_notifications s1 (snd r))
        by (rewrite Er; apply share_with_group_tail_frame)
  end.
  destruct F as (_ & F2 & _ & _ & F5 & F6).
  cbn [images imageShares groupMembers set_sequence set_imageShares] in F2, F5, F6.
  eexists. split; [exact F6|]. split; [exact F2|]. split; [exact F5|].
  repeat split.
Qed.

(** X3. Sharing an image with a group gives access to exactly the
    members of the group on top of those who had it, whether or not the
    notifications that follow can all be written. *)
Theorem share_with_group_grants_access
        (now : Z) (user : User.t) (image : Image.t) (G : Z) (st : Store) :
  In image (images st) ->
  (exists g, In g (groups st) /\ Group.id g = G) ->
  exists s,
    imageShares (snd (share_with_group now user image G st))
    = imageShares st ++ [s]
    /\ ImageShare.imageId s = Image.id image
    /\ ImageShare.userId s = None
    /\ ImageShare.groupId s = Some G
    /\ (forall u i,
          userHasImageAccess (snd (share_with_group now user image G st)) u i
          = userHasImageAccess st u i
            || ((i =? Image.id image) && isGroupMember st G u)).
Proof.
  intros Hi Hg.
  destruct (share_with_group_tables now user image G st Hi Hg)
    as (s & F6 & F2 & F5 & S1 & S2 & S3).
  exists s. repeat split; try assumption.
  intros u i. rewrite !userHasImageAccess_existsb, F2, F5, F6.
  rewrite !existsb_app. cbn [existsb]. rewrite S1, S2, S3.
  cbn [eq_nullable inArray_nullable].
  rewrite isGroupMember_inArray.
  rewrite !orb_false_r, andb_false_r, orb_false_r.
  rewrite (Z.eqb_sym (Image.id image) i).
  rewrite orb_assoc. reflexivity.
Qed.

Lemma share_with_group_grants_access_witness :
  userHasImageAccess store_group 3 7 = false
  /\ userHasImageAccess (snd (share_with_group 9 ann image7 4 store_group)) 3 7
     = true.
Proof.
  split; [reflexivity|].
  destruct (share_with_group_grants_access 9 ann image7 4 store_group)
    as (s & _ & _ & _ & _ & H).
  - left. reflexivity.
  - eexists. split; [left; reflexivity | reflexivity].
  - rewrite H. reflexivity.
Defined.

(* ===================================================================== *)
(** ** C5: whom an upload notifies *)
(* ===================================================================== *)

Section Upload.
Variables (now : Z) (user : User.t) (image : Image.t).

(** What every notification of the upload carries. *)
Let from_upload (n : Notification.t) : Prop :=
  Notification.type n = image_share
  /\ Notification.imageId n = Some (Image.id image)
  /\ Notification.senderId n = Some (User.id user).

Lemma share_with_user_run (v : Z) (st : Store) :
  In user (users st) ->
  references Image.id (images st) (Image.id image) = true ->
  references User.id (users st) v = true ->
  exists st' n,
    share_with_user now user image v st = (inr tt, st')
    /\ notifications st' = notifications st ++ [n]
    /\ recipient_and_group n = (v, None)
    /\ from_upload n.
Proof.
  intros Hu Hi Hv.
  assert (Hru : references User.id (users st) (User.id user) = true).
  { apply references_true. eauto. }
  unfold share_with_user, bind, shareImage, createNotification, ret. simpl.
  rewrite Hi, Hv. simpl. rewrite Hv, Hru, Hi. simpl.
  eexists. eexists. repeat split; reflexivity.
Qed.

Lemma pairs_of_group_share (G : Z) (created : list Notification.t) :
  forall members : list User.t,
    Forall (fun n => Notification.groupId n = Some G) created ->
    map Notification.userId created = map User.id members ->
    map recipient_and_group created = map (fun m => (User.id m, Some G)) members.
Proof.
  induction created as [|n created IH]; intros [|m members] Hall Hids;
    simpl in *; try discriminate; [reflexivity|].
  inversion Hall as [|? ? Hn Hrest]; subst.
  injection Hids as Hid Hids.
  unfold recipient_and_group at 1. rewrite Hn, Hid. f_equal.
  now apply IH.
Qed.

Lemma share_with_group_run (G : Z) (st : Store) :
  In user (users st) ->
  references Image.id (images st) (Image.id image) = true ->
  references Group.id (groups st) G = true ->
  exists st' created,
    share_with_group now user image G st = (inr tt, st')
    /\ notifications st' = notifications st ++ created
    /\ map recipient_and_group created
       = map (fun m => (User.id m, Some G)) (members_to_notify st user G)
    /\ Forall from_upload created.
Proof.
  intros Huser Hi Hg.
  unfold share_with_group.
  unfold bind at 1. unfold shareImage. simpl. rewrite Hi, Hg. simpl.
  unfold bind at 1. unfold query at 1.
  unfold bind at 1. unfold query_or_throw at 1.
  set (st1 := set_sequence _ _).
  assert (Hmem : getGroupMembers st1 G = getGroupMembers st G) by reflexivity.
  assert (Hget : exists g, getGroup st1 G = inr g) by now apply getGroup_exists.
  destruct Hget as [g Hgg]. rewrite Hgg, Hmem.
  destruct (notify_members now user image G g (getGroupMembers st G) st1)
    as [st' [created [Hrun [Hn [_ [_ [Hall Hids]]]]]]]; auto.
  { intros m Hm. apply getGroupMembers_In in Hm as [Hm _]. exact Hm. }
  exists st', created.
  split; [exact Hrun|]. split; [exact Hn|]. split.
  - apply pairs_of_group_share; [|exact Hids].
    eapply Forall_impl; [|exact Hall]. intros n H. apply H.
  - eapply Forall_impl; [|exact Hall]. intros n (Ht & _ & Him & Hs).
    repeat split; assumption.
Qed.

Lemma getGroupMembers_same (st st' : Store) (G : Z) :
  same_but_shares st st' -> getGroupMembers st' G = getGroupMembers st G.
Proof.
  intros (Hu & _ & _ & Hm). unfold getGroupMembers. now rewrite Hu, Hm.
Qed.

Lemma share_with_users_run (us : list Z) :
  forall st,
    In user (users st) ->
    references Image.id (images st) (Image.id image) = true ->
    (forall v, In v us -> references User.id (users st) v = true) ->
    exists st' created,
      for_of us (share_with_user now user image) st = (inr tt, st')
      /\ same_but_shares st st'
      /\ notifications st' = notifications st ++ created
      /\ map recipient_and_group created = map (fun v => (v, None)) us
      /\ Forall from_upload created.
Proof.
  induction us as [|v us IH]; intros st Hu Hi Hus.
  - exists st, []. simpl. rewrite app_nil_r.
    repeat split; constructor.
  - destruct (share_with_user_run v st) as (s1 & n & Hrun & Hn & Hp & Hf);
      [assumption | assumption | apply Hus; now left |].
    pose proof (share_with_user_frame now user image v st) as F.
    rewrite Hrun in F. cbn [snd] in F.
    pose proof F as (Fu & Fi & _ & _).
    destruct (IH s1) as (s2 & created & Hrun2 & F2 & Hn2 & Hp2 & Hf2).
    { now rewrite Fu. }
    { now rewrite Fi. }
    { intros w Hw. rewrite Fu. apply Hus. now right. }
    exists s2, (n :: created). cbn [for_of]. unfold bind. rewrite Hrun, Hrun2.
    split; [reflexivity|].
    split; [eapply same_but_shares_trans; eassumption|].
    split; [rewrite Hn2, Hn, <- app_assoc; reflexivity|].
    split; [simpl; now rewrite Hp, Hp2 | now constructor].
Qed.

Lemma share_with_groups_run (gs : list Z) :
  forall st,
    In user (users st) ->
    references Image.id (images st) (Image.id image) = true ->
    (forall G, In G gs -> references Group.id (groups st) G = true) ->
    exists st' created,
      for_of gs (share_with_group now user image) st = (inr tt, st')
      /\ same_but_shares st st'
      /\ notifications st' = notifications st ++ created
      /\ map recipient_and_group created
         = flat_map (fun G => map (fun m => (User.id m, Some G))
                                  (members_to_notify st user G)) gs
      /\ Forall from_upload created.
Proof.
  induction gs as [|G gs IH]; intros st Hu Hi Hgs.
  - exists st, []. simpl. rewrite app_nil_r.
    repeat split; constructor.
  - destruct (share_with_group_run G st) as (s1 & c1 & Hrun & Hn & Hp & Hf);
      [assumption | assumption | apply Hgs; now left |].
    pose proof (share_with_group_frame now user image G st) as F.
    rewrite Hrun in F. cbn [snd] in F.
    pose proof F as (Fu & Fi & Fg & _).
    destruct (IH s1) as (s2 & c2 & Hrun2 & F2 & Hn2 & Hp2 & Hf2).
    { now rewrite Fu. }
    { now rewrite Fi. }
    { intros w Hw. rewrite Fg. apply Hgs. now right. }
    exists s2, (c1 ++ c2). cbn [for_of]. unfold bind. rewrite Hrun, Hrun2.
    split; [reflexivity|].
    split; [eapply same_but_shares_trans; eassumption|].
    split; [rewrite Hn2, Hn, <- app_assoc; reflexivity|].
    split; [|now apply Forall_app].
    rewrite map_app, Hp, Hp2. cbn [flat_map]. f_equal.
    apply flat_map_ext. intros w.
    unfold members_to_notify. now rewrite (getGroupMembers_same st s1 w F).
Qed.
End Upload.

(** Counting the notifications by recipient and group. *)

Lemma notified_of_group (created : list Notification.t) (G uid : Z) :
  notified (of_group created G) uid
  = List.length
      (filter (fun p => eq_nullable (snd p) G && (fst p =? uid))
              (map recipient_and_group created)).
Proof.
  unfold notified, of_group.
  induction created as [|n created IH]; simpl; [reflexivity|].
  destruct (eq_nullable (Notification.groupId n) G); simpl; [|exact IH].
  destruct (Notification.userId n =? uid); simpl; now rewrite IH.
Qed.

Lemma length_of_group (created : list Notification.t) (G : Z) :
  List.length (of_group created G)
  = List.length
      (filter (fun p => eq_nullable (snd p) G) (map recipient_and_group created)).
Proof.
  unfold of_group.
  induction created as [|n created IH]; simpl; [reflexivity|].
  destruct (eq_nullable (Notification.groupId n) G); simpl; now rewrite IH.
Qed.

Section CountByGroup.
Variables (G : Z) (rest : Z * option Z -> bool).

Let q (p : Z * option Z) : bool := eq_nullable (snd p) G && rest p.

Lemma count_direct_shares (us : list Z) :
  filter q (map (fun v => (v, @None Z)) us) = [].
Proof. induction us as [|v us IH]; simpl; [reflexivity | exact IH]. Qed.

Lemma count_other_group (G' : Z) (members : list User.t) :
  G' <> G -> filter q (map (fun m => (User.id m, Some G')) members) = [].
Proof.
  intros Hne. induction members as [|m members IH]; simpl; [reflexivity|].
  unfold q at 1. simpl. apply Z.eqb_neq in Hne. now rewrite Hne.
Qed.

Lemma count_group_shares (members : Z -> list User.t) (gs : list Z) :
  List.length
    (filter q (flat_map (fun G' => map (fun m => (User.id m, Some G')) (members G')) gs))
  = (count_occ Z.eq_dec gs G
     * List.length (filter q (map (fun m => (User.id m, Some G)) (members G))))%nat.
Proof.
  induction gs as [|G' gs IH]; [reflexivity|].
  cbn [flat_map count_occ]. rewrite filter_app, length_app, IH.
  destruct (Z.eq_dec G' G) as [->|Hne].
  - simpl. reflexivity.
  - now rewrite count_other_group.
Qed.
End CountByGroup.

Lemma count_member_pairs (G uid : Z) (members : list User.t) :
  List.length
    (filter (fun p : Z * option Z => eq_nullable (snd p) G && (fst p =? uid))
            (map (fun m => (User.id m, Some G)) members))
  = List.length (filter (fun y => y =? uid) (map User.id members)).
Proof.
  induction members as [|m members IH]; simpl; [reflexivity|].
  rewrite Z.eqb_refl. simpl.
  destruct (User.id m =? uid); simpl; now rewrite IH.
Qed.

Lemma count_all_pairs (G : Z) (members : list User.t) :
  List.length
    (filter (fun p : Z * option Z => eq_nullable (snd p) G && true)
            (map (fun m => (User.id m, Some G)) members))
  = List.length members.
Proof.
  induction members as [|m members IH]; simpl; [reflexivity|].
  rewrite Z.eqb_refl. simpl. now rewrite IH.
Qed.

(** The ids of the members that a group share notifies: each once, and
    they are the users who are members of the group other than the
    uploader. *)
Lemma members_to_notify_ids (st : Store) (user : User.t) (G : Z) :
  NoDup (map User.id (users st)) ->
  NoDup (map User.id (members_to_notify st user G))
  /\ forall uid,
       In uid (map User.id (members_to_notify st user G)) <->
       uid <> User.id user /\ user_exists st uid /\ is_member st G uid.
Proof.
  intros Hpk. unfold members_to_notify. split.
  - apply where_keeps_primary_key.
    unfold getGroupMembers.
    destruct (List.length _ =? 0)%nat; [constructor|].
    now apply where_keeps_primary_key.
  - intros uid. rewrite in_map_iff. split.
    + intros [m [<- Hm]]. apply filter_In in Hm as [Hm Hne].
      apply negb_true_iff, Z.eqb_neq in Hne.
      apply getGroupMembers_In in Hm as [Hu Hmem'].
      split; [assumption|]. split; [exists m; auto | assumption].
    + intros [Hne [[m [Hm <-]] Hmem']]. exists m. split; [reflexivity|].
      apply filter_In. split; [now apply getGroupMembers_In|].
      now apply negb_true_iff, Z.eqb_neq.
Qed.

(** C5, as stated, fails for an upload that names a group twice: Ann
    uploads an image with [groupIds = [4; 4]]; group 4 has the members
    Ann, Bob and Cat.  The upload is answered 201, and Bob and Cat get
    two notifications of type [image_share] each, four in all, where the
    claim has one each and two in all. *)
Lemma group_named_twice_notifies_twice :
  let req := mkUploadRequest (Some "b.png"%string) None None (Some [4; 4]) in
  let st' := snd (post_api_images 9 ann req store_group) in
  exists created,
    statusCode (fst (post_api_images 9 ann req store_group)) = 201
    /\ notifications st' = notifications store_group ++ created
    /\ map Notification.userId created = [2; 3; 2; 3]
    /\ Forall (fun n => Notification.type n = image_share
                       /\ Notification.groupId n = Some 4) created
    /\ notified created 2 = 2%nat
    /\ notified created 3 = 2%nat
    /\ List.length created = 4%nat.
Proof.
  cbv zeta. eexists. split; [reflexivity|].
  split; [vm_compute; reflexivity|].
  split; [reflexivity|].
  split; [repeat constructor|]. repeat split.
Qed.

(** C5, amended.  An upload with a file by a user of the store, naming
    users and groups that exist (user ids being unique), is answered 201
    and adds notifications that are all of type [image_share], for the
    new image and from the uploader.  They are, in this order: one for
    each entry of [userIds], naming no group; then, for each entry [G]
    of [groupIds], one for each user row that is a member of [G] other
    than the uploader's, naming [G].  So, of the notifications that name
    [G], each member of [G] other than the uploader gets as many as [G]
    has entries in [groupIds] (exactly one when [G] is named once), the
    uploader and the users outside [G] get none, and when the uploader
    is one of the [n] members there are [n - 1] of them for each entry
    of [G]. *)
Theorem post_api_images_notifies
        (now : Z) (user : User.t) (req : UploadRequest) (filename : string)
        (st : Store) :
  file req = Some filename ->
  NoDup (map User.id (users st)) ->
  In user (users st) ->
  (forall v, In v (named_ids (userIds req)) -> user_exists st v) ->
  (forall G, In G (named_ids (groupIds req)) ->
             exists g, In g (groups st) /\ Group.id g = G) ->
  exists image created,
    fst (post_api_images now user req st) = mkResponse 201 (JsonImage image)
    /\ images (snd (post_api_images now user req st)) = images st ++ [image]
    /\ notifications (snd (post_api_images now user req st))
       = notifications st ++ created
    /\ Forall (fun n => Notification.type n = image_share
                       /\ Notification.imageId n = Some (Image.id image)
                       /\ Notification.senderId n = Some (User.id user))
              created
    /\ map recipient_and_group created
       = map (fun v => (v, None)) (named_ids (userIds req))
         ++ flat_map (fun G => map (fun m => (User.id m, Some G))
                                   (members_to_notify st user G))
                     (named_ids (groupIds req))
    /\ (forall G m, In m (users st) -> is_member st G (User.id m) ->
                    User.id m <> User.id user ->
                    notified (of_group created G) (User.id m)
                    = count_occ Z.eq_dec (named_ids (groupIds req)) G)
    /\ (forall G, notified (of_group created G) (User.id user) = 0%nat)
    /\ (forall G uid, ~ is_member st G uid ->
                      notified (of_group created G) uid = 0%nat)
    /\ (forall G members,
          NoDup members ->
          (forall uid, In uid members <-> user_exists st uid /\ is_member st G uid) ->
          In (User.id user) members ->
          List.length (of_group created G)
          = (count_occ Z.eq_dec (named_ids (groupIds req)) G
             * (List.length members - 1))%nat).
Proof.
  intros Hfile Hpk Huser Hus Hgs.
  set (us := named_ids (userIds req)) in *.
  set (gs := named_ids (groupIds req)) in *.
  assert (Hru : references User.id (users st) (User.id user) = true).
  { apply references_true. eauto. }
  remember (post_api_images now user req st) as r eqn:Er.
  unfold post_api_images, try_catch in Er. rewrite Hfile in Er.
  cbv zeta in Er. unfold bind at 1 in Er. unfold createImage in Er.
  cbn [InsertImage.userId InsertImage.path InsertImage.description] in Er.
  rewrite Hru in Er.
  match type of Er with
  | context [Image.mk ?a ?b ?c ?d ?e] => set (image := Image.mk a b c d e) in *
  end.
  match type of Er with
  | context [set_sequence ?a ?b] => set (st1 := set_sequence a b) in *
  end.
  assert (Hi1 : references Image.id (images st1) (Image.id image) = true).
  { apply references_true. exists image. split; [|reflexivity].
    unfold st1. simpl. apply in_or_app. right. now left. }
  assert (Hrun : exists st' created,
             bind (for_of us (share_with_user now user image))
                  (fun _ => for_of gs (share_with_group now user image)) st1
             = (inr tt, st')
             /\ images st' = images st1
             /\ notifications st' = notifications st ++ created
             /\ Forall (fun n => Notification.type n = image_share
                                /\ Notification.imageId n = Some (Image.id image)
                                /\ Notification.senderId n = Some (User.id user))
                       created
             /\ map recipient_and_group created
                = map (fun v => (v, None)) us
                  ++ flat_map (fun G => map (fun m => (User.id m, Some G))
                                            (members_to_notify st user G)) gs).
  { destruct (share_with_users_run now user image us st1)
      as (s2 & c1 & Hr1 & F1 & Hn1 & Hp1 & Hf1); [exact Huser | exact Hi1 | |].
    { intros v Hv. apply user_exists_references. now apply Hus. }
    pose proof F1 as (Fu & Fi & Fg & _).
    destruct (share_with_groups_run now user image gs s2)
      as (s3 & c2 & Hr2 & F2 & Hn2 & Hp2 & Hf2).
    { now rewrite Fu. }
    { now rewrite Fi. }
    { intros G HG. rewrite Fg. apply references_true. now apply Hgs. }
    exists s3, (c1 ++ c2). unfold bind. rewrite Hr1, Hr2.
    split; [reflexivity|].
    split; [destruct F2 as (_ & Fi2 & _); now rewrite Fi2, Fi|].
    split; [rewrite Hn2, Hn1, <- app_assoc; reflexivity|].
    split; [now apply Forall_app|].
    rewrite map_app, Hp1, Hp2. f_equal.
    apply flat_map_ext. intros w. unfold members_to_notify.
    rewrite (getGroupMembers_same st1 s2 w F1). reflexivity. }
  destruct Hrun as (st' & created & Hrun & Him & Hn & Hall & Hpairs).
  assert (Hshape : exists st'' created',
             r = (mkResponse 201 (JsonImage image), st'')
             /\ images st'' = images st1
             /\ notifications st'' = notifications st ++ created'
             /\ Forall (fun n => Notification.type n = image_share
                                /\ Notification.imageId n = Some (Image.id image)
                                /\ Notification.senderId n = Some (User.id user))
                       created'
             /\ map recipient_and_group created'
                = map (fun v => (v, None)) us
                  ++ flat_map (fun G => map (fun m => (User.id m, Some G))
                                            (members_to_notify st user G)) gs).
  { unfold us, gs, named_ids in *.
    destruct (userIds req) as [ul|], (groupIds req) as [gl|];
      try (exists st', created; unfold bind at 1 in Er; rewrite Hrun in Er;
           repeat split; assumption).
    exists st1, []. unfold bind, ret in Er.
    repeat split; [exact Er | simpl; now rewrite app_nil_r | constructor]. }
  clear Hrun Him Hn Hall Hpairs st' created.
  destruct Hshape as (st' & created & -> & Him & Hn & Hall & Hpairs).
  exists image, created. cbn [fst snd].
  split; [reflexivity|]. split; [exact Him|]. split; [exact Hn|].
  split; [exact Hall|]. split; [exact Hpairs|].
  assert (Hcount : forall G uid,
            notified (of_group created G) uid
            = (count_occ Z.eq_dec gs G
               * List.length (filter (fun y => (y =? uid)%Z)
                                (map User.id (members_to_notify st user G))))%nat).
  { intros G uid. rewrite notified_of_group, Hpairs, filter_app, length_app.
    rewrite (count_direct_shares G (fun p => fst p =? uid)).
    rewrite (count_group_shares G (fun p => fst p =? uid)
               (members_to_notify st user)).
    now rewrite count_member_pairs. }
  split; [|split; [|split]].
  - intros G m Hm Hmem Hne. rewrite Hcount.
    destruct (members_to_notify_ids st user G Hpk) as [Hnd Hin].
    rewrite count_NoDup; [lia | assumption |].
    apply Hin. split; [assumption|]. split; [exists m; auto | assumption].
  - intros G. rewrite Hcount.
    destruct (members_to_notify_ids st user G Hpk) as [Hnd Hin].
    rewrite count_absent; [lia|].
    intros H. apply Hin in H as [Hne _]. congruence.
  - intros G uid Hout. rewrite Hcount.
    destruct (members_to_notify_ids st user G Hpk) as [Hnd Hin].
    rewrite count_absent; [lia|].
    intros H. apply Hin in H as [_ [_ H]]. contradiction.
  - intros G members Hndm Hmembers Hup.
    destruct (members_to_notify_ids st user G Hpk) as [Hnd Hin].
    assert (Hlen : S (List.length (members_to_notify st user G))
                   = List.length members).
    { rewrite <- (length_filter_others members (User.id user)) by assumption.
      f_equal. rewrite <- (length_map User.id).
      apply Permutation_length. apply NoDup_Permutation.
      - assumption.
      - now apply NoDup_filter.
      - intros uid. rewrite Hin, filter_In, Hmembers, negb_true_iff, Z.eqb_neq.
        tauto. }
    rewrite length_of_group, Hpairs, filter_app, length_app.
    assert (Hq : forall l : list (Z * option Z),
               filter (fun p => eq_nullable (snd p) G) l
               = filter (fun p => eq_nullable (snd p) G && true) l).
    { intros l. apply filter_ext. intros p. now rewrite andb_true_r. }
    rewrite !Hq.
    rewrite (count_direct_shares G (fun _ => true)).
    rewrite (count_group_shares G (fun _ => true) (members_to_notify st user)).
    rewrite count_all_pairs, <- Hlen. simpl. f_equal. lia.
Qed.

Lemma post_api_images_notifies_witness :
  let req := mkUploadRequest (Some "b.png"%string) None None (Some [4]) in
  exists image created,
    fst (post_api_images 9 ann req store_group) = mkResponse 201 (JsonImage image)
    /\ notifications (snd (post_api_images 9 ann req store_group))
       = notifications store_group ++ created
    /\ map recipient_and_group created = [(2, Some 4); (3, Some 4)]
    /\ notified (of_group created 4) 2 = 1%nat
    /\ notified (of_group created 4) 3 = 1%nat
    /\ notified (of_group created 4) 1 = 0%nat
    /\ List.length (of_group created 4) = 2%nat.
Proof.
  cbv zeta.
  destruct (post_api_images_notifies 9 ann
              (mkUploadRequest (Some "b.png"%string) None None (Some [4]))
              "b.png" store_group)
    as (image & created & Hr & _ & Hn & _ & Hp & Hone & Hnone & _ & Hlen).
  - reflexivity.
  - simpl. repeat constructor; simpl; intuition discriminate.
  - simpl. auto.
  - intros v [].
  - intros G [<- | []]. exists (Group.mk 4 "trip" None 1 0). simpl. auto.
  - exists image, created.
    split; [exact Hr|]. split; [exact Hn|]. split; [exact Hp|].
    split; [|split; [|split]].
    + apply (Hone 4 bob); simpl; [auto | | discriminate].
      exists (GroupMember.mk 2 4 2 0). simpl. auto.
    + apply (Hone 4 cat); simpl; [auto | | discriminate].
      exists (GroupMember.mk 3 4 3 0). simpl. auto.
    + apply (Hnone 4).
    + apply (Hlen 4 [1; 2; 3]).
      * repeat constructor; simpl; intuition discriminate.
      * intros uid. simpl. split.
        -- intros [<- | [<- | [<- | []]]].
           ++ split; [exists ann | exists (GroupMember.mk 1 4 1 0)]; simpl; auto.
           ++ split; [exists bob | exists (GroupMember.mk 2 4 2 0)]; simpl; auto.
           ++ split; [exists cat | exists (GroupMember.mk 3 4 3 0)]; simpl; auto.
        -- intros [[u [Hu <-]] _]. simpl in Hu.
           destruct Hu as [<- | [<- | [<- | []]]]; simpl; auto.
      * simpl. auto.
Defined.

(* ===================================================================== *)
(** ** Inserts and the lookups by id *)
(* ===================================================================== *)

Lemma next_id_above (ids : list Z) (seq x : Z) : In x ids -> x < next_id ids seq.
Proof.
  unfold next_id. induction ids as [|y ids IH]; [intros []|].
  cbn [fold_right]. intros [->|H]; [lia|]. specialize (IH H). lia.
Qed.

Lemma next_id_above_seq (ids : list Z) (seq : Z) :
  0 < next_id ids seq /\ seq < next_id ids seq.
Proof.
  unfold next_id. induction ids as [|y ids IH]; cbn [fold_right]; lia.
Qed.

Section LookupAfterInsert.
Context {Row : Type} (key : Row -> Z).

Lemma lookup_inserted (rows : list Row) (row : Row) :
  (forall r, In r rows -> key r <> key row) ->
  first_row (limit 1 (filter (fun r => key r =? key row) (rows ++ [row])))
  = Some row.
Proof.
  intros H. rewrite filter_app, (filter_none _ rows).
  - cbn [filter app]. rewrite Z.eqb_refl. reflexivity.
  - intros r Hr. apply Z.eqb_neq. apply H. exact Hr.
Qed.

Lemma lookup_others (rows : list Row) (row : Row) (k : Z) :
  k <> key row ->
  first_row (limit 1 (filter (fun r => key r =? k) (rows ++ [row])))
  = first_row (limit 1 (filter (fun r => key r =? k) rows)).
Proof.
  intros H. rewrite filter_app. cbn [filter].
  replace (key row =? k) with false
    by (symmetry; apply Z.eqb_neq; congruence).
  rewrite app_nil_r. reflexivity.
Qed.
End LookupAfterInsert.

(** X4. An upload without a file is refused with 400 and writes
    nothing; one by a caller without a row in [users] fails with 500 and
    writes nothing.  Otherwise the image row of the uploader is stored
    under a fresh id and stays stored whether the shares that follow
    succeed (201) or one of them fails (500): the row can be read back
    by its id and its owner has access to it. *)
Theorem post_api_images_keeps_the_upload
        (now : Z) (user : User.t) (req : UploadRequest) (st : Store) :
  match file req with
  | None =>
      post_api_images now user req st
      = (mkResponse 400 (JsonMessage "No image file uploaded"), st)
  | Some filename =>
      if references User.id (users st) (User.id user)
      then
        exists row,
          images (snd (post_api_images now user req st)) = images st ++ [row]
          /\ Image.userId row = User.id user
          /\ Image.path row = ("/uploads/" ++ filename)%string
          /\ (forall i, In i (images st) -> Image.id i < Image.id row)
          /\ getImage (snd (post_api_images now user req st)) (Image.id row)
             = Some row
          /\ userHasImageAccess (snd (post_api_images now user req st))
               (User.id user) (Image.id row) = true
          /\ (fst (post_api_images now user req st)
              = mkResponse 201 (JsonImage row)
              \/ fst (post_api_images now user req st)
                 = mkResponse 500 (JsonMessage "Failed to upload image"))
      else
        post_api_images now user req st
        = (mkResponse 500 (JsonMessage "Failed to upload image"), st)
  end.
Proof.
  remember (post_api_images now user req st) as r eqn:Er.
  unfold post_api_images, try_catch in Er.
  destruct (file req) as [filename|]; [|exact Er].
  cbv zeta in Er. unfold bind at 1 in Er. unfold createImage in Er.
  cbn [InsertImage.userId InsertImage.path InsertImage.description] in Er.
  destruct (references User.id (users st) (User.id user)); [|exact Er].
  match type of Er with
  | context [Image.mk ?a ?b ?c ?d ?e] => set (row := Image.mk a b c d e) in *
  end.
  match type of Er with
  | context [set_sequence ?a ?b] => set (st1 := set_sequence a b) in *
  end.
  match type of Er with
  | context [bind ?m ?k st1] =>
      assert (F : same_but_shares st1 (snd (bind m k st1)));
      [ apply bind_keeps; [exact same_but_shares_trans | | intros _ s; apply same_but_shares_refl]
      | destruct (bind m k st1) as [[e|res] st'] eqn:Em ]
  end.
  { destruct (userIds req) as [us|], (groupIds req) as [gs|];
      try (apply bind_keeps; [exact same_but_shares_trans | |]);
      try (intros _ s);
      try (apply for_of_keeps;
           [exact same_but_shares_refl | exact same_but_shares_trans
           | intros x s'; first [apply share_with_user_frame
                                | apply share_with_group_frame]]);
      apply same_but_shares_refl. }
  - cbn [snd] in F. destruct F as (_ & F2 & _ & _). subst r. cbn [fst snd].
    exists row. rewrite F2. cbn [images st1 set_sequence set_images].
    assert (Hf : forall i, In i (images st) -> Image.id i < Image.id row).
    { intros i Hi. apply next_id_above. apply in_map. exact Hi. }
    split; [reflexivity|]. split; [reflexivity|]. split; [reflexivity|].
    split; [exact Hf|]. split.
    + unfold getImage. rewrite F2. cbn [images st1 set_sequence set_images].
      apply (lookup_inserted Image.id). intros i Hi. specialize (Hf i Hi). lia.
    + split; [|right; reflexivity].
      apply (owner_has_access st' row). rewrite F2.
      cbn [images st1 set_sequence set_images]. apply in_or_app. right.
      left. reflexivity.
  - cbn [snd] in F. destruct F as (_ & F2 & _ & _). subst r. cbn [fst snd].
    unfold ret in Em. 
    exists row. rewrite F2. cbn [images st1 set_sequence set_images].
    assert (Hf : forall i, In i (images st) -> Image.id i < Image.id row).
    { intros i Hi. apply next_id_above. apply in_map. exact Hi. }
    split; [reflexivity|]. split; [reflexivity|]. split; [reflexivity|].
    split; [exact Hf|]. split.
    + unfold getImage. rewrite F2. cbn [images st1 set_sequence set_images].
      apply (lookup_inserted Image.id). intros i Hi. specialize (Hf i Hi). lia.
    + split.
      * apply (owner_has_access st' row). rewrite F2.
        cbn [images st1 set_sequence set_images]. apply in_or_app. right.
        left. reflexivity.
      * left. unfold bind in Em.
        destruct (match userIds req with _ => _ end st1) as [[e|u] s];
          [discriminate|]. injection Em as <- _. reflexivity.
Qed.

(** A share with an unknown user fails the request, and the image row is
    stored all the same. *)
Example upload_kept_after_failed_share :
  let req := mkUploadRequest (Some "a.png"%string) None (Some [99]) None in
  fst (post_api_images 9 ann req store_two_users)
  = mkResponse 500 (JsonMessage "Failed to upload image")
  /\ List.length (images (snd (post_api_images 9 ann req store_two_users))) = 1%nat
  /\ imageShares (snd (post_api_images 9 ann req store_two_users)) = [].
Proof. repeat split. Qed.

(* ===================================================================== *)
(** ** The handlers of one image *)
(* ===================================================================== *)

Lemma getImage_In (st : Store) (id : Z) (image : Image.t) :
  getImage st id = Some image -> In image (images st) /\ Image.id image = id.
Proof.
  intros H. apply first_row_filter_Some in H. destruct H as [H1 H2].
  apply Z.eqb_eq in H2. split; assumption.
Qed.

(** X5. [GET /api/images/:id] never writes; it answers 404 when no
    image has the id, and otherwise 200 with [getImageWithShares]
    exactly when [userHasImageAccess] holds for the caller, 403 when it
    does not. *)
Theorem get_api_images_id_authorization
        (ne_null : option Z -> bool) (user : User.t) (imageId : Z) (st : Store) :
  snd (get_api_images_id ne_null user imageId st) = st
  /\ fst (get_api_images_id ne_null user imageId st)
     = match getImage st imageId with
       | None => mkReply 404 (BodyMessage "Image not found")
       | Some _ =>
           if userHasImageAccess st (User.id user) imageId
           then mkReply 200
                  (BodyImageWithShares (getImageWithShares ne_null st imageId))
           else mkReply 403 (BodyMessage "You don't have access to this image")
       end.
Proof.
  unfold get_api_images_id, try_catch, bind, query, ret. cbv zeta.
  destruct (getImage st imageId) as [image|] eqn:E; [|split; reflexivity].
  destruct (Z.eqb_spec (Image.userId image) (User.id user)) as [Ho|Ho];
    cbn [negb].
  - apply getImage_In in E. destruct E as [E1 E2].
    pose proof (owner_has_access st image E1) as Ha.
    rewrite Ho, E2 in Ha. rewrite Ha. split; reflexivity.
  - destruct (userHasImageAccess st (User.id user) imageId);
      split; reflexivity.
Qed.

Lemma filter_filter_implied {A : Type} (p q : A -> bool) (l : list A) :
  (forall x, p x = true -> q x = true) -> filter p (filter q l) = filter p l.
Proof.
  intros H. induction l as [|x l IH]; [reflexivity|].
  cbn [filter]. destruct (q x) eqn:Eq; cbn [filter].
  - rewrite IH. reflexivity.
  - destruct (p x) eqn:Ep; [|exact IH].
    rewrite (H x Ep) in Eq. discriminate.
Qed.

(** X6. [DELETE /api/images/:id] writes only for the owner of the
    image: an unknown id is answered 404, another user's image 403, and
    a failure to remove the file 500, each with the store untouched.
    For the owner the answer is 200 and the store is the one
    [deleteImage] leaves: the image cannot be read back, no share names
    it, and every other image is read back as before. *)
Theorem delete_api_images_id_owner_only
        (unlink : Error + unit) (user : User.t) (imageId : Z) (st : Store) :
  match getImage st imageId with
  | None =>
      delete_api_images_id unlink user imageId st
      = (mkReply 404 (BodyMessage "Image not found"), st)
  | Some image =>
      if Image.userId image =? User.id user
      then
        match unlink with
        | inl _ =>
            delete_api_images_id unlink user imageId st
            = (mkReply 500 (BodyMessage "Failed to delete image"), st)
        | inr _ =>
            delete_api_images_id unlink user imageId st
            = (mkReply 200 (BodyMessage "Image deleted successfully"),
               snd (deleteImage imageId st))
            /\ getImage (snd (deleteImage imageId st)) imageId = None
            /\ (forall s, In s (imageShares (snd (deleteImage imageId st))) ->
                          ImageShare.imageId s <> imageId)
            /\ (forall j, j <> imageId ->
                  getImage (snd (deleteImage imageId st)) j = getImage st j)
        end
      else
        delete_api_images_id unlink user imageId st
        = (mkReply 403 (BodyMessage "You can only delete your own images"), st)
  end.
Proof.
  unfold delete_api_images_id, try_catch, bind, query, query_or_throw, ret.
  cbv zeta.
  destruct (getImage st imageId) as [image|] eqn:E; [|reflexivity].
  destruct (Image.userId image =? User.id user); cbn [negb]; [|reflexivity].
  destruct unlink as [e|[]]; [reflexivity|].
  rewrite deleteImage_run. cbn [fst snd].
  split; [reflexivity|]. split; [|split].
  - unfold getImage. cbn [images].
    rewrite filter_none; [reflexivity|].
    intros i Hi. apply filter_In in Hi. destruct Hi as [_ Hi].
    destruct (Image.id i =? imageId); [discriminate | reflexivity].
  - intros s Hs. cbn [imageShares] in Hs. apply filter_In in Hs.
    destruct Hs as [_ Hs]. intros Heq. rewrite Heq, Z.eqb_refl in Hs.
    discriminate.
  - intros j Hj. unfold getImage. cbn [images].
    rewrite filter_filter_implied; [reflexivity|].
    intros i Hi. apply Z.eqb_eq in Hi.
    destruct (Z.eqb_spec (Image.id i) imageId); [congruence | reflexivity].
Qed.

(* ===================================================================== *)
(** ** Friends *)
(* ===================================================================== *)

Lemma status_eqb_eq (a b : FriendStatus) : status_eqb a b = true <-> a = b.
Proof. destruct a, b; cbn; split; congruence. Qed.

Lemma getUserFriends_In (st : Store) (u : Z) (e : FriendWithUser.t) :
  In e (getUserFriends st u) <->
  exists f, In f (friends st)
            /\ Friend.status f = accepted
            /\ (Friend.requesterId f = u \/ Friend.addresseeId f = u)
            /\ e = FriendWithUser.mk f (getUser st (other_party f u)).
Proof.
  unfold getUserFriends. cbv zeta. rewrite in_map_iff. split.
  - intros (f & He & Hf). apply filter_In in Hf. destruct Hf as [Hf Hc].
    apply andb_true_iff in Hc. destruct Hc as [Hp Hs].
    apply status_eqb_eq in Hs. apply orb_true_iff in Hp.
    exists f. repeat split; try assumption.
    + destruct Hp as [Hp|Hp]; apply Z.eqb_eq in Hp; [left|right]; exact Hp.
    + symmetry. exact He.
  - intros (f & Hf & Hs & Hp & He). exists f. split; [symmetry; exact He|].
    apply filter_In. split; [exact Hf|].
    apply andb_true_iff. split; [|apply status_eqb_eq; exact Hs].
    apply orb_true_iff. destruct Hp as [Hp|Hp]; [left|right];
      apply Z.eqb_eq; exact Hp.
Qed.

Lemma friend_ids_In (st : Store) (a b : Z) :
  In b (friend_ids st a) <->
  exists f, In f (friends st)
            /\ Friend.status f = accepted
            /\ ((Friend.requesterId f = a /\ Friend.addresseeId f = b)
                \/ (Friend.requesterId f = b /\ Friend.addresseeId f = a)).
Proof.
  unfold friend_ids. rewrite in_map_iff. split.
  - intros (e & Hb & He). apply getUserFriends_In in He.
    destruct He as (f & Hf & Hs & Hp & ->). cbn [FriendWithUser.base] in Hb.
    exists f. split; [exact Hf|]. split; [exact Hs|].
    unfold other_party in Hb.
    destruct (Z.eqb_spec (Friend.requesterId f) a) as [E|E].
    + left. split; assumption.
    + right. destruct Hp as [Hp|Hp]; [contradiction|]. split; assumption.
  - intros (f & Hf & Hs & Hp).
    exists (FriendWithUser.mk f (getUser st (other_party f a))).
    cbn [FriendWithUser.base]. split.
    + unfold other_party.
      destruct (Z.eqb_spec (Friend.requesterId f) a) as [E|E];
        destruct Hp as [[H1 H2]|[H1 H2]]; congruence.
    + apply getUserFriends_In. exists f. repeat split; try assumption.
      destruct Hp as [[H1 H2]|[H1 H2]]; [left|right]; assumption.
Qed.

(** X7. The list of friends is mutual: [getUserFriends] lists [b] for
    [a] exactly when an accepted row links the two, in either direction,
    hence exactly when it lists [a] for [b].  When the rows of [friends]
    name existing users, the user attached to an entry is the other
    party of its row. *)
Theorem getUserFriends_mutual (st : Store) (a b : Z) :
  (In b (friend_ids st a) <->
   exists f, In f (friends st)
             /\ Friend.status f = accepted
             /\ ((Friend.requesterId f = a /\ Friend.addresseeId f = b)
                 \/ (Friend.requesterId f = b /\ Friend.addresseeId f = a)))
  /\ (In b (friend_ids st a) <-> In a (friend_ids st b))
  /\ (friends_reference_users st ->
      forall e, In e (getUserFriends st a) ->
                exists x, FriendWithUser.user e = Some x
                          /\ User.id x = other_party (FriendWithUser.base e) a).
Proof.
  split; [apply friend_ids_In|]. split.
  - rewrite !friend_ids_In.
    split; intros (f & Hf & Hs & Hp); exists f; repeat split; try assumption;
      destruct Hp as [Hp|Hp]; [right|left|right|left]; exact Hp.
  - intros Hfk e He. apply getUserFriends_In in He.
    destruct He as (f & Hf & Hs & Hp & ->).
    cbn [FriendWithUser.user FriendWithUser.base].
    destruct (Hfk f Hf) as [Hr Ha].
    assert (Ho : user_exists st (other_party f a)).
    { unfold other_party. destruct (Friend.requesterId f =? a); assumption. }
    apply user_exists_references in Ho.
    unfold getUser.
    destruct (first_row _) as [x|] eqn:E.
    + exists x. split; [reflexivity|].
      apply first_row_filter_Some in E. destruct E as [_ E].
      apply Z.eqb_eq. exact E.
    + apply first_row_filter_None in E. unfold references in Ho.
      rewrite Ho in E. discriminate.
Qed.

Lemma getFriendRequests_In (st : Store) (u : Z) (e : FriendWithUser.t) :
  In e (getFriendRequests st u) <->
  exists f, In f (friends st)
            /\ Friend.addresseeId f = u /\ Friend.status f = pending
            /\ e = FriendWithUser.mk f (getUser st (Friend.requesterId f)).
Proof.
  unfold getFriendRequests. cbv zeta. rewrite in_map_iff. split.
  - intros (f & He & Hf). apply filter_In in Hf. destruct Hf as [Hf Hc].
    apply andb_true_iff in Hc. destruct Hc as [Hp Hs].
    apply status_eqb_eq in Hs. apply Z.eqb_eq in Hp.
    exists f. repeat split; try assumption. symmetry. exact He.
  - intros (f & Hf & Hp & Hs & He). exists f. split; [symmetry; exact He|].
    apply filter_In. split; [exact Hf|].
    apply andb_true_iff. split; [apply Z.eqb_eq; exact Hp|].
    apply status_eqb_eq. exact Hs.
Qed.

(** Table [friends] after [POST /api/friends/request]. *)
Lemma post_api_friends_request_tables
      (now : Z) (user : User.t) (a : Z) (st : Store) :
  users (snd (post_api_friends_request now user a st)) = users st
  /\ friends (snd (post_api_friends_request now user a st))
     = if User.id user =? a then friends st
       else match getFriendship st (User.id user) a with
            | Some _ => friends st
            | None =>
                if references User.id (users st) (User.id user)
                   && references User.id (users st) a
                then friends st
                       ++ [Friend.mk
                             (next_id (map Friend.id (friends st))
                                      (seq_friends (sqlite_sequence st)))
                             (User.id user) a pending (timestamp_to_driver now)]
                else friends st
            end.
Proof.
  remember (post_api_friends_request now user a st) as r eqn:Er.
  unfold post_api_friends_request, try_catch in Er. cbv zeta in Er.
  destruct (User.id user =? a); [subst r; split; reflexivity|].
  unfold bind at 1 in Er. unfold query at 1 in Er.
  destruct (getFriendship st (User.id user) a); [subst r; split; reflexivity|].
  unfold bind at 1 in Er. unfold createFriend in Er.
  cbn [InsertFriend.requesterId InsertFriend.addresseeId] in Er.
  destruct (_ && _); [|subst r; split; reflexivity].
  match type of Er with
  | context [bind (createNotification now ?n) ?k ?s1] =>
      pose proof (createNotification_frame now n s1) as F;
      unfold bind, ret in Er; destruct (createNotification now n s1) as [[e|x] s2]
  end; subst r; cbn [snd] in *; destruct F as (F1 & _ & F3 & _);
    rewrite F1, F3; split; reflexivity.
Qed.

(** Table [friends] after an answer of the addressee. *)
Lemma put_api_friends_requests_tables
      (now : Z) (user : User.t) (rid : Z) (status : string) (answer : Answer)
      (request : Friend.t) (st : Store) :
  parse_answer status = Some answer ->
  getFriendRequest st rid = Some request ->
  Friend.addresseeId request = User.id user ->
  users (snd (put_api_friends_requests now user rid status st)) = users st
  /\ friends (snd (put_api_friends_requests now user rid status st))
     = map (fun f => if Friend.id f =? rid
                     then set_status f (status_of_answer answer) else f)
           (friends st).
Proof.
  intros Hp Hr Ha.
  remember (put_api_friends_requests now user rid status st) as r eqn:Er.
  unfold put_api_friends_requests, try_catch in Er. rewrite Hp in Er.
  unfold bind at 1 in Er. unfold query at 1 in Er.
  rewrite Hr, Ha, Z.eqb_refl in Er. cbn [negb] in Er.
  unfold bind at 1 in Er. unfold updateFriendRequest in Er. cbv zeta in Er.
  match type of Er with
  | context [bind (createNotification now ?n) ?k ?s1] =>
      pose proof (createNotification_frame now n s1) as F;
      unfold bind, ret in Er; destruct (createNotification now n s1) as [[e|x] s2]
  end; subst r; cbn [snd] in *; destruct F as (F1 & _ & F3 & _);
    rewrite F1, F3; split; reflexivity.
Qed.

Lemma getFriendRequest_In (st : Store) (rid : Z) (request : Friend.t) :
  getFriendRequest st rid = Some request ->
  In request (friends st) /\ Friend.id request = rid.
Proof.
  intros H. apply first_row_filter_Some in H. destruct H as [H1 H2].
  apply Z.eqb_eq in H2. split; assumption.
Qed.

(** X8. When the addressee accepts a request, each of the two users is
    in the other's list of friends; when they decline, no list of
    friends shows the request.  Either way the request leaves every list
    of pending requests. *)
Theorem answered_request_leaves_the_pending_list
        (now : Z) (user : User.t) (rid : Z) (request : Friend.t) (st : Store) :
  getFriendRequest st rid = Some request ->
  Friend.addresseeId request = User.id user ->
  (In (Friend.requesterId request)
      (friend_ids (snd (put_api_friends_requests now user rid "accepted" st))
                  (User.id user))
   /\ In (User.id user)
         (friend_ids (snd (put_api_friends_requests now user rid "accepted" st))
                     (Friend.requesterId request))
   /\ forall u e,
        In e (getFriendRequests
                (snd (put_api_friends_requests now user rid "accepted" st)) u) ->
        Friend.id (FriendWithUser.base e) <> rid)
  /\ (forall u e,
        In e (getUserFriends
                (snd (put_api_friends_requests now user rid "declined" st)) u) ->
        Friend.id (FriendWithUser.base e) <> rid)
  /\ (forall u e,
        In e (getFriendRequests
                (snd (put_api_friends_requests now user rid "declined" st)) u) ->
        Friend.id (FriendWithUser.base e) <> rid).
Proof.
  intros Hr Ha.
  destruct (put_api_friends_requests_tables now user rid "accepted"
              answer_accepted request st eq_refl Hr Ha) as [_ Hacc].
  destruct (put_api_friends_requests_tables now user rid "declined"
              answer_declined request st eq_refl Hr Ha) as [_ Hdec].
  cbn [status_of_answer] in Hacc, Hdec.
  destruct (getFriendRequest_In _ _ _ Hr) as [Hin Hid].
  assert (Hrow : In (set_status request accepted)
                    (friends (snd (put_api_friends_requests now user rid
                                     "accepted" st)))).
  { rewrite Hacc. apply in_map_iff. exists request.
    rewrite Hid, Z.eqb_refl. split; [reflexivity | exact Hin]. }
  split; [split; [|split]|split].
  - apply friend_ids_In. exists (set_status request accepted).
    split; [exact Hrow|]. split; [reflexivity|]. right. split;
      [reflexivity | exact Ha].
  - apply friend_ids_In. exists (set_status request accepted).
    split; [exact Hrow|]. split; [reflexivity|]. left. split;
      [reflexivity | exact Ha].
  - intros u e He. apply getFriendRequests_In in He.
    destruct He as (f & Hf & _ & Hs & ->). cbn [FriendWithUser.base].
    rewrite Hacc in Hf. apply in_map_iff in Hf. destruct Hf as (g & Hg & _).
    destruct (Z.eqb_spec (Friend.id g) rid) as [E|E]; subst f.
    + discriminate Hs.
    + exact E.
  - intros u e He. apply getUserFriends_In in He.
    destruct He as (f & Hf & Hs & _ & ->). cbn [FriendWithUser.base].
    rewrite Hdec in Hf. apply in_map_iff in Hf. destruct Hf as (g & Hg & _).
    destruct (Z.eqb_spec (Friend.id g) rid) as [E|E]; subst f.
    + discriminate Hs.
    + exact E.
  - intros u e He. apply getFriendRequests_In in He.
    destruct He as (f & Hf & _ & Hs & ->). cbn [FriendWithUser.base].
    rewrite Hdec in Hf. apply in_map_iff in Hf. destruct Hf as (g & Hg & _).
    destruct (Z.eqb_spec (Friend.id g) rid) as [E|E]; subst f.
    + discriminate Hs.
    + exact E.
Qed.

Lemma answered_request_leaves_the_pending_list_witness :
  (In 1 (friend_ids (snd (put_api_friends_requests 9 bob 1 "accepted"
                            store_pending)) 2)
   /\ In 2 (friend_ids (snd (put_api_friends_requests 9 bob 1 "accepted"
                               store_pending)) 1)
   /\ forall u e,
        In e (getFriendRequests
                (snd (put_api_friends_requests 9 bob 1 "accepted"
                        store_pending)) u) ->
        Friend.id (FriendWithUser.base e) <> 1)
  /\ (forall u e,
        In e (getUserFriends
                (snd (put_api_friends_requests 9 bob 1 "declined"
                        store_pending)) u) ->
        Friend.id (FriendWithUser.base e) <> 1)
  /\ (forall u e,
        In e (getFriendRequests
                (snd (put_api_friends_requests 9 bob 1 "declined"
                        store_pending)) u) ->
        Friend.id (FriendWithUser.base e) <> 1).
Proof.
  exact (answered_request_leaves_the_pending_list 9 bob 1
           (Friend.mk 1 1 2 pending 0) store_pending eq_refl eq_refl).
Defined.

Section UniqueKey.
Context {Row : Type} (key : Row -> Z).

(** In a table with distinct keys, the lookup by key finds the row. *)
Lemma lookup_row (rows : list Row) (row : Row) :
  NoDup (map key rows) -> In row rows ->
  first_row (limit 1 (filter (fun r => key r =? key row) rows)) = Some row.
Proof.
  induction rows as [|x rows IH]; [intros _ []|].
  cbn [map]. intros Hn Hin. inversion Hn as [|k ks Hx Hn']; subst.
  cbn [filter]. destruct Hin as [->|Hin].
  - rewrite Z.eqb_refl. reflexivity.
  - destruct (Z.eqb_spec (key x) (key row)) as [E|E].
    + exfalso. apply Hx. rewrite E. apply in_map. exact Hin.
    + apply IH; assumption.
Qed.
End UniqueKey.

Lemma getUser_same_users (st st' : Store) (k : Z) :
  users st' = users st -> getUser st' k = getUser st k.
Proof. intros H. unfold getUser. rewrite H. reflexivity. Qed.

(** X9. A friend request that is accepted for sending (the two users
    exist and differ, and no row links them yet) shows up as the last
    entry of the addressee's pending requests, with the sender attached;
    the pending requests of everybody else and all lists of friends stay
    as they were. *)
Theorem friend_request_reaches_addressee
        (now : Z) (user : User.t) (a : Z) (st : Store) :
  NoDup (map User.id (users st)) ->
  In user (users st) ->
  user_exists st a ->
  User.id user <> a ->
  ~ friendship_exists st (User.id user) a ->
  exists f,
    getFriendRequests (snd (post_api_friends_request now user a st)) a
    = getFriendRequests st a ++ [FriendWithUser.mk f (Some user)]
    /\ Friend.requesterId f = User.id user
    /\ Friend.addresseeId f = a
    /\ Friend.status f = pending
    /\ (forall u, u <> a ->
          getFriendRequests (snd (post_api_friends_request now user a st)) u
          = getFriendRequests st u)
    /\ (forall u,
          getUserFriends (snd (post_api_friends_request now user a st)) u
          = getUserFriends st u).
Proof.
  intros Hn Hu Ha Hne Hno.
  destruct (post_api_friends_request_tables now user a st) as [Tu Tf].
  apply getFriendship_None in Hno.
  assert (Ru : references User.id (users st) (User.id user) = true).
  { apply references_true. exists user. split; [exact Hu | reflexivity]. }
  pose proof (user_exists_references _ _ Ha) as Ra.
  apply Z.eqb_neq in Hne. rewrite Hne, Hno, Ru, Ra in Tf. cbn [andb] in Tf.
  eexists. split; [|split; [|split; [|split; [|split]]]].
  - unfold getFriendRequests. cbv zeta. rewrite Tf, filter_app, map_app.
    cbn [filter Friend.addresseeId Friend.status status_eqb].
    rewrite Z.eqb_refl. cbn [andb map Friend.requesterId].
    f_equal.
    + apply map_ext. intros f. rewrite (getUser_same_users _ _ _ Tu).
      reflexivity.
    + rewrite (getUser_same_users _ _ _ Tu). unfold getUser.
      rewrite (lookup_row User.id _ _ Hn Hu). reflexivity.
  - reflexivity.
  - reflexivity.
  - reflexivity.
  - intros u Hua. unfold getFriendRequests. cbv zeta.
    rewrite Tf, filter_app, map_app.
    cbn [filter Friend.addresseeId Friend.status status_eqb].
    replace (a =? u) with false by (symmetry; apply Z.eqb_neq; congruence).
    cbn [andb map]. rewrite app_nil_r.
    apply map_ext. intros f. rewrite (getUser_same_users _ _ _ Tu).
    reflexivity.
  - intros u. unfold getUserFriends. cbv zeta.
    rewrite Tf, filter_app, map_app.
    cbn [filter Friend.addresseeId Friend.status status_eqb].
    rewrite andb_false_r. cbn [map]. rewrite app_nil_r.
    apply map_ext. intros f. rewrite (getUser_same_users _ _ _ Tu).
    reflexivity.
Qed.

Lemma friend_request_reaches_addressee_witness :
  exists f,
    getFriendRequests (snd (post_api_friends_request 5 ann 2 store_two_users)) 2
    = [FriendWithUser.mk f (Some ann)]
    /\ Friend.requesterId f = 1
    /\ Friend.status f = pending.
Proof.
  destruct (friend_request_reaches_addressee 5 ann 2 store_two_users)
    as (f & H1 & H2 & _ & H4 & _).
  - repeat constructor; cbn; intuition discriminate.
  - left. reflexivity.
  - exists bob. split; [right; left; reflexivity | reflexivity].
  - discriminate.
  - intros (f & [] & _).
  - exists f. repeat split; assumption.
Defined.

Section PairwiseRows.
Context {Row : Type} (apart : Row -> Row -> Prop).

(** A row put after the others keeps them pairwise apart when it is
    apart from each of them. *)
Lemma pairwise_insert_last (rows : list Row) (row : Row) :
  ForallOrdPairs apart rows -> Forall (fun r => apart r row) rows ->
  ForallOrdPairs apart (rows ++ [row]).
Proof.
  induction 1 as [|x rows Hx Hrows IH]; intros Hrow; cbn [app].
  - apply FOP_cons; constructor.
  - inversion Hrow as [|y ys Hy Hys]; subst.
    apply FOP_cons; [|apply IH; exact Hys].
    apply Forall_app. split; [exact Hx|]. constructor; [exact Hy | constructor].
Qed.

(** An update that moves no row out of its class keeps the rows
    pairwise apart. *)
Lemma pairwise_update (upd : Row -> Row) (rows : list Row) :
  (forall r s, apart r s -> apart (upd r) (upd s)) ->
  ForallOrdPairs apart rows -> ForallOrdPairs apart (map upd rows).
Proof.
  intros Hupd. induction 1 as [|x rows Hx Hrows IH]; cbn [map].
  - constructor.
  - apply FOP_cons; [|exact IH].
    apply Forall_map. revert Hx. apply Forall_impl. intros r. apply Hupd.
Qed.
End PairwiseRows.

(** Table [friends] after [PUT /api/friends/requests/:id]: as it was, or
    with a new status on the rows of the request. *)
Lemma put_api_friends_requests_friends
      (now : Z) (user : User.t) (rid : Z) (status : string) (st : Store) :
  friends (snd (put_api_friends_requests now user rid status st)) = friends st
  \/ exists answer,
       friends (snd (put_api_friends_requests now user rid status st))
       = map (fun f => if Friend.id f =? rid
                       then set_status f (status_of_answer answer) else f)
             (friends st).
Proof.
  destruct (parse_answer status) as [answer|] eqn:Hp.
  - destruct (getFriendRequest st rid) as [request|] eqn:Hr.
    + destruct (Z.eqb_spec (Friend.addresseeId request) (User.id user)) as [E|E].
      * right. exists answer.
        apply (put_api_friends_requests_tables now user rid status answer
                 request st Hp Hr E).
      * left. unfold put_api_friends_requests, try_catch, bind, query.
        rewrite Hp, Hr. apply Z.eqb_neq in E. rewrite E. reflexivity.
    + left. unfold put_api_friends_requests, try_catch, bind, query.
      rewrite Hp, Hr. reflexivity.
  - left. unfold put_api_friends_requests, try_catch. rewrite Hp. reflexivity.
Qed.

(** X10. Sending a friend request and answering one keep table
    [friends] well formed: distinct ids, at most one row for an
    unordered pair of users, and no row linking a user to themself. *)
Theorem friends_invariant_preserved
        (now : Z) (user : User.t) (a rid : Z) (status : string) (st : Store) :
  friends_invariant st ->
  friends_invariant (snd (post_api_friends_request now user a st))
  /\ friends_invariant (snd (put_api_friends_requests now user rid status st)).
Proof.
  unfold friends_invariant. intros (Hid & Hpair & Hself). split.
  - destruct (post_api_friends_request_tables now user a st) as [_ Tf].
    rewrite Tf. clear Tf.
    destruct (Z.eqb_spec (User.id user) a) as [E|E];
      [repeat split; assumption|].
    destruct (getFriendship st (User.id user) a) eqn:Hf;
      [repeat split; assumption|].
    destruct (_ && _); [|repeat split; assumption].
    apply getFriendship_None in Hf.
    split; [|split].
    + rewrite map_app. apply NoDup_app; [exact Hid | repeat constructor; intros [] |].
      cbn [map Friend.id]. intros k Hk [<-|[]].
      pose proof (next_id_above _ (seq_friends (sqlite_sequence st)) _ Hk). lia.
    + apply pairwise_insert_last; [exact Hpair|].
      apply Forall_forall. intros f Hin Hsame. apply Hf. exists f.
      split; [exact Hin|]. exact Hsame.
    + apply Forall_app. split; [exact Hself|].
      constructor; [exact E | constructor].
  - destruct (put_api_friends_requests_friends now user rid status st)
      as [T|[answer T]]; rewrite T; [repeat split; assumption|].
    split; [|split].
    + rewrite map_map.
      rewrite (map_ext _ Friend.id); [exact Hid|].
      intros f. destruct (Friend.id f =? rid); reflexivity.
    + apply pairwise_update; [|exact Hpair].
      intros r s Hrs Hsame. apply Hrs. revert Hsame. unfold same_pair.
      destruct (Friend.id r =? rid), (Friend.id s =? rid); cbn; exact (fun H => H).
    + apply Forall_map. revert Hself. apply Forall_impl.
      intros f. destruct (Friend.id f =? rid); cbn; exact (fun H => H).
Qed.

Lemma friends_invariant_preserved_witness :
  friends_invariant (snd (post_api_friends_request 5 bob 1 store_pending))
  /\ friends_invariant (snd (put_api_friends_requests 9 bob 1 "accepted"
                               store_pending)).
Proof.
  apply (friends_invariant_preserved 5 bob 1 1 "accepted" store_pending).
  unfold friends_invariant. cbn. repeat split.
  - repeat constructor. intros [].
  - repeat constructor.
  - repeat constructor. discriminate.
Defined.

(* ===================================================================== *)
(** ** Groups *)
(* ===================================================================== *)

Lemma getUserGroups_In (st : Store) (u : Z) (g : Group.t) :
  In g (getUserGroups st u) <->
  In g (groups st) /\ isGroupMember st (Group.id g) u = true.
Proof.
  unfold getUserGroups. cbv zeta. rewrite <- isGroupMember_inArray.
  destruct (map GroupMember.groupId _) as [|k ks] eqn:E.
  - cbn. intuition discriminate.
  - cbn [List.length Nat.eqb]. apply filter_In.
Qed.

Lemma getGroupMembers_isGroupMember (st : Store) (G : Z) (x : User.t) :
  In x (getGroupMembers st G) <->
  In x (users st) /\ isGroupMember st G (User.id x) = true.
Proof. rewrite getGroupMembers_In, isGroupMember_iff. reflexivity. Qed.

(** X11. The three views of membership agree: [getUserGroups] lists
    the groups for which [isGroupMember] holds, [getGroupMembers] the
    users for whom it holds, so a group is among a user's groups exactly
    when the user is among the group's members. *)
Theorem membership_views_agree (st : Store) :
  (forall u g, In g (getUserGroups st u) <->
               In g (groups st) /\ isGroupMember st (Group.id g) u = true)
  /\ (forall G x, In x (getGroupMembers st G) <->
                  In x (users st) /\ isGroupMember st G (User.id x) = true)
  /\ (forall g x, In g (groups st) -> In x (users st) ->
                  (In g (getUserGroups st (User.id x)) <->
                   In x (getGroupMembers st (Group.id g)))).
Proof.
  split; [intros u g; apply getUserGroups_In|].
  split; [intros G x; apply getGroupMembers_isGroupMember|].
  intros g x Hg Hx. rewrite getUserGroups_In, getGroupMembers_isGroupMember.
  tauto.
Qed.

(** The run of [POST /api/groups] for a body with a name and a caller
    with a row in [users]. *)
Lemma post_api_groups_run (seq_groups seq_groupMembers now : Z) (user : User.t)
      (name : string) (description : option string) (st : Store) :
  references User.id (users st) (User.id user) = true ->
  post_api_groups seq_groups seq_groupMembers now user (Some name) description st
  = let g := Group.mk (next_id (map Group.id (groups st)) seq_groups) name
                      description (User.id user) (timestamp_to_driver now) in
    let m := GroupMember.mk
               (next_id (map GroupMember.id (groupMembers st)) seq_groupMembers)
               (Group.id g) (User.id user) (timestamp_to_driver now) in
    (mkReply 201 (BodyGroup g),
     set_groupMembers (set_groups st (groups st ++ [g]))
                      (groupMembers st ++ [m])).
Proof.
  intros Ru.
  unfold post_api_groups, try_catch, bind, createGroup, addGroupMember, ret.
  cbv zeta. cbn [InsertGroup.name InsertGroup.createdBy InsertGroup.description].
  rewrite Ru.
  cbn [InsertGroupMember.groupId InsertGroupMember.userId users groups
       set_groups Group.id].
  rewrite Ru.
  assert (Rg : forall g, references Group.id (groups st ++ [g]) (Group.id g) = true).
  { intros g. apply references_true. exists g. split; [|reflexivity].
    apply in_or_app. right. left. reflexivity. }
  match goal with
  | |- context [references Group.id (groups st ++ [?g]) ?k] =>
      pose proof (Rg g) as Rg'; cbn [Group.id] in Rg'; rewrite Rg'
  end.
  reflexivity.
Qed.

(** X12. [POST /api/groups] does all or nothing.  Without a name in the
    body, or for a caller without a row in [users], it answers 500 and
    writes nothing.  Otherwise it answers 201, the group is stored under
    an id no group has, its creator is recorded, and the creator is a
    member of it and finds it among their groups. *)
Theorem post_api_groups_all_or_nothing
        (seq_groups seq_groupMembers now : Z) (user : User.t)
        (name description : option string) (st : Store) :
  match name with
  | Some n =>
      if references User.id (users st) (User.id user)
      then
        exists g m,
          post_api_groups seq_groups seq_groupMembers now user name description st
          = (mkReply 201 (BodyGroup g),
             set_groupMembers (set_groups st (groups st ++ [g]))
                              (groupMembers st ++ [m]))
          /\ Group.name g = n
          /\ Group.createdBy g = User.id user
          /\ (forall g0, In g0 (groups st) -> Group.id g0 < Group.id g)
          /\ GroupMember.groupId m = Group.id g
          /\ GroupMember.userId m = User.id user
          /\ isGroupMember
               (snd (post_api_groups seq_groups seq_groupMembers now user name
                       description st))
               (Group.id g) (User.id user) = true
          /\ In g (getUserGroups
                     (snd (post_api_groups seq_groups seq_groupMembers now user
                             name description st))
                     (User.id user))
      else
        post_api_groups seq_groups seq_groupMembers now user name description st
        = (mkReply 500 (BodyMessage "Failed to create group"), st)
  | None =>
      post_api_groups seq_groups seq_groupMembers now user name description st
      = (mkReply 500 (BodyMessage "Failed to create group"), st)
  end.
Proof.
  destruct name as [n|]; [|reflexivity].
  destruct (references User.id (users st) (User.id user)) eqn:Ru.
  - rewrite (post_api_groups_run _ _ _ _ _ _ _ Ru). cbv zeta.
    eexists. eexists. split; [reflexivity|]. cbn [snd].
    assert (Hm : isGroupMember
                   (set_groupMembers
                      (set_groups st (groups st ++ [Group.mk
                         (next_id (map Group.id (groups st)) seq_groups) n
                         description (User.id user) (timestamp_to_driver now)]))
                      (groupMembers st ++ [GroupMember.mk
                         (next_id (map GroupMember.id (groupMembers st))
                                  seq_groupMembers)
                         (next_id (map Group.id (groups st)) seq_groups)
                         (User.id user) (timestamp_to_driver now)]))
                   (next_id (map Group.id (groups st)) seq_groups)
                   (User.id user) = true).
    { rewrite isGroupMember_existsb. cbn [groupMembers set_groupMembers].
      rewrite existsb_app. cbn [existsb GroupMember.groupId GroupMember.userId].
      rewrite !Z.eqb_refl, orb_true_r. reflexivity. }
    repeat split.
    + intros g0 Hg0. cbn [Group.id]. apply next_id_above. apply in_map. exact Hg0.
    + exact Hm.
    + apply getUserGroups_In. split; [|exact Hm].
      cbn [groups set_groupMembers set_groups]. apply in_or_app. right. left.
      reflexivity.
  - unfold post_api_groups, try_catch, bind, createGroup.
    cbn [InsertGroup.name InsertGroup.createdBy]. rewrite Ru. reflexivity.
Qed.

(** X13. In a store whose membership rows name existing groups, the
    group made by [POST /api/groups] has its creator for only member,
    and the membership of every other group is as before. *)
Theorem post_api_groups_sole_member
        (seq_groups seq_groupMembers now : Z) (user : User.t)
        (name : string) (description : option string) (st : Store) :
  members_reference_groups st ->
  user_exists st (User.id user) ->
  (forall u,
     isGroupMember
       (snd (post_api_groups seq_groups seq_groupMembers now user (Some name)
               description st))
       (next_id (map Group.id (groups st)) seq_groups) u = true
     <-> u = User.id user)
  /\ (forall G u,
        G <> next_id (map Group.id (groups st)) seq_groups ->
        isGroupMember
          (snd (post_api_groups seq_groups seq_groupMembers now user (Some name)
                  description st)) G u
        = isGroupMember st G u).
Proof.
  intros Hfk Hu. apply user_exists_references in Hu.
  rewrite (post_api_groups_run _ _ _ _ _ _ _ Hu). cbv zeta. cbn [snd Group.id].
  split.
  - intros u. rewrite isGroupMember_existsb.
    cbn [groupMembers set_groupMembers]. rewrite existsb_app.
    cbn [existsb GroupMember.groupId GroupMember.userId].
    rewrite Z.eqb_refl, orb_false_r. cbn [andb].
    rewrite existsb_false.
    + cbn [orb]. rewrite Z.eqb_eq. split; congruence.
    + intros m Hm. destruct (Hfk m Hm) as (g & Hg & Hid).
      pose proof (next_id_above (map Group.id (groups st)) seq_groups
                    (Group.id g) (in_map Group.id _ _ Hg)) as Hlt.
      destruct (Z.eqb_spec (GroupMember.groupId m)
                  (next_id (map Group.id (groups st)) seq_groups)) as [E|E];
        [lia | reflexivity].
  - intros G u HG. rewrite !isGroupMember_existsb.
    cbn [groupMembers set_groupMembers]. rewrite existsb_app.
    cbn [existsb GroupMember.groupId GroupMember.userId].
    replace (next_id (map Group.id (groups st)) seq_groups =? G) with false
      by (symmetry; apply Z.eqb_neq; congruence).
    cbn [andb orb]. rewrite orb_false_r. reflexivity.
Qed.

Lemma post_api_groups_sole_member_witness :
  isGroupMember
    (snd (post_api_groups 4 3 9 ann (Some "walks"%string) None store_group)) 5 1
  = true
  /\ isGroupMember
       (snd (post_api_groups 4 3 9 ann (Some "walks"%string) None store_group)) 5 2
     = false
  /\ isGroupMember
       (snd (post_api_groups 4 3 9 ann (Some "walks"%string) None store_group)) 4 2
     = isGroupMember store_group 4 2.
Proof.
  destruct (post_api_groups_sole_member 4 3 9 ann "walks" None store_group)
    as [H1 H2].
  - intros m Hm. exists (Group.mk 4 "trip" None 1 0).
    split; [left; reflexivity|].
    destruct Hm as [<-|[<-|[<-|[]]]]; reflexivity.
  - exists ann. split; [left; reflexivity | reflexivity].
  - split; [apply H1; reflexivity|]. split; [reflexivity|].
    apply H2. discriminate.
Defined.

(** X14. [POST /api/groups/:id/members]: a caller who is not a member
    of the group is answered 403, a user who already is a member 400, an
    unknown group or user 500, each with the store untouched.  Otherwise
    one membership row is added and the user is a member; the answer is
    201 with one unread [group_invite] notification for the user, naming
    the group and the caller.  Should the caller have no row in [users],
    the notification cannot be written: the answer is 500 and the
    membership row stays. *)
Theorem post_api_groups_members_cases
        (seq_groupMembers now : Z) (user : User.t) (G uid : Z) (st : Store) :
  if negb (isGroupMember st G (User.id user))
  then post_api_groups_members seq_groupMembers now user G uid st
       = (mkReply 403 (BodyMessage "You are not a member of this group"), st)
  else if isGroupMember st G uid
  then post_api_groups_members seq_groupMembers now user G uid st
       = (mkReply 400 (BodyMessage "User is already a member of this group"), st)
  else if references Group.id (groups st) G && references User.id (users st) uid
  then
    exists m,
      groupMembers (snd (post_api_groups_members seq_groupMembers now user G uid st))
      = groupMembers st ++ [m]
      /\ GroupMember.groupId m = G
      /\ GroupMember.userId m = uid
      /\ isGroupMember
           (snd (post_api_groups_members seq_groupMembers now user G uid st)) G uid
         = true
      /\ if references User.id (users st) (User.id user)
         then
           exists n,
             fst (post_api_groups_members seq_groupMembers now user G uid st)
             = mkReply 201 (BodyMessage "User added to group")
             /\ notifications
                  (snd (post_api_groups_members seq_groupMembers now user G uid st))
                = notifications st ++ [n]
             /\ Notification.userId n = uid
             /\ Notification.type n = group_invite
             /\ Notification.senderId n = Some (User.id user)
             /\ Notification.groupId n = Some G
             /\ Notification.imageId n = None
             /\ Notification.isRead n = false
         else
           fst (post_api_groups_members seq_groupMembers now user G uid st)
           = mkReply 500 (BodyMessage "Failed to add member to group")
           /\ notifications
                (snd (post_api_groups_members seq_groupMembers now user G uid st))
              = notifications st
  else post_api_groups_members seq_groupMembers now user G uid st
       = (mkReply 500 (BodyMessage "Failed to add member to group"), st).
Proof.
  remember (post_api_groups_members seq_groupMembers now user G uid st)
    as r eqn:Er.
  unfold post_api_groups_members, try_catch in Er. cbv zeta in Er.
  unfold bind at 1 in Er. unfold query at 1 in Er.
  destruct (isGroupMember st G (User.id user)); cbn [negb] in *; [|exact Er].
  unfold bind at 1 in Er. unfold query at 1 in Er.
  destruct (isGroupMember st G uid); [exact Er|].
  unfold bind at 1 in Er. unfold addGroupMember in Er.
  cbn [InsertGroupMember.groupId InsertGroupMember.userId] in Er.
  destruct (references Group.id (groups st) G) eqn:Rg; cbn [andb] in *;
    [|exact Er].
  destruct (references User.id (users st) uid) eqn:Rv; [|exact Er].
  unfold bind at 1 in Er. unfold query_or_throw at 1 in Er.
  cbn [fst snd] in Er.
  destruct (getGroup_exists
              (set_groupMembers st
                 (groupMembers st ++
                  [GroupMember.mk
                     (next_id (map GroupMember.id (groupMembers st))
                              seq_groupMembers)
                     G uid (timestamp_to_driver now)])) G Rg) as [g Hg].
  rewrite Hg in Er.
  unfold bind, createNotification, ret in Er.
  cbn [InsertNotification.userId InsertNotification.senderId
       InsertNotification.groupId InsertNotification.imageId
       references_nullable users groups set_groupMembers] in Er.
  rewrite Rv, Rg in Er. cbn [andb] in Er.
  eexists. 
  assert (Hm : forall s n,
             isGroupMember
               (set_sequence
                  (set_notifications
                     (set_groupMembers st
                        (groupMembers st ++
                         [GroupMember.mk
                            (next_id (map GroupMember.id (groupMembers st))
                                     seq_groupMembers)
                            G uid (timestamp_to_driver now)])) n) s) G uid = true).
  { intros s n. rewrite isGroupMember_existsb.
    cbn [groupMembers set_sequence set_notifications set_groupMembers].
    rewrite existsb_app. cbn [existsb GroupMember.groupId GroupMember.userId].
    rewrite !Z.eqb_refl, orb_true_r. reflexivity. }
  destruct (references User.id (users st) (User.id user)); cbn [andb] in Er;
    subst r; cbn [fst snd groupMembers set_sequence set_notifications
                  set_groupMembers notifications].
  - split; [reflexivity|]. split; [reflexivity|]. split; [reflexivity|].
    split; [apply Hm|].
    eexists. repeat split.
  - split; [reflexivity|]. split; [reflexivity|]. split; [reflexivity|].
    split; [|split; reflexivity].
    rewrite isGroupMember_existsb. cbn [groupMembers set_groupMembers].
    rewrite existsb_app. cbn [existsb GroupMember.groupId GroupMember.userId].
    rewrite !Z.eqb_refl, orb_true_r. reflexivity.
Qed.

(** Table [group_members] after [POST /api/groups/:id/members]. *)
Lemma post_api_groups_members_memberships
      (seq_groupMembers now : Z) (user : User.t) (G uid : Z) (st : Store) :
  groupMembers (snd (post_api_groups_members seq_groupMembers now user G uid st))
  = if isGroupMember st G (User.id user) && negb (isGroupMember st G uid)
       && (references Group.id (groups st) G
           && references User.id (users st) uid)
    then groupMembers st
           ++ [GroupMember.mk
                 (next_id (map GroupMember.id (groupMembers st)) seq_groupMembers)
                 G uid (timestamp_to_driver now)]
    else groupMembers st.
Proof.
  unfold post_api_groups_members, try_catch. cbv zeta.
  unfold bind at 1. unfold query at 1.
  destruct (isGroupMember st G (User.id user)); cbn [negb andb]; [|reflexivity].
  unfold bind at 1. unfold query at 1.
  destruct (isGroupMember st G uid); cbn [negb andb]; [reflexivity|].
  unfold bind at 1. unfold addGroupMember.
  cbn [InsertGroupMember.groupId InsertGroupMember.userId].
  destruct (_ && _); [|reflexivity].
  match goal with
  | |- context [bind ?m ?k ?s1] =>
      assert (F : same_but_notifications s1 (snd (bind m k s1)));
      [|destruct (bind m k s1) as [[e|res] s2]; cbn [snd] in *;
        destruct F as (_ & _ & _ & _ & F5 & _); exact F5]
  end.
  apply bind_keeps; [exact same_but_notifications_trans | |].
  - apply same_but_notifications_refl.
  - intros g s. apply bind_keeps; [exact same_but_notifications_trans | |].
    + apply createNotification_frame.
    + intros _ s'. apply same_but_notifications_refl.
Qed.

(** Table [group_members] after
    [DELETE /api/groups/:groupId/members/:userId]. *)
Lemma delete_api_groups_members_run
      (user : User.t) (G target : Z) (st : Store) :
  delete_api_groups_members user G target st
  = match getGroup st G with
    | inl _ =>
        (mkReply 500 (BodyMessage "Failed to remove member from group"), st)
    | inr g =>
        if negb (target =? User.id user)
           && negb (Group.createdBy g =? User.id user)
        then (mkReply 403
                (BodyMessage "You don't have permission to remove this member"),
              st)
        else (mkReply 200 (BodyMessage "Member removed from group"),
              set_groupMembers st
                (filter (fun m => negb ((GroupMember.groupId m =? G)
                                        && (GroupMember.userId m =? target)))
                        (groupMembers st)))
    end.
Proof.
  unfold delete_api_groups_members, try_catch, bind, query_or_throw,
    removeGroupMember, ret. cbv zeta.
  destruct (getGroup st G) as [e|g]; [reflexivity|].
  destruct (_ && _); reflexivity.
Qed.

Lemma memberships_distinct_where (cond : GroupMember.t -> bool)
      (rows : list GroupMember.t) :
  NoDup (map (fun m => (GroupMember.groupId m, GroupMember.userId m)) rows) ->
  NoDup (map (fun m => (GroupMember.groupId m, GroupMember.userId m))
             (filter cond rows)).
Proof.
  induction rows as [|m rows IH]; cbn [filter map]; [intros H; exact H|].
  intros H. inversion H as [|k ks Hk Hks]; subst.
  destruct (cond m); cbn [map]; [|apply IH; exact Hks].
  constructor; [|apply IH; exact Hks].
  intros Hin. apply Hk. apply in_map_iff in Hin. destruct Hin as (x & Hx & Hf).
  apply filter_In in Hf. apply in_map_iff. exists x. split; [exact Hx|].
  apply Hf.
Qed.

(** X15. Adding a member and removing one keep table [group_members]
    free of duplicates: at most one row for a group and a user. *)
Theorem memberships_distinct_preserved
        (seq_groupMembers now : Z) (user : User.t) (G uid : Z) (st : Store) :
  memberships_distinct st ->
  memberships_distinct
    (snd (post_api_groups_members seq_groupMembers now user G uid st))
  /\ memberships_distinct (snd (delete_api_groups_members user G uid st)).
Proof.
  unfold memberships_distinct. intros H. split.
  - rewrite post_api_groups_members_memberships.
    destruct (isGroupMember st G (User.id user)); cbn [andb]; [|exact H].
    destruct (isGroupMember st G uid) eqn:Hm; cbn [negb andb]; [exact H|].
    destruct (_ && _); [|exact H].
    rewrite map_app. apply NoDup_app; [exact H | repeat constructor; intros [] |].
    cbn [map GroupMember.groupId GroupMember.userId].
    intros p Hp [<-|[]]. apply in_map_iff in Hp. destruct Hp as (m & Hp & Hin).
    injection Hp as H1 H2.
    assert (Ht : isGroupMember st G uid = true).
    { apply isGroupMember_iff. exists m. repeat split; assumption. }
    rewrite Ht in Hm. discriminate.
  - rewrite delete_api_groups_members_run.
    destruct (getGroup st G) as [e|g]; [exact H|].
    destruct (_ && _); [exact H|].
    cbn [snd groupMembers set_groupMembers].
    apply memberships_distinct_where. exact H.
Qed.

Lemma memberships_distinct_preserved_witness :
  memberships_distinct (snd (post_api_groups_members 3 9 ann 4 2 store_group))
  /\ memberships_distinct (snd (delete_api_groups_members ann 4 2 store_group)).
Proof.
  apply (memberships_distinct_preserved 3 9 ann 4 2 store_group).
  unfold memberships_distinct. cbn.
  repeat constructor; cbn; intuition discriminate.
Defined.

(** X16. [DELETE /api/groups/:groupId/members/:userId]: for a group
    that does not exist the answer is 500, not 404; a caller who is
    neither the member to remove nor the creator of the group is
    answered 403; both leave the store untouched.  Otherwise the answer
    is 200, the user is no member of the group any more, and every other
    membership is as before. *)
Theorem delete_api_groups_members_cases
        (user : User.t) (G target : Z) (st : Store) :
  match getGroup st G with
  | inl _ =>
      delete_api_groups_members user G target st
      = (mkReply 500 (BodyMessage "Failed to remove member from group"), st)
  | inr g =>
      if negb (target =? User.id user) && negb (Group.createdBy g =? User.id user)
      then
        delete_api_groups_members user G target st
        = (mkReply 403
             (BodyMessage "You don't have permission to remove this member"),
           st)
      else
        fst (delete_api_groups_members user G target st)
        = mkReply 200 (BodyMessage "Member removed from group")
        /\ isGroupMember (snd (delete_api_groups_members user G target st))
             G target = false
        /\ (forall G' u, G' <> G \/ u <> target ->
              isGroupMember (snd (delete_api_groups_members user G target st))
                G' u
              = isGroupMember st G' u)
        /\ same_but_memberships st
             (snd (delete_api_groups_members user G target st))
  end.
Proof.
  rewrite delete_api_groups_members_run.
  destruct (getGroup st G) as [e|g]; [reflexivity|].
  destruct (_ && _); [reflexivity|]. cbn [fst snd].
  split; [reflexivity|]. split; [|split; [|repeat split]].
  - rewrite isGroupMember_existsb. cbn [groupMembers set_groupMembers].
    rewrite existsb_filter. apply existsb_false.
    intros m _.
    destruct ((GroupMember.groupId m =? G) && (GroupMember.userId m =? target));
      reflexivity.
  - intros G' u Hne. rewrite !isGroupMember_existsb.
    cbn [groupMembers set_groupMembers]. rewrite existsb_filter.
    apply existsb_same. intros m _.
    destruct (Z.eqb_spec (GroupMember.groupId m) G);
      destruct (Z.eqb_spec (GroupMember.userId m) target);
      destruct (Z.eqb_spec (GroupMember.groupId m) G');
      destruct (Z.eqb_spec (GroupMember.userId m) u);
      try reflexivity; exfalso; destruct Hne; congruence.
Qed.

Lemma existsb_all_false {A : Type} (p : A -> bool) (l : list A) :
  existsb p l = false -> forall x, In x l -> p x = false.
Proof.
  intros H x Hx. apply not_true_is_false. intros Hp.
  assert (Ht : existsb p l = true) by (apply existsb_exists; exists x; split; assumption).
  rewrite Ht in H. discriminate.
Qed.

(** X17. A member who is removed from a group loses the access that
    the group gave: when the image is not theirs, is not shared with
    them directly, and is shared with no other group of theirs, they
    have no access after the removal.  Removing a member gives nobody
    access to anything. *)
Theorem removed_member_loses_group_access
        (user : User.t) (G target : Z) (g : Group.t) (i : Z) (st : Store) :
  getGroup st G = inr g ->
  target = User.id user \/ Group.createdBy g = User.id user ->
  (forall img, In img (images st) -> Image.id img = i ->
               Image.userId img <> target) ->
  (forall s, In s (imageShares st) -> ImageShare.imageId s = i ->
             ImageShare.userId s <> Some target
             /\ forall G', ImageShare.groupId s = Some G' -> G' <> G ->
                           isGroupMember st G' target = false) ->
  userHasImageAccess (snd (delete_api_groups_members user G target st)) target i
  = false
  /\ (forall u j,
        userHasImageAccess (snd (delete_api_groups_members user G target st)) u j
        = true ->
        userHasImageAccess st u j = true).
Proof.
  intros Hg Hauth Hown Hshare.
  rewrite delete_api_groups_members_run, Hg.
  replace (negb (target =? User.id user) && negb (Group.createdBy g =? User.id user))
    with false
    by (symmetry; destruct Hauth as [->| ->]; rewrite Z.eqb_refl;
        [reflexivity | apply andb_false_r]).
  cbn [snd]. split.
  - rewrite userHasImageAccess_existsb.
    apply orb_false_iff. split; [apply orb_false_iff; split|];
      apply existsb_false.
    + intros img Himg.
      destruct (Z.eqb_spec (Image.id img) i) as [E|E]; [|reflexivity].
      cbn [andb]. apply Z.eqb_neq. apply Hown; assumption.
    + intros s Hs.
      destruct (Z.eqb_spec (ImageShare.imageId s) i) as [E|E]; [|reflexivity].
      cbn [andb]. destruct (Hshare s Hs E) as [Hd _].
      apply not_true_is_false. intros Ht. apply eq_nullable_true in Ht.
      contradiction.
    + intros s Hs.
      destruct (Z.eqb_spec (ImageShare.imageId s) i) as [E|E]; [|reflexivity].
      cbn [andb]. destruct (Hshare s Hs E) as [_ Hgr].
      destruct (ImageShare.groupId s) as [k|]; [|reflexivity].
      cbn [inArray_nullable]. rewrite isGroupMember_inArray.
      rewrite isGroupMember_existsb. cbn [groupMembers set_groupMembers].
      rewrite existsb_filter.
      destruct (Z.eq_dec k G) as [->|Hk].
      * apply existsb_false. intros m _.
        destruct ((GroupMember.groupId m =? G) && (GroupMember.userId m =? target));
          reflexivity.
      * specialize (Hgr k eq_refl Hk). rewrite isGroupMember_existsb in Hgr.
        apply existsb_false. intros m Hm.
        rewrite (existsb_all_false _ _ Hgr m Hm). apply andb_false_r.
  - intros u j. apply userHasImageAccess_mono; cbn [images imageShares
      groupMembers set_groupMembers]; try apply incl_refl.
    apply incl_filter.
Qed.

Lemma removed_member_loses_group_access_witness :
  userHasImageAccess store_shared 2 7 = true
  /\ userHasImageAccess (snd (delete_api_groups_members ann 4 2 store_shared)) 2 7
     = false.
Proof.
  split; [reflexivity|].
  apply (removed_member_loses_group_access ann 4 2 (Group.mk 4 "trip" None 1 0)
           7 store_shared).
  - reflexivity.
  - right. reflexivity.
  - intros img [<-|[]] _. discriminate.
  - intros s [<-|[]] _. split; [discriminate|].
    intros G' HG' Hne. injection HG' as <-. contradiction.
Defined.

Lemma getGroupImages_In (st : Store) (G : Z) (i : Image.t) :
  In i (getGroupImages st G) <->
  In i (images st)
  /\ exists s, In s (imageShares st)
               /\ ImageShare.groupId s = Some G
               /\ ImageShare.imageId s = Image.id i.
Proof.
  unfold getGroupImages. cbv zeta.
  assert (Hids : forall k,
             In k (map ImageShare.imageId
                     (filter (fun s => eq_nullable (ImageShare.groupId s) G)
                             (imageShares st)))
             <-> exists s, In s (imageShares st)
                           /\ ImageShare.groupId s = Some G
                           /\ ImageShare.imageId s = k).
  { intros k. rewrite in_map_iff. split.
    - intros (s & Hk & Hs). apply filter_In in Hs. destruct Hs as [Hs Hg].
      apply eq_nullable_true in Hg. exists s. repeat split; assumption.
    - intros (s & Hs & Hg & Hk). exists s. split; [exact Hk|].
      apply filter_In. split; [exact Hs|]. apply eq_nullable_true. exact Hg. }
  destruct (map ImageShare.imageId _) as [|k ks] eqn:E.
  - cbn [List.length Nat.eqb]. split; [intros []|].
    intros (_ & Hs). apply Hids in Hs. destruct Hs.
  - cbn [List.length Nat.eqb]. split.
    + intros H. apply (Permutation_in _ (order_by_desc_perm _ _)) in H.
      apply filter_In in H. destruct H as [H1 H2].
      apply inArray_In in H2. apply Hids in H2. split; assumption.
    + intros (H1 & H2).
      apply (Permutation_in _ (Permutation_sym (order_by_desc_perm _ _))).
      apply filter_In. split; [exact H1|]. apply inArray_In. apply Hids.
      exact H2.
Qed.

Lemma getGroupImages_sorted (st : Store) (G : Z) :
  StronglySorted (fun a b => Image.uploadedAt b <= Image.uploadedAt a)
                 (getGroupImages st G).
Proof.
  unfold getGroupImages. cbv zeta.
  destruct (_ =? _)%nat; [constructor | apply order_by_desc_sorted].
Qed.

(** X18. [GET /api/groups/:id/images] never writes and answers 403 to
    a caller who is not a member of the group.  A member gets the images
    that a share row gives to the group, newest first, and
    [userHasImageAccess] holds for the member on each of them. *)
Theorem get_api_groups_images_cases (user : User.t) (G : Z) (st : Store) :
  snd (get_api_groups_images user G st) = st
  /\ if isGroupMember st G (User.id user)
     then
       fst (get_api_groups_images user G st)
       = mkReply 200 (BodyImages (getGroupImages st G))
       /\ (forall i, In i (getGroupImages st G) <->
                     In i (images st)
                     /\ exists s, In s (imageShares st)
                                  /\ ImageShare.groupId s = Some G
                                  /\ ImageShare.imageId s = Image.id i)
       /\ StronglySorted (fun a b => Image.uploadedAt b <= Image.uploadedAt a)
                         (getGroupImages st G)
       /\ (forall i, In i (getGroupImages st G) ->
                     userHasImageAccess st (User.id user) (Image.id i) = true)
     else
       fst (get_api_groups_images user G st)
       = mkReply 403 (BodyMessage "You are not a member of this group").
Proof.
  unfold get_api_groups_images, try_catch, bind, query, ret. cbv zeta.
  destruct (isGroupMember st G (User.id user)) eqn:Hm; cbn [negb fst snd];
    [|split; reflexivity].
  split; [reflexivity|]. split; [reflexivity|].
  split; [intros i; apply getGroupImages_In|].
  split; [apply getGroupImages_sorted|].
  intros i Hi. apply getGroupImages_In in Hi. destruct Hi as (_ & s & Hs & Hg & Hk).
  rewrite userHasImageAccess_existsb. apply orb_true_iff. right.
  apply existsb_exists. exists s. split; [exact Hs|].
  rewrite Hk, Z.eqb_refl, Hg. cbn [andb inArray_nullable].
  rewrite isGroupMember_inArray. exact Hm.
Qed.

(** X19. [GET /api/groups/:id] in a store whose membership rows name
    existing groups: a member is always answered 200 with the group and
    its members, a member with a row in [users] is in that list, and
    everybody else is answered 403; the answer 404 does not occur. *)
Theorem get_api_groups_id_cases (user : User.t) (G : Z) (st : Store) :
  members_reference_groups st ->
  snd (get_api_groups_id user G st) = st
  /\ if isGroupMember st G (User.id user)
     then
       exists g,
         getGroup st G = inr g
         /\ fst (get_api_groups_id user G st)
            = mkReply 200
                (BodyGroupWithMembers
                   (GroupWithMembers.mk g (getGroupMembers st G)))
         /\ (In user (users st) -> In user (getGroupMembers st G))
     else
       fst (get_api_groups_id user G st)
       = mkReply 403 (BodyMessage "You are not a member of this group").
Proof.
  intros Hfk.
  unfold get_api_groups_id, try_catch, bind, query, ret, getGroupWithMembers.
  cbv zeta.
  destruct (isGroupMember st G (User.id user)) eqn:Hm; cbn [negb fst snd];
    [|split; reflexivity].
  assert (Rg : references Group.id (groups st) G = true).
  { apply isGroupMember_iff in Hm. destruct Hm as (m & Hin & HG & _).
    destruct (Hfk m Hin) as (g & Hg & Hid). apply references_true.
    exists g. split; [exact Hg | congruence]. }
  destruct (getGroup_exists st G Rg) as [g Hg]. rewrite Hg.
  cbn [catch_undefined fst snd]. split; [reflexivity|].
  exists g. split; [reflexivity|]. split; [reflexivity|].
  intros Hu. apply getGroupMembers_isGroupMember. split; assumption.
Qed.

Lemma get_api_groups_id_cases_witness :
  exists g,
    fst (get_api_groups_id ann 4 store_group)
    = mkReply 200 (BodyGroupWithMembers (GroupWithMembers.mk g [ann; bob; cat]))
    /\ fst (get_api_groups_id ann 5 store_group)
       = mkReply 403 (BodyMessage "You are not a member of this group").
Proof.
  assert (Hfk : members_reference_groups store_group).
  { intros m Hm. exists (Group.mk 4 "trip" None 1 0).
    split; [left; reflexivity|].
    destruct Hm as [<-|[<-|[<-|[]]]]; reflexivity. }
  destruct (get_api_groups_id_cases ann 4 store_group Hfk) as [_ (g & _ & H & _)].
  exists g. split; [exact H | reflexivity].
Defined.

(* ===================================================================== *)
(** ** Notifications *)
(* ===================================================================== *)

Section MarkRead.
Variable selected : Notification.t -> bool.
Hypothesis selected_set_isRead :
  forall n, selected (set_isRead n) = selected n.

Let mark (n : Notification.t) : Notification.t :=
  if selected n then set_isRead n else n.

Lemma selected_mark (n : Notification.t) : selected (mark n) = selected n.
Proof. unfold mark. destruct (selected n) eqn:E; [rewrite selected_set_isRead|]; exact E. Qed.

Lemma filter_selected_mark (rows : list Notification.t) :
  filter selected (map mark rows) = map set_isRead (filter selected rows).
Proof.
  induction rows as [|n rows IH]; [reflexivity|].
  cbn [map filter]. rewrite selected_mark.
  destruct (selected n) eqn:E; [|exact IH].
  replace (mark n) with (set_isRead n) by (unfold mark; rewrite E; reflexivity).
  cbn [map]. rewrite IH. reflexivity.
Qed.

Lemma mark_twice (rows : list Notification.t) :
  map mark (map mark rows) = map mark rows.
Proof.
  rewrite map_map. apply map_ext. intros n. unfold mark.
  destruct (selected n) eqn:E; [|rewrite E; reflexivity].
  rewrite selected_set_isRead, E. reflexivity.
Qed.

Lemma mark_changes_isRead_only (rows : list Notification.t) :
  Forall2 (fun old new => if selected old then new = set_isRead old else new = old)
          rows (map mark rows).
Proof.
  induction rows as [|n rows IH]; cbn [map]; constructor; [|exact IH].
  unfold mark. destruct (selected n); reflexivity.
Qed.

(** A condition that does not look at [isRead] picks the same rows
    before and after, where they are not selected. *)
Lemma filter_unselected_mark (other : Notification.t -> bool)
      (rows : list Notification.t) :
  (forall n, other (set_isRead n) = other n) ->
  (forall n, other n = true -> selected n = false) ->
  filter other (map mark rows) = filter other rows.
Proof.
  intros H1 H2. induction rows as [|n rows IH]; [reflexivity|].
  cbn [map filter].
  destruct (selected n) eqn:E.
  - destruct (other n) eqn:Eo; [rewrite (H2 n Eo) in E; discriminate|].
    replace (mark n) with (set_isRead n) by (unfold mark; rewrite E; reflexivity).
    rewrite H1, Eo. exact IH.
  - replace (mark n) with n by (unfold mark; rewrite E; reflexivity).
    rewrite IH. reflexivity.
Qed.
End MarkRead.

(** X20. [PUT /api/notifications/:id/read]: an unknown id is answered
    404 and a notification of another user 403, with the store
    untouched; the handler never answers 500.  For the caller's own
    notification the answer is 200 with the row marked read; that row is
    what the id reads back afterwards, every other id reads back as
    before, and in the table only [isRead] of the rows with that id has
    changed. *)
Theorem put_api_notifications_read_cases
        (user : User.t) (id : Z) (st : Store) :
  match getNotification st id with
  | None =>
      put_api_notifications_read user id st
      = (mkReply 404 (BodyMessage "Notification not found"), st)
  | Some n =>
      if Notification.userId n =? User.id user
      then
        fst (put_api_notifications_read user id st)
        = mkReply 200 (BodyNotification (set_isRead n))
        /\ getNotification (snd (put_api_notifications_read user id st)) id
           = Some (set_isRead n)
        /\ (forall j, j <> id ->
              getNotification (snd (put_api_notifications_read user id st)) j
              = getNotification st j)
        /\ Forall2 (fun old new =>
                      if Notification.id old =? id
                      then new = set_isRead old else new = old)
                   (notifications st)
                   (notifications (snd (put_api_notifications_read user id st)))
        /\ same_but_notifications st (snd (put_api_notifications_read user id st))
      else
        put_api_notifications_read user id st
        = (mkReply 403
             (BodyMessage "You can only mark your own notifications as read"),
           st)
  end.
Proof.
  unfold put_api_notifications_read, try_catch, bind, query, ret. cbv zeta.
  destruct (getNotification st id) as [n|] eqn:E; [|reflexivity].
  destruct (Notification.userId n =? User.id user); cbn [negb]; [|reflexivity].
  unfold markNotificationAsRead. cbv zeta.
  rewrite (filter_selected_mark (fun n => Notification.id n =? id))
    by reflexivity.
  unfold getNotification in E.
  destruct (filter (fun n => Notification.id n =? id) (notifications st))
    as [|n0 rest] eqn:Ef; [discriminate|].
  cbn [limit firstn first_row hd_error] in E. injection E as ->.
  cbn [map fst snd]. split; [reflexivity|]. split; [|split; [|split]].
  - unfold getNotification. cbn [notifications set_notifications].
    rewrite (filter_selected_mark (fun n => Notification.id n =? id))
      by reflexivity.
    rewrite Ef. reflexivity.
  - intros j Hj. unfold getNotification. cbn [notifications set_notifications].
    rewrite (filter_unselected_mark (fun n => Notification.id n =? id)
               (fun n => Notification.id n =? j)); [reflexivity | reflexivity |].
    intros x Hx. apply Z.eqb_eq in Hx. apply Z.eqb_neq. congruence.
  - cbn [notifications set_notifications].
    apply (mark_changes_isRead_only (fun n => Notification.id n =? id)).
  - repeat split.
Qed.

(** X21. [PUT /api/notifications/read-all] answers 200 and marks read
    every notification of the caller and nothing else: no row is added,
    dropped or reordered, the rows of other users are as before, a
    second call changes nothing, and [getUserNotifications] then shows
    the caller as many entries as before, all of them read. *)
Theorem put_api_notifications_read_all_effect (user : User.t) (st : Store) :
  fst (put_api_notifications_read_all user st)
  = mkReply 200 (BodyMessage "All notifications marked as read")
  /\ same_but_notifications st (snd (put_api_notifications_read_all user st))
  /\ Forall2 (fun old new =>
                if Notification.userId old =? User.id user
                then new = set_isRead old else new = old)
             (notifications st)
             (notifications (snd (put_api_notifications_read_all user st)))
  /\ snd (put_api_notifications_read_all user
            (snd (put_api_notifications_read_all user st)))
     = snd (put_api_notifications_read_all user st)
  /\ exists details,
       getUserNotifications (snd (put_api_notifications_read_all user st))
                            (User.id user)
       = inr details
       /\ Forall (fun d => Notification.isRead (NotificationWithDetails.base d)
                           = true) details
       /\ List.length details
          = List.length (filter (fun n => Notification.userId n =? User.id user)
                                (notifications st)).
Proof.
  unfold put_api_notifications_read_all, try_catch, bind,
    markAllNotificationsAsRead, ret. cbv zeta. cbn [fst snd].
  split; [reflexivity|]. split; [repeat split|]. split; [|split].
  - cbn [notifications set_notifications].
    apply (mark_changes_isRead_only
             (fun n => Notification.userId n =? User.id user)).
  - unfold set_notifications. cbn [users images friends groups groupMembers
      imageShares notifications sqlite_sequence].
    rewrite (mark_twice (fun n => Notification.userId n =? User.id user))
      by reflexivity.
    reflexivity.
  - unfold getUserNotifications. cbv zeta.
    rewrite (Promise_all_resolves _ _ _ (with_details_returns _)).
    eexists. split; [reflexivity|].
    cbn [notifications set_notifications].
    rewrite (filter_selected_mark
               (fun n => Notification.userId n =? User.id user))
      by reflexivity.
    split.
    + apply Forall_map. cbn [details_of NotificationWithDetails.base].
      apply Forall_forall. intros n Hn.
      apply (Permutation_in _ (order_by_desc_perm _ _)) in Hn.
      apply in_map_iff in Hn. destruct Hn as (x & <- & _). reflexivity.
    + rewrite length_map,
        (Permutation_length (order_by_desc_perm _ _)), length_map.
      reflexivity.
Qed.

(* ===================================================================== *)
(** ** Users *)
(* ===================================================================== *)

Section FirstMatch.
Context {Row : Type} (cond : Row -> bool).

Lemma first_match_inserted (rows : list Row) (row : Row) :
  existsb cond rows = false -> cond row = true ->
  first_row (limit 1 (filter cond (rows ++ [row]))) = Some row.
Proof.
  intros Hn Hr. rewrite filter_app, (filter_none cond rows).
  - cbn [filter app]. rewrite Hr. reflexivity.
  - apply existsb_all_false. exact Hn.
Qed.

Lemma first_match_skips (rows : list Row) (row : Row) :
  cond row = false ->
  first_row (limit 1 (filter cond (rows ++ [row])))
  = first_row (limit 1 (filter cond rows)).
Proof.
  intros Hr. rewrite filter_app. cbn [filter]. rewrite Hr, app_nil_r.
  reflexivity.
Qed.
End FirstMatch.

(** X22. [createUser] fails, writing nothing, exactly when the username
    is taken.  Otherwise the new row is appended under a fresh id, both
    [getUserByUsername] and [getUser] read it back, every other lookup
    answers as before, and usernames and ids stay distinct when they
    were. *)
Theorem createUser_round_trip
        (seq now : Z) (user : InsertUser.t) (st : Store) :
  match createUser seq now user st with
  | (inl _, st') =>
      st' = st /\ getUserByUsername st (InsertUser.username user) <> None
  | (inr row, st') =>
      getUserByUsername st (InsertUser.username user) = None
      /\ users st' = users st ++ [row]
      /\ User.username row = InsertUser.username user
      /\ User.password row = InsertUser.password user
      /\ getUserByUsername st' (InsertUser.username user) = Some row
      /\ getUser st' (User.id row) = Some row
      /\ (forall name, name <> InsertUser.username user ->
            getUserByUsername st' name = getUserByUsername st name)
      /\ (forall k, k <> User.id row -> getUser st' k = getUser st k)
      /\ (NoDup (map User.username (users st)) ->
          NoDup (map User.username (users st')))
      /\ (NoDup (map User.id (users st)) -> NoDup (map User.id (users st')))
  end.
Proof.
  unfold createUser.
  destruct (existsb _ (users st)) eqn:E.
  - split; [reflexivity|]. intros H.
    apply first_row_filter_None in H. rewrite H in E. discriminate.
  - cbv zeta. cbn [users set_users User.username User.password User.id].
    split; [apply first_row_filter_None; exact E|].
    split; [reflexivity|]. split; [reflexivity|]. split; [reflexivity|].
    split; [|split; [|split; [|split; [|split]]]].
    + unfold getUserByUsername. cbn [users set_users].
      apply first_match_inserted; [exact E|]. cbn [User.username].
      apply String.eqb_refl.
    + unfold getUser. cbn [users set_users].
      match goal with
      | |- _ = Some ?r => apply (lookup_inserted User.id (users st) r)
      end.
      cbn [User.id]. intros r Hr.
      pose proof (next_id_above (map User.id (users st)) seq (User.id r)
                    (in_map User.id _ _ Hr)). lia.
    + intros name Hname. unfold getUserByUsername. cbn [users set_users].
      apply first_match_skips. cbn [User.username].
      apply String.eqb_neq. congruence.
    + intros k Hk. unfold getUser. cbn [users set_users].
      match goal with
      | |- context [users st ++ [?r]] =>
          apply (lookup_others User.id (users st) r)
      end. exact Hk.
    + intros Hn. rewrite map_app. apply NoDup_app;
        [exact Hn | repeat constructor; intros [] |].
      cbn [map User.username]. intros name Hin [<-|[]].
      apply in_map_iff in Hin. destruct Hin as (u & Hu & Hin).
      pose proof (existsb_all_false _ _ E u Hin) as Hne. cbn beta in Hne.
      rewrite Hu, String.eqb_refl in Hne. discriminate.
    + intros Hn. rewrite map_app. apply NoDup_app;
        [exact Hn | repeat constructor; intros [] |].
      cbn [map User.id]. intros k Hin [<-|[]].
      pose proof (next_id_above _ seq _ Hin). lia.
Qed.

(* ===================================================================== *)
(** ** Lists of images *)
(* ===================================================================== *)

(** X23. [getUserImages] returns the rows of [images] of the user, each
    as often as the table holds it, newest first; the user has access to
    each of them. *)
Theorem getUserImages_newest_first (st : Store) (u : Z) :
  Permutation (getUserImages st u)
              (filter (fun i => Image.userId i =? u) (images st))
  /\ (forall i, In i (getUserImages st u) <->
                In i (images st) /\ Image.userId i = u)
  /\ StronglySorted (fun a b => Image.uploadedAt b <= Image.uploadedAt a)
                    (getUserImages st u)
  /\ (forall i, In i (getUserImages st u) ->
                userHasImageAccess st u (Image.id i) = true).
Proof.
  assert (Hin : forall i, In i (getUserImages st u) <->
                          In i (images st) /\ Image.userId i = u).
  { intros i. unfold getUserImages. split.
    - intros H. apply (Permutation_in _ (order_by_desc_perm _ _)) in H.
      apply filter_In in H. destruct H as [H1 H2]. apply Z.eqb_eq in H2.
      split; assumption.
    - intros [H1 H2].
      apply (Permutation_in _ (Permutation_sym (order_by_desc_perm _ _))).
      apply filter_In. split; [exact H1 | apply Z.eqb_eq; exact H2]. }
  split; [apply order_by_desc_perm|]. split; [exact Hin|].
  split; [apply order_by_desc_sorted|].
  intros i Hi. apply Hin in Hi. destruct Hi as [H1 <-].
  apply owner_has_access. exact H1.
Qed.

Lemma filter_Boolean_In (ids : list (option Z)) (v : Z) :
  In v (filter_Boolean ids) <-> In (Some v) ids /\ v <> 0.
Proof.
  unfold filter_Boolean. rewrite in_flat_map. split.
  - intros (x & Hx & Hv). destruct x as [k|]; cbn [truthy] in Hv; [|destruct Hv].
    destruct (Z.eqb_spec k 0) as [E|E]; [destruct Hv|].
    destruct Hv as [<-|[]]. split; assumption.
  - intros [Hx Hv]. exists (Some v). split; [exact Hx|]. cbn [truthy].
    apply Z.eqb_neq in Hv. rewrite Hv. left. reflexivity.
Qed.

(** X24. [getImageWithShares] lists no recipient, whatever shares the
    image has: its two queries ask for the shares whose user, or group,
    is [<> NULL], which is true of no row.  An image that exists comes
    back with its own columns and two empty lists; so does it from
    [GET /api/images/:id] for a caller who is let in. *)
Theorem getImageWithShares_lists_nobody (st : Store) (imageId : Z) (user : User.t) :
  getImageWithShares sql_ne_null st imageId
  = match getImage st imageId with
    | Some image =>
        Some (ImageWithShares.mk
                (Image.id image) (Image.userId image) (Image.path image)
                (Image.description image) (Image.uploadedAt image)
                (Shares.mk [] []))
    | None => None
    end
  /\ match fst (get_api_images_id sql_ne_null user imageId st) with
     | mkReply 200 (BodyImageWithShares (Some r)) =>
         ImageWithShares.shares r = Shares.mk [] []
     | mkReply 200 _ => False
     | _ => True
     end.
Proof.
  assert (H : getImageWithShares sql_ne_null st imageId
              = match getImage st imageId with
                | Some image =>
                    Some (ImageWithShares.mk
                            (Image.id image) (Image.userId image) (Image.path image)
                            (Image.description image) (Image.uploadedAt image)
                            (Shares.mk [] []))
                | None => None
                end).
  { unfold getImageWithShares. destruct (getImage st imageId) as [image|];
      [|reflexivity].
    assert (Hno : forall col : ImageShare.t -> option Z,
               filter (fun s => (ImageShare.imageId s =? imageId)
                                && sql_ne_null (col s))
                      (imageShares st) = []).
    { intros col. apply filter_none. intros s _. apply andb_false_r. }
    cbv zeta. rewrite !Hno. reflexivity. }
  split; [exact H|].
  unfold get_api_images_id, try_catch, bind, query, ret. cbv zeta.
  destruct (getImage st imageId) as [image|] eqn:Eg; cbn [fst]; [|exact I].
  destruct (negb (Image.userId image =? User.id user)).
  - destruct (negb (userHasImageAccess st (User.id user) imageId));
      [exact I|].
    rewrite H. reflexivity.
  - rewrite H. reflexivity.
Qed.

(** Image 7 is shared with group 4 and Bob, a member, may see it; what
    he gets names no group and no user. *)
Example shared_image_lists_no_recipient :
  userHasImageAccess store_shared 2 7 = true
  /\ get_api_images_id sql_ne_null bob 7 store_shared
     = (mkReply 200
          (BodyImageWithShares
             (Some (ImageWithShares.mk 7 1 "/uploads/a.png" (Some EmptyString)
                      1704067200000 (Shares.mk [] [])))),
        store_shared).
Proof. split; reflexivity. Qed.

(* ===================================================================== *)
(** ** Searching users *)
(* ===================================================================== *)

Lemma like_match_percent (rest text : list N) :
  like_match (37%N :: rest) text
  = like_match rest text
    || match text with
       | [] => false
       | _ :: t => like_match (37%N :: rest) t
       end.
Proof. destruct text; reflexivity. Qed.

Lemma like_match_char (p : N) (rest text : list N) :
  p <> 37%N ->
  like_match (p :: rest) text
  = match text with
    | [] => false
    | c :: t =>
        ((p =? 95)%N || (like_lower p =? like_lower c)%N)
        && like_match rest t
    end.
Proof.
  intros Hp. cbn [like_match]. apply N.eqb_neq in Hp. rewrite Hp.
  reflexivity.
Qed.

(** [%] at the head of the pattern skips any run of characters. *)
Lemma like_match_percent_iff (rest text : list N) :
  like_match (37%N :: rest) text = true <->
  exists skipped tail, text = skipped ++ tail /\ like_match rest tail = true.
Proof.
  induction text as [|c t IH]; rewrite like_match_percent.
  - rewrite orb_false_r. split.
    + intros H. exists [], []. split; [reflexivity | exact H].
    + intros (s & tl & E & H). symmetry in E. apply app_eq_nil in E.
      destruct E as [_ ->]. exact H.
  - rewrite orb_true_iff, IH. split.
    + intros [H|(s & tl & E & H)].
      * exists [], (c :: t). split; [reflexivity | exact H].
      * exists (c :: s), tl. split; [rewrite E; reflexivity | exact H].
    + intros (s & tl & E & H). destruct s as [|c' s].
      * left. cbn [app] in E. rewrite E. exact H.
      * right. cbn [app] in E. injection E as _ E. exists s, tl.
        split; assumption.
Qed.

(** A pattern in two parts matches a text in two parts. *)
Lemma like_match_app (q r : list N) :
  forall text,
    like_match (q ++ r) text = true <->
    exists mid tail, text = mid ++ tail
                     /\ like_match q mid = true /\ like_match r tail = true.
Proof.
  induction q as [|p q IH]; intros text.
  - cbn [app]. split.
    + intros H. exists [], text. repeat split. exact H.
    + intros (mid & tl & E & Hq & Hr). destruct mid; [|discriminate Hq].
      rewrite E. exact Hr.
  - cbn [app]. destruct (N.eqb_spec p 37%N) as [->|Hp].
    + rewrite like_match_percent_iff. split.
      * intros (s & tl & E & H). apply IH in H.
        destruct H as (mid & tl' & E' & Hq & Hr).
        exists (s ++ mid), tl'. split; [rewrite E, E', app_assoc; reflexivity|].
        split; [|exact Hr]. apply like_match_percent_iff.
        exists s, mid. split; [reflexivity | exact Hq].
      * intros (mid & tl & E & Hq & Hr). apply like_match_percent_iff in Hq.
        destruct Hq as (s & mid' & E' & Hq).
        exists s, (mid' ++ tl). split; [rewrite E, E', app_assoc; reflexivity|].
        apply IH. exists mid', tl. repeat split; assumption.
    + rewrite (like_match_char p _ _ Hp). destruct text as [|c t].
      * split; [discriminate|]. intros (mid & tl & E & Hq & _).
        symmetry in E. apply app_eq_nil in E. destruct E as [-> _].
        rewrite (like_match_char p _ _ Hp) in Hq. discriminate.
      * rewrite andb_true_iff, IH. split.
        -- intros (Hc & mid & tl & E & Hq & Hr). exists (c :: mid), tl.
           split; [rewrite E; reflexivity|]. split; [|exact Hr].
           rewrite (like_match_char p _ _ Hp), Hc, Hq. reflexivity.
        -- intros (mid & tl & E & Hq & Hr).
           rewrite (like_match_char p _ _ Hp) in Hq.
           destruct mid as [|c' mid]; [discriminate|].
           cbn [app] in E. injection E as -> ->.
           apply andb_true_iff in Hq. destruct Hq as [Hc Hq].
           split; [exact Hc|]. exists mid, tl. repeat split; assumption.
Qed.

(** A text that spells the pattern, up to case, matches it. *)
Lemma like_match_spelled (q : list N) :
  forall mid, map like_lower mid = map like_lower q -> like_match q mid = true.
Proof.
  induction q as [|p q IH]; intros mid E.
  - destruct mid; [reflexivity | discriminate].
  - destruct mid as [|c t]; [discriminate|]. cbn [map] in E.
    injection E as Ec Et.
    destruct (N.eqb_spec p 37%N) as [->|Hp].
    + rewrite like_match_percent. apply orb_true_iff. right.
      rewrite like_match_percent. rewrite (IH t Et). reflexivity.
    + rewrite (like_match_char p _ _ Hp), Ec, N.eqb_refl, orb_true_r.
      apply IH. exact Et.
Qed.

(** Without wildcards, only such a text matches. *)
Lemma like_match_literal (q : list N) :
  Forall (fun c => c <> 37%N /\ c <> 95%N) q ->
  forall mid, like_match q mid = true -> map like_lower mid = map like_lower q.
Proof.
  induction 1 as [|p q [Hp Hu] Hq IH]; intros mid H.
  - destruct mid; [reflexivity | discriminate].
  - rewrite (like_match_char p _ _ Hp) in H.
    destruct mid as [|c t]; [discriminate|].
    apply andb_true_iff in H. destruct H as [Hc Hm].
    apply N.eqb_neq in Hu. rewrite Hu in Hc. cbn [orb] in Hc.
    apply N.eqb_eq in Hc. cbn [map]. rewrite Hc, (IH t Hm). reflexivity.
Qed.

Lemma list_ascii_of_string_app (a b : string) :
  list_ascii_of_string (a ++ b)
  = list_ascii_of_string a ++ list_ascii_of_string b.
Proof.
  induction a as [|c a IH]; [reflexivity|].
  cbn [String.append list_ascii_of_string app]. rewrite IH. reflexivity.
Qed.

Lemma length_list_ascii_of_string (a : string) :
  List.length (list_ascii_of_string a) = String.length a.
Proof. induction a as [|c a IH]; [reflexivity|]. simpl. now rewrite IH. Qed.

(** A C string ends at its first NUL byte: what follows is not read. *)
Lemma c_string_app (a b : list ascii) :
  c_string (a ++ b)
  = if existsb (fun x => (N_of_ascii x =? 0)%N) a
    then c_string a
    else c_string a ++ c_string b.
Proof.
  induction a as [|x a IH]; [reflexivity|].
  cbn [app c_string existsb].
  destruct (N_of_ascii x =? 0)%N; [reflexivity|].
  cbn [orb]. rewrite IH.
  destruct (existsb _ a); reflexivity.
Qed.

(** A [%] after the bytes of a text is a character of its own, whatever
    the bytes before it. *)
Lemma sqlite3Utf8Read_percent (bytes : list N) :
  forall pending,
    sqlite3Utf8Read pending (bytes ++ [37%N])
    = sqlite3Utf8Read pending bytes ++ [37%N].
Proof.
  induction bytes as [|b bytes IH]; intros pending.
  - destruct pending; reflexivity.
  - cbn [app sqlite3Utf8Read]. destruct pending as [c|].
    + destruct (N.land b 192 =? 128)%N; [apply IH|].
      destruct (b <? 192)%N; cbn [app]; now rewrite IH.
    + destruct (b <? 192)%N; cbn [app]; now rewrite IH.
Qed.

(** The characters of the pattern that [searchUsers] builds: a query
    with a NUL byte ends the pattern, which then has no closing [%]. *)
Lemma characters_of_pattern (query : string) :
  characters ("%" ++ query ++ "%")
  = 37%N :: characters query ++ (if has_NUL query then [] else [37%N]).
Proof.
  unfold characters, has_NUL. rewrite !list_ascii_of_string_app.
  change (list_ascii_of_string "%") with ["%"%char].
  cbn [app c_string]. change (N_of_ascii "%" =? 0)%N with false. cbv iota.
  change (N_of_ascii "%") with 37%N.
  rewrite c_string_app.
  destruct (existsb _ (list_ascii_of_string query)).
  - rewrite app_nil_r. reflexivity.
  - cbn [c_string]. change (N_of_ascii "%" =? 0)%N with false. cbv iota.
    change (N_of_ascii "%") with 37%N.
    cbn [sqlite3Utf8Read]. change (37 <? 192)%N with true. cbv iota.
    now rewrite sqlite3Utf8Read_percent.
Qed.

(** What the pattern of [searchUsers] matches. *)
Lemma like_around (at_end : bool) (q text : list N) :
  like_match (37%N :: q ++ (if at_end then [] else [37%N])) text = true <->
  exists before mid after,
    text = before ++ mid ++ after
    /\ like_match q mid = true
    /\ (at_end = true -> after = []).
Proof.
  rewrite like_match_percent_iff. split.
  - intros (s & tl & E & H). apply like_match_app in H.
    destruct H as (mid & tl' & E' & Hq & Ht).
    exists s, mid, tl'. split; [rewrite E, E'; reflexivity|].
    split; [exact Hq|]. intros ->. destruct tl'; [reflexivity | discriminate].
  - intros (s & mid & tl & E & Hq & He). exists s, (mid ++ tl).
    split; [exact E|]. apply like_match_app. exists mid, tl.
    split; [reflexivity|]. split; [exact Hq|].
    destruct at_end.
    + rewrite (He eq_refl). reflexivity.
    + apply like_match_percent_iff. exists tl, []. split;
        [rewrite app_nil_r; reflexivity | reflexivity].
Qed.

Lemma where_or_throw_total {A : Type} (cond : A -> Error + bool)
      (keep : A -> bool) (rows : list A) :
  (forall r, In r rows -> cond r = inr (keep r)) ->
  where_or_throw cond rows = inr (filter keep rows).
Proof.
  induction rows as [|r rows IH]; intros H; [reflexivity|].
  cbn [where_or_throw filter]. rewrite (H r (or_introl eq_refl)).
  rewrite IH by (intros x Hx; apply H; now right).
  destruct (keep r); reflexivity.
Qed.

Lemma where_or_throw_fails {A : Type} (cond : A -> Error + bool) (e : Error)
      (rows : list A) :
  (forall r, In r rows -> cond r = inl e \/ cond r = inr false) ->
  (exists r, In r rows /\ cond r = inl e) ->
  where_or_throw cond rows = inl e.
Proof.
  induction rows as [|r rows IH]; intros H (x & Hx & Ex); [destruct Hx|].
  cbn [where_or_throw].
  destruct (H r (or_introl eq_refl)) as [E|E]; rewrite E; [reflexivity|].
  rewrite IH; [reflexivity | intros y Hy; apply H; now right |].
  destruct Hx as [->|Hx]; [congruence | eauto].
Qed.

Lemma length_of_pattern (query : string) :
  Z.of_nat (String.length ("%" ++ query ++ "%"))
  = Z.of_nat (String.length query) + 2.
Proof.
  rewrite <- !length_list_ascii_of_string, !list_ascii_of_string_app.
  rewrite !length_app. cbn [list_ascii_of_string List.length]. lia.
Qed.

(** For a query of at most 49998 bytes [searchUsers] is a filter. *)
Lemma searchUsers_short (st : Store) (query : string) (uid : Z) :
  Z.of_nat (String.length query) <= 49998 ->
  searchUsers st query uid
  = inr (filter
           (fun u => negb (User.id u =? uid)
                     && like_match
                          (37%N :: characters query
                                   ++ (if has_NUL query then [] else [37%N]))
                          (characters (User.username u)))
           (users st)).
Proof.
  intros Hlen. unfold searchUsers. apply where_or_throw_total.
  intros u _. destruct (negb (User.id u =? uid)); [|reflexivity].
  unfold like. rewrite length_of_pattern.
  replace (like_pattern_length <? Z.of_nat (String.length query) + 2) with false
    by (symmetry; apply Z.ltb_ge; unfold like_pattern_length; lia).
  rewrite characters_of_pattern. reflexivity.
Qed.

(** X25. [searchUsers], for a query of at most 49998 bytes, returns
    rows of [users] and never the caller's.  The engine reads the query
    and the usernames as C strings of UTF-8 characters: up to the first
    NUL byte, and letter case folded for [A] to [Z] only.  It returns
    every other user whose username holds the query as a run of
    characters, a run that ends the username when the query has a NUL
    byte (the closing [%] of the pattern is then not read); for a query
    without [%] and [_] it returns no other user; the wildcards are not
    escaped, so the query [%] returns every other user.  A longer query
    makes the statement fail as soon as there is another user.
    [GET /api/users/search] never writes, answers 400 without a query or
    with an empty one, 200 with the rows and 500 when the statement
    fails. *)
Theorem searchUsers_matches (st : Store) (query : string) (user : User.t) :
  (Z.of_nat (String.length query) <= 49998 ->
   exists found,
     searchUsers st query (User.id user) = inr found
     /\ (forall u, In u found -> In u (users st) /\ User.id u <> User.id user)
     /\ (forall u, In u (users st) -> User.id u <> User.id user ->
                   holds_query (has_NUL query) (User.username u) query ->
                   In u found)
     /\ (no_wildcard query ->
         forall u, In u found ->
                   holds_query (has_NUL query) (User.username u) query))
  /\ (49998 < Z.of_nat (String.length query) ->
      searchUsers st query (User.id user)
      = if forallb (fun u => User.id u =? User.id user) (users st)
        then inr []
        else inl (JsError "LIKE or GLOB pattern too complex"))
  /\ searchUsers st "%" (User.id user)
     = inr (filter (fun u => negb (User.id u =? User.id user)) (users st))
  /\ get_api_users_search user None st
     = (mkReply 400 (BodyMessage "Search query is required"), st)
  /\ get_api_users_search user (Some EmptyString) st
     = (mkReply 400 (BodyMessage "Search query is required"), st)
  /\ (query <> EmptyString ->
      get_api_users_search user (Some query) st
      = (match searchUsers st query (User.id user) with
         | inr found => mkReply 200 (BodyUsers found)
         | inl _ => mkReply 500 (BodyMessage "Failed to search users")
         end, st)).
Proof.
  split; [|split; [|split; [|split; [|split]]]].
  - intros Hlen. eexists. split; [apply searchUsers_short; exact Hlen|].
    split; [|split].
    + intros u Hu. apply filter_In in Hu. destruct Hu as [Hu Hc].
      apply andb_true_iff in Hc. destruct Hc as [Hc _].
      split; [exact Hu|]. apply Z.eqb_neq.
      destruct (User.id u =? User.id user); [discriminate | reflexivity].
    + intros u Hu Hne (before & after & E & He). apply filter_In.
      split; [exact Hu|]. apply Z.eqb_neq in Hne. rewrite Hne. cbn [negb andb].
      apply like_around.
      apply map_eq_app in E. destruct E as (l1 & l23 & E1 & _ & E23).
      apply map_eq_app in E23. destruct E23 as (l2 & l3 & E2 & Eq & E3).
      exists l1, l2, l3. split; [rewrite E1, E2; reflexivity|].
      split; [apply like_match_spelled; exact Eq|].
      intros Hn. rewrite (He Hn) in E3. now apply map_eq_nil in E3.
    + intros Hw u Hu. apply filter_In in Hu. destruct Hu as [_ Hc].
      apply andb_true_iff in Hc. destruct Hc as [_ Hc].
      apply like_around in Hc. destruct Hc as (l1 & l2 & l3 & E & Hq & He).
      apply (like_match_literal _ Hw) in Hq.
      exists (map like_lower l1), (map like_lower l3).
      rewrite E, !map_app, Hq. split; [reflexivity|].
      intros Hn. now rewrite (He Hn).
  - intros Hlen. unfold searchUsers.
    assert (Hlike : forall u,
               like (User.username u) ("%" ++ query ++ "%")
               = inl (JsError "LIKE or GLOB pattern too complex")).
    { intros u. unfold like. rewrite length_of_pattern.
      replace (like_pattern_length <? Z.of_nat (String.length query) + 2) with true
        by (symmetry; apply Z.ltb_lt; unfold like_pattern_length; lia).
      reflexivity. }
    destruct (forallb _ (users st)) eqn:E.
    + rewrite (where_or_throw_total _ (fun _ => false)).
      * f_equal. clear E. induction (users st) as [|u l IH];
          [reflexivity | exact IH].
      * intros u Hu. rewrite forallb_forall in E. rewrite (E u Hu). reflexivity.
    + apply where_or_throw_fails.
      * intros u _. destruct (negb (User.id u =? User.id user));
          [left; apply Hlike | right; reflexivity].
      * apply not_true_iff_false in E. rewrite forallb_forall in E.
        destruct (existsb (fun u => negb (User.id u =? User.id user)) (users st))
          eqn:X.
        -- apply existsb_exists in X. destruct X as (u & Hu & Hn).
           exists u. split; [exact Hu|]. rewrite Hn. apply Hlike.
        -- exfalso. apply E. intros u Hu.
           pose proof (existsb_all_false _ _ X u Hu) as Hf. cbn beta in Hf.
           now apply negb_false_iff in Hf.
  - rewrite searchUsers_short by (cbn; lia).
    f_equal. apply filter_ext. intros u.
    replace (like_match _ _) with true; [apply andb_true_r|].
    symmetry. apply (like_around false [37%N]).
    exists [], [], (characters (User.username u)).
    split; [reflexivity|]. split; [reflexivity | discriminate].
  - reflexivity.
  - reflexivity.
  - intros Hq. destruct query as [|c q]; [contradiction|].
    unfold get_api_users_search, try_catch, bind, query_or_throw, ret.
    destruct (searchUsers st (String c q) (User.id user)); reflexivity.
Qed.

(** Ann searches: the case of letters does not count, [_] stands for one
    character, and a query with a NUL byte is read up to that byte and
    must then end the username. *)
Example searchUsers_ignores_case :
  searchUsers store_group "AN" 2 = inr [ann]
  /\ searchUsers store_group "a" 1 = inr [cat]
  /\ searchUsers store_group "_" 1 = inr [bob; cat]
  /\ searchUsers store_group (String "b" (String zero "z")) 1 = inr [bob]
  /\ searchUsers store_group (String "a" (String zero "z")) 1 = inr [].
Proof. repeat split. Qed.

(* ===================================================================== *)
(** ** The calendar: every day lies in one month *)
(* ===================================================================== *)

Lemma month_start_le (doy : Z) :
  0 <= doy <= 365 ->
  (153 * ((5 * doy + 2) / 153) + 2) / 5 <= doy
  /\ 0 <= (5 * doy + 2) / 153 <= 11
  /\ ((5 * doy + 2) / 153 < 11 -> doy < (153 * ((5 * doy + 2) / 153 + 1) + 2) / 5).
Proof. intros H. Z.div_mod_to_equations; lia. Qed.

Lemma year_of_era_bracket (doe : Z) :
  0 <= doe <= 146096 ->
  0 <= yoe_of_doe doe <= 399
  /\ yoe_of_doe doe * 365 + yoe_of_doe doe / 4 - yoe_of_doe doe / 100 <= doe
  /\ doe - (yoe_of_doe doe * 365 + yoe_of_doe doe / 4 - yoe_of_doe doe / 100) <= 365
  /\ (yoe_of_doe doe < 399 ->
      doe < (yoe_of_doe doe + 1) * 365 + (yoe_of_doe doe + 1) / 4
            - (yoe_of_doe doe + 1) / 100).
Proof. intros H. unfold yoe_of_doe. Z.div_mod_to_equations; lia. Qed.

Lemma civil_year_month_bracket (d : Z) :
  first_day (civil_year_month d) <= d
  < first_day (following_month (civil_year_month d)).
Proof.
  unfold civil_year_month, month_of_doe. cbv zeta.
  set (era := (d + 719468) / 146097).
  set (doe := d + 719468 - era * 146097).
  assert (Hdoe : 0 <= doe <= 146096) by (unfold doe, era; Z.div_mod_to_equations; lia).
  destruct (year_of_era_bracket doe Hdoe) as (Hy & Hlo & Hhi & Hnext).
  set (yoe := yoe_of_doe doe) in *.
  replace (365 * yoe) with (yoe * 365) by lia.
  set (doy := doe - (yoe * 365 + yoe / 4 - yoe / 100)) in *.
  assert (Hdoy : 0 <= doy <= 365) by (unfold doy; lia).
  destruct (month_start_le doy Hdoy) as (Hs & Hmp & Hn).
  set (mp := (5 * doy + 2) / 153) in *.
  assert (Hera : forall k, 0 <= k <= 399 -> (k + era * 400) / 400 = era
                                           /\ k + era * 400 - era * 400 = k).
  { intros k Hk. split; [Z.div_mod_to_equations; lia | lia]. }
  unfold first_day, following_month, days_from_civil. cbn [fst snd]. cbv zeta.
  destruct (Z.ltb_spec mp 10) as [H10|H10].
  - (* March to December *)
    replace (mp + 3 <=? 2) with false by (symmetry; apply Z.leb_gt; lia).
    replace (2 <? mp + 3) with true by (symmetry; apply Z.ltb_lt; lia).
    destruct (Hera yoe Hy) as [E1 E2]. rewrite E1.
    replace (yoe + era * 400 - era * 400) with yoe by lia.
    replace (mp + 3 - 3) with mp by lia.
    split; [unfold doy, doe in *; lia|].
    destruct (Z.eqb_spec (mp + 3) 12) as [E12|E12].
    + cbn [fst snd]. replace (1 <=? 2) with true by reflexivity.
      replace (yoe + era * 400 + 1 - 1) with (yoe + era * 400) by lia.
      rewrite E1. replace (yoe + era * 400 - era * 400) with yoe by lia.
      replace (2 <? 1) with false by reflexivity.
      assert (E9 : mp = 9) by lia. rewrite E9 in *.
      unfold doy, doe in *. Z.div_mod_to_equations; lia.
    + cbn [fst snd].
      replace (mp + 3 + 1 <=? 2) with false by (symmetry; apply Z.leb_gt; lia).
      replace (2 <? mp + 3 + 1) with true by (symmetry; apply Z.ltb_lt; lia).
      rewrite E1. replace (yoe + era * 400 - era * 400) with yoe by lia.
      replace (mp + 3 + 1 - 3) with (mp + 1) by lia.
      unfold doy, doe in *. lia.
  - (* January and February *)
    replace (mp - 9 <=? 2) with true by (symmetry; apply Z.leb_le; lia).
    replace (2 <? mp - 9) with false by (symmetry; apply Z.ltb_ge; lia).
    replace (yoe + era * 400 + 1 - 1) with (yoe + era * 400) by lia.
    destruct (Hera yoe Hy) as [E1 E2]. rewrite E1.
    replace (yoe + era * 400 - era * 400) with yoe by lia.
    replace (mp - 9 + 9) with mp by lia.
    split; [unfold doy, doe in *; lia|].
    replace (mp - 9 =? 12) with false by (symmetry; apply Z.eqb_neq; lia).
    cbn [fst snd].
    destruct (Z.eq_dec mp 10) as [E|E].
    + rewrite E. replace (10 - 9 + 1 <=? 2) with true by reflexivity.
      replace (2 <? 10 - 9 + 1) with false by reflexivity.
      rewrite ?E1. replace (yoe + era * 400 - era * 400) with yoe by lia.
      rewrite E in *.
      unfold doy, doe in *. Z.div_mod_to_equations; lia.
    + assert (Emp : mp = 11) by lia. rewrite Emp.
      replace (11 - 9 + 1 <=? 2) with false by reflexivity.
      replace (2 <? 11 - 9 + 1) with true by reflexivity.
      replace (11 - 9 + 1 - 3) with 0 by reflexivity.
      destruct (Z.eq_dec yoe 399) as [E399|E399].
      * rewrite E399.
        replace ((399 + era * 400 + 1) / 400) with (era + 1)
          by (Z.div_mod_to_equations; lia).
        unfold doy, doe in *. Z.div_mod_to_equations; lia.
      * destruct (Hera (yoe + 1) ltac:(lia)) as [F1 F2].
        replace (yoe + era * 400 + 1) with (yoe + 1 + era * 400) by lia.
        rewrite F1. replace (yoe + 1 + era * 400 - era * 400) with (yoe + 1) by lia.
        specialize (Hnext ltac:(lia)).
        unfold doy, doe in *. Z.div_mod_to_equations; lia.
Qed.

Lemma following_month_later (y m : Z) :
  1 <= m <= 12 ->
  first_day (y, m) < first_day (following_month (y, m)).
Proof.
  intros Hm. unfold first_day, following_month. cbn [fst snd].
  assert (Hc : m = 1 \/ m = 2 \/ m = 3 \/ m = 4 \/ m = 5 \/ m = 6 \/ m = 7
               \/ m = 8 \/ m = 9 \/ m = 10 \/ m = 11 \/ m = 12) by lia.
  repeat (destruct Hc as [->|Hc]); [.. | subst m];
    unfold days_from_civil; cbn [Z.eqb Z.leb Z.ltb Z.compare Pos.compare
      Pos.compare_cont Pos.eqb fst snd Z.add Z.sub Pos.add Pos.succ Z.opp
      Z.pos_sub Pos.pred_double Z.succ_double Z.pred_double Z.double]; cbv zeta;
    Z.div_mod_to_equations; lia.
Qed.

Lemma month_of_index_step (k : Z) :
  following_month (month_of_index k) = month_of_index (k + 1).
Proof.
  unfold following_month, month_of_index. cbn [fst snd].
  destruct (Z.eqb_spec (k mod 12 + 1) 12) as [E|E]; f_equal;
    Z.div_mod_to_equations; lia.
Qed.

Lemma first_day_increasing (k : Z) (n : nat) :
  first_day (month_of_index k) < first_day (month_of_index (k + 1 + Z.of_nat n)).
Proof.
  induction n as [|n IH].
  - rewrite Z.add_0_r, <- month_of_index_step. unfold month_of_index.
    apply following_month_later. Z.div_mod_to_equations; lia.
  - eapply Z.lt_trans; [exact IH|].
    replace (k + 1 + Z.of_nat (S n)) with (k + 1 + Z.of_nat n + 1) by lia.
    rewrite <- month_of_index_step. unfold month_of_index at 1 2.
    apply following_month_later. Z.div_mod_to_equations; lia.
Qed.

Lemma month_of_index_inverse (y m : Z) :
  1 <= m <= 12 -> month_of_index (12 * y + m - 1) = (y, m).
Proof. intros H. unfold month_of_index. f_equal; Z.div_mod_to_equations; lia. Qed.

Lemma civil_month_range (d : Z) : 1 <= snd (civil_year_month d) <= 12.
Proof.
  unfold civil_year_month. cbv zeta. cbn [snd].
  apply doe_facts. Z.div_mod_to_equations; lia.
Qed.

Lemma civil_year_month_unique (d y m : Z) :
  1 <= m <= 12 ->
  first_day (y, m) <= d < first_day (following_month (y, m)) ->
  civil_year_month d = (y, m).
Proof.
  intros Hm Hb.
  pose proof (civil_year_month_bracket d) as Hc.
  pose proof (civil_month_range d) as Hr.
  destruct (civil_year_month d) as [y' m'] eqn:E. cbn [snd] in Hr.
  rewrite <- (month_of_index_inverse y m Hm) in Hb.
  rewrite <- (month_of_index_inverse y' m' Hr) in Hc.
  rewrite !month_of_index_step in Hb, Hc.
  set (k := 12 * y + m - 1) in *. set (k' := 12 * y' + m' - 1) in *.
  destruct (Z.lt_trichotomy k k') as [Hlt|[Heq|Hgt]].
  - exfalso. destruct (Z.eq_dec (k + 1) k') as [E1|E1].
    + rewrite E1 in Hb. lia.
    + pose proof (first_day_increasing (k + 1) (Z.to_nat (k' - k - 2))) as Hi.
      replace (k + 1 + 1 + Z.of_nat (Z.to_nat (k' - k - 2))) with k' in Hi by lia.
      lia.
  - f_equal; unfold k, k' in Heq; lia.
  - exfalso. destruct (Z.eq_dec (k' + 1) k) as [E1|E1].
    + rewrite E1 in Hc. lia.
    + pose proof (first_day_increasing (k' + 1) (Z.to_nat (k - k' - 2))) as Hi.
      replace (k' + 1 + 1 + Z.of_nat (Z.to_nat (k - k' - 2))) with k in Hi by lia.
      lia.
Qed.

(* ===================================================================== *)
(** ** The two date queries side by side *)
(* ===================================================================== *)

(** The window of [getUserImagesByDate] is one month on the server's
    clock. *)
Lemma month_window_iff (tz y m t : Z) :
  0 <= m <= 11 ->
  (month_first_instant tz y m <= t
   < month_first_instant tz (fst (next_month y m)) (snd (next_month y m)))
  <-> utc_year_month (t - tz * 60000) = (y, m).
Proof.
  intros Hm. unfold month_first_instant, utc_year_month. cbv zeta.
  set (d := (t - tz * 60000) / 86400000).
  assert (Hnext : days_from_civil (fst (next_month y m)) (snd (next_month y m) + 1) 1
                  = first_day (following_month (y, m + 1))).
  { unfold next_month, following_month, first_day. cbn [fst snd].
    destruct (Z.eqb_spec m 11) as [->|E].
    - reflexivity.
    - replace (m + 1 =? 12) with false by (symmetry; apply Z.eqb_neq; lia).
      reflexivity. }
  rewrite Hnext. change (days_from_civil y (m + 1) 1) with (first_day (y, m + 1)).
  assert (Hd : (first_day (y, m + 1) * 86400000 + tz * 60000 <= t
                < first_day (following_month (y, m + 1)) * 86400000 + tz * 60000)
               <-> first_day (y, m + 1) <= d
                   < first_day (following_month (y, m + 1))).
  { unfold d. split; intros H; Z.div_mod_to_equations; lia. }
  rewrite Hd. split.
  - intros H. rewrite (civil_year_month_unique d y (m + 1)) by (lia || exact H).
    cbn [fst snd]. f_equal. lia.
  - intros H. pose proof (civil_year_month_bracket d) as Hb.
    destruct (civil_year_month d) as [y' m'] eqn:E. cbn [fst snd] in H.
    injection H as -> <-. replace (m' - 1 + 1) with m' by lia. exact Hb.
Qed.

Lemma getUserImagesByDate_In (tz : Z) (st : Store) (u y m : Z) (i : Image.t) :
  1970 <= y <= 9998 -> 0 <= m <= 11 -> -1440 <= tz <= 1440 ->
  (forall i, In i (images st) -> Image.userId i = u ->
             valid_timestamp (Image.uploadedAt i)) ->
  In i (getUserImagesByDate tz st u y m) <->
  In i (images st) /\ Image.userId i = u
  /\ utc_year_month (Image.uploadedAt i - tz * 60000) = (y, m).
Proof.
  intros Hy Hm Htz Hv.
  destruct (getUserImagesByDate_of_stored tz st u y m Hy Hm Htz Hv)
    as (_ & Hin & _).
  rewrite Hin, (month_window_iff tz y m _ Hm). reflexivity.
Qed.

(** X26. On a server whose clock is UTC, and on the integers the table
    holds read as milliseconds, [getUserImagesByDate] selects by the
    calendar month: it returns the images of the user whose instant has
    the year and the month asked for, newest first; so no image is
    returned for two different months. *)
Theorem getUserImagesByDate_selects_utc_month (st : Store) (u y m : Z) :
  1970 <= y <= 9998 -> 0 <= m <= 11 ->
  (forall i, In i (images st) -> Image.userId i = u ->
             valid_timestamp (Image.uploadedAt i)) ->
  (forall i, In i (getUserImagesByDate 0 st u y m) <->
             In i (images st) /\ Image.userId i = u
             /\ utc_year_month (Image.uploadedAt i) = (y, m))
  /\ StronglySorted (fun a b => Image.uploadedAt b <= Image.uploadedAt a)
                    (getUserImagesByDate 0 st u y m)
  /\ (forall y' m' i,
        1970 <= y' <= 9998 -> 0 <= m' <= 11 ->
        In i (getUserImagesByDate 0 st u y m) ->
        In i (getUserImagesByDate 0 st u y' m') ->
        (y', m') = (y, m)).
Proof.
  intros Hy Hm Hv.
  assert (Hin : forall y m i,
             1970 <= y <= 9998 -> 0 <= m <= 11 ->
             (In i (getUserImagesByDate 0 st u y m) <->
              In i (images st) /\ Image.userId i = u
              /\ utc_year_month (Image.uploadedAt i) = (y, m))).
  { intros y0 m0 i Hy0 Hm0.
    rewrite (getUserImagesByDate_In 0 st u y0 m0 i Hy0 Hm0 ltac:(lia) Hv).
    replace (Image.uploadedAt i - 0 * 60000) with (Image.uploadedAt i) by lia.
    reflexivity. }
  split; [|split].
  - intros i. apply Hin; assumption.
  - apply (getUserImagesByDate_of_stored 0 st u y m Hy Hm ltac:(lia) Hv).
  - intros y' m' i Hy' Hm' H1 H2.
    apply Hin in H1; try assumption. apply Hin in H2; try assumption.
    destruct H1 as (_ & _ & H1). destruct H2 as (_ & _ & H2). congruence.
Qed.

Lemma getUserImagesByDate_selects_utc_month_witness :
  (forall i, In i (getUserImagesByDate 0 store_dates 1 2024 0) <->
             In i (images store_dates) /\ Image.userId i = 1
             /\ utc_year_month (Image.uploadedAt i) = (2024, 0))
  /\ map Image.id (getUserImagesByDate 0 store_dates 1 2024 0) = [2; 1]
  /\ map Image.id (getUserImagesByDate 0 store_dates 1 2024 1) = [3].
Proof.
  split; [|split; reflexivity].
  apply (getUserImagesByDate_selects_utc_month store_dates 1 2024 0);
    try lia.
  intros i Hi _. unfold valid_timestamp.
  destruct Hi as [<- | [<- | [<- | [<- | [<- | []]]]]]; cbn; lia.
Defined.

(** X27. On a server whose clock is UTC the two date queries agree on
    the integers the table holds: [getUserImageDates] lists a month
    exactly when [getUserImagesByDate] returns an image for it. *)
Theorem getUserImageDates_agrees_with_by_date_at_utc (st : Store) (u y m : Z) :
  1970 <= y <= 9998 -> 0 <= m <= 11 ->
  (forall i, In i (images st) -> Image.userId i = u ->
             valid_timestamp (Image.uploadedAt i)) ->
  In (js_year_month (y, m)) (getUserImageDates st u)
  <-> getUserImagesByDate 0 st u y m <> [].
Proof.
  intros Hy Hm Hv.
  destruct (getUserImageDates_of_stored st u Hv) as (pairs & -> & Hp & _).
  assert (Hin : forall i, In i (getUserImagesByDate 0 st u y m) <->
                          In i (images st) /\ Image.userId i = u
                          /\ utc_year_month (Image.uploadedAt i) = (y, m)).
  { intros i. rewrite (getUserImagesByDate_In 0 st u y m i Hy Hm ltac:(lia) Hv).
    replace (Image.uploadedAt i - 0 * 60000) with (Image.uploadedAt i) by lia.
    reflexivity. }
  split.
  - intros H. apply in_map_iff in H. destruct H as (p & Ep & Hin').
    assert (p = (y, m)) as ->.
    { destruct p as [a b]. unfold js_year_month in Ep. cbn [fst snd] in Ep.
      injection Ep as -> ->. reflexivity. }
    apply Hp in Hin'. destruct Hin' as (i & Hi).
    intros Hnil. apply (proj2 (Hin i)) in Hi. rewrite Hnil in Hi. destruct Hi.
  - intros H. destruct (getUserImagesByDate 0 st u y m) as [|i l] eqn:E;
      [contradiction|].
    apply in_map. apply Hp. exists i. apply Hin. left. reflexivity.
Qed.

Lemma getUserImageDates_agrees_with_by_date_at_utc_witness :
  (In (js_year_month (2024, 0)) (getUserImageDates store_dates 1)
   <-> getUserImagesByDate 0 store_dates 1 2024 0 <> [])
  /\ (In (js_year_month (2024, 2)) (getUserImageDates store_dates 1)
      <-> getUserImagesByDate 0 store_dates 1 2024 2 <> []).
Proof.
  assert (Hv : forall i, In i (images store_dates) -> Image.userId i = 1 ->
                         valid_timestamp (Image.uploadedAt i)).
  { intros i Hi _. unfold valid_timestamp.
    destruct Hi as [<- | [<- | [<- | [<- | [<- | []]]]]]; cbn; lia. }
  split;
    apply (getUserImageDates_agrees_with_by_date_at_utc store_dates 1);
    try lia; exact Hv.
Defined.

(** Away from UTC the two queries part at the ends of the months: on a
    server five and a half hours east of UTC all year, the timeline
    names January 2024 for an image that the query by date returns for
    February and not for January. *)
Example date_queries_part_away_from_utc :
  getUserImageDates store_month_end 1 = [js_year_month (2024, 0)]
  /\ getUserImagesByDate timezone_east store_month_end 1 2024 0 = []
  /\ getUserImagesByDate timezone_east store_month_end 1 2024 1
     = images store_month_end.
Proof. repeat split. Qed.

(** X28. [createImage] and the two date queries, end to end.  The
    date of the new row is not that of the upload: it is [now], the
    value of the column default, a [Date] that the schema makes once,
    when it is loaded; the row stores it cut to the second.  When [now]
    and the dates of the user's images lie between the epoch and
    2054-11-15, then after the insert [getUserImageDates] answers
    January 1970 alone, and [getUserImagesByDate] returns nothing for
    any month from 1971 on, whatever the offset of the server's clock
    from UTC. *)
Theorem upload_is_dated_january_1970
        (now : Z) (image : InsertImage.t) (st : Store) :
  0 <= now < 2678400000000 ->
  user_exists st (InsertImage.userId image) ->
  (forall i, In i (images st) -> Image.userId i = InsertImage.userId image ->
             uploaded_before_2054 i) ->
  exists row,
    createImage now image st = (inr row, snd (createImage now image st))
    /\ In row (images (snd (createImage now image st)))
    /\ uploadedAt_Date row <= now < uploadedAt_Date row + 1000
    /\ getUserImageDates (snd (createImage now image st))
                         (InsertImage.userId image)
       = [YearMonth.mk (Some 1970) (Some 0)]
    /\ (forall tz y m,
          1971 <= y <= 9998 -> 0 <= m <= 11 -> -1440 <= tz <= 1440 ->
          getUserImagesByDate tz (snd (createImage now image st))
                              (InsertImage.userId image) y m
          = []).
Proof.
  intros Hnow Hu Hold. apply user_exists_references in Hu.
  unfold createImage. rewrite Hu. cbv zeta. cbn [snd].
  eexists. split; [reflexivity|].
  match goal with
  | |- In ?r _ /\ _ => set (row := r)
  end.
  match goal with
  | |- context [set_sequence ?a ?b] => set (st' := set_sequence a b)
  end.
  assert (Hin : In row (images st')).
  { cbn [images st' set_sequence set_images]. apply in_or_app. right. left.
    reflexivity. }
  assert (Hrow : uploadedAt_Date row <= now < uploadedAt_Date row + 1000).
  { unfold uploadedAt_Date, timestamp_from_driver, row.
    cbn [Image.uploadedAt]. unfold timestamp_to_driver.
    Z.div_mod_to_equations; lia. }
  assert (Hall : forall i, In i (images st') ->
                           Image.userId i = InsertImage.userId image ->
                           uploaded_before_2054 i).
  { intros i Hi Hid. cbn [images st' set_sequence set_images] in Hi.
    apply in_app_or in Hi. destruct Hi as [Hi|[<-|[]]]; [apply Hold; assumption|].
    unfold uploaded_before_2054.
    assert (0 <= uploadedAt_Date row).
    { unfold uploadedAt_Date, timestamp_from_driver, row.
      cbn [Image.uploadedAt]. unfold timestamp_to_driver.
      Z.div_mod_to_equations; lia. }
    lia. }
  split; [exact Hin|]. split; [exact Hrow|]. split.
  - apply getUserImageDates_january_1970; [exact Hall|].
    exists row. split; [exact Hin | reflexivity].
  - intros tz y m Hy Hm Htz. apply getUserImagesByDate_empty; assumption.
Qed.

Lemma upload_is_dated_january_1970_witness :
  exists row,
    In row (images store_after_upload)
    /\ uploadedAt_Date row <= date_2024_01_15 < uploadedAt_Date row + 1000
    /\ getUserImageDates store_after_upload 1
       = [YearMonth.mk (Some 1970) (Some 0)]
    /\ getUserImagesByDate timezone_east store_after_upload 1 2024 0 = [].
Proof.
  destruct (upload_is_dated_january_1970 date_2024_01_15
              (InsertImage.mk 1 "/uploads/a.png" (Some EmptyString))
              store_two_users)
    as (row & _ & H1 & H2 & H3 & H4).
  - unfold date_2024_01_15. lia.
  - exists ann. split; [left; reflexivity | reflexivity].
  - intros i [].
  - exists row. split; [exact H1|]. split; [exact H2|]. split; [exact H3|].
    apply H4; unfold timezone_east; lia.
Defined.

(* ===================================================================== *)
(** ** Notifications, from the table to the reader *)
(* ===================================================================== *)

Lemma set_notifications_same (st : Store) :
  set_notifications st (notifications st) = st.
Proof. destruct st. reflexivity. Qed.

Lemma map_unselected {A : Type} (selected : A -> bool) (f : A -> A)
      (rows : list A) :
  existsb selected rows = false ->
  map (fun r => if selected r then f r else r) rows = rows.
Proof.
  intros H. rewrite <- (map_id rows) at 2. apply map_ext_in. intros r Hr.
  rewrite (existsb_all_false _ _ H r Hr). reflexivity.
Qed.

(** X29. [markNotificationAsRead] throws "Notification not found"
    exactly when no notification has the id, and then leaves the store
    as it was; otherwise it returns the first row with the id, marked
    read, and that row is in the table afterwards. *)
Theorem markNotificationAsRead_result (id : Z) (st : Store) :
  match getNotification st id with
  | None =>
      markNotificationAsRead id st
      = (inl (JsError "Notification not found"), st)
  | Some n =>
      fst (markNotificationAsRead id st) = inr (set_isRead n)
      /\ In (set_isRead n) (notifications (snd (markNotificationAsRead id st)))
      /\ List.length (notifications (snd (markNotificationAsRead id st)))
         = List.length (notifications st)
  end.
Proof.
  unfold markNotificationAsRead. cbv zeta.
  rewrite (filter_selected_mark (fun n => Notification.id n =? id))
    by reflexivity.
  destruct (getNotification st id) as [n|] eqn:E.
  - pose proof (first_row_filter_Some _ _ _ E) as [Hin Hid].
    unfold getNotification in E.
    destruct (filter (fun n => Notification.id n =? id) (notifications st))
      as [|n0 rest]; [discriminate|].
    cbn [limit firstn first_row hd_error] in E. injection E as ->.
    cbn [map fst snd notifications set_notifications].
    split; [reflexivity|]. split; [|apply length_map].
    apply in_map_iff. exists n. rewrite Hid. split; [reflexivity | exact Hin].
  - apply first_row_filter_None in E.
    rewrite (filter_none _ _ (existsb_all_false _ _ E)). cbn [map].
    rewrite (map_unselected _ _ _ E), set_notifications_same. reflexivity.
Qed.

(** The run of [POST /api/friends/request] that creates the request. *)
Lemma post_api_friends_request_created
      (now : Z) (user : User.t) (a : Z) (st : Store) :
  User.id user <> a ->
  getFriendship st (User.id user) a = None ->
  references User.id (users st) (User.id user) = true ->
  references User.id (users st) a = true ->
  users (snd (post_api_friends_request now user a st)) = users st
  /\ groups (snd (post_api_friends_request now user a st)) = groups st
  /\ images (snd (post_api_friends_request now user a st)) = images st
  /\ notifications (snd (post_api_friends_request now user a st))
     = notifications st
       ++ [Notification.mk
             (next_id (map Notification.id (notifications st))
                      (seq_notifications (sqlite_sequence st)))
             a friend_request
             (User.username user ++ " sent you a friend request")%string
             (Some (User.id user)) None None false (timestamp_to_driver now)].
Proof.
  intros Hne Hno Ru Ra.
  unfold post_api_friends_request, try_catch, bind, query, createFriend,
    createNotification, ret. cbv zeta.
  apply Z.eqb_neq in Hne. rewrite Hne, Hno.
  cbn [InsertFriend.requesterId InsertFriend.addresseeId].
  rewrite Ru, Ra. cbn [andb].
  cbn [InsertNotification.userId InsertNotification.senderId
       InsertNotification.groupId InsertNotification.imageId
       references_nullable users set_sequence set_friends].
  rewrite Ru, Ra. cbn [andb]. repeat split.
Qed.

(** X30. A friend request that is accepted for sending shows up among
    the addressee's notifications: [getUserNotifications] succeeds with
    one entry more than before, and one of its entries is an unread
    [friend_request] notification with the sender's row attached. *)
Theorem friend_request_is_notified
        (now : Z) (user : User.t) (a : Z) (st : Store) :
  NoDup (map User.id (users st)) ->
  In user (users st) ->
  user_exists st a ->
  User.id user <> a ->
  ~ friendship_exists st (User.id user) a ->
  User.id user <> 0 ->
  exists details d,
    getUserNotifications (snd (post_api_friends_request now user a st)) a
    = inr details
    /\ In d details
    /\ Notification.type (NotificationWithDetails.base d) = friend_request
    /\ Notification.isRead (NotificationWithDetails.base d) = false
    /\ Notification.userId (NotificationWithDetails.base d) = a
    /\ NotificationWithDetails.sender d = Some user
    /\ NotificationWithDetails.group d = None
    /\ NotificationWithDetails.image d = None
    /\ List.length details
       = S (List.length (filter (fun n => Notification.userId n =? a)
                                (notifications st))).
Proof.
  intros Hn Hu Ha Hne Hno Hz.
  apply getFriendship_None in Hno.
  assert (Ru : references User.id (users st) (User.id user) = true).
  { apply references_true. exists user. split; [exact Hu | reflexivity]. }
  pose proof (user_exists_references _ _ Ha) as Ra.
  destruct (post_api_friends_request_created now user a st Hne Hno Ru Ra)
    as (Tu & Tg & Ti & Tn).
  set (st' := snd (post_api_friends_request now user a st)) in *.
  unfold getUserNotifications. cbv zeta.
  rewrite (Promise_all_resolves _ _ _ (with_details_returns st')).
  match type of Tn with
  | _ = _ ++ [?x] => set (n := x) in *
  end.
  exists (map (details_of st')
              (order_by_desc Notification.createdAt
                 (filter (fun n => Notification.userId n =? a)
                         (notifications st')))),
         (details_of st' n).
  split; [reflexivity|].
  assert (Hin : In n (filter (fun n => Notification.userId n =? a)
                             (notifications st'))).
  { apply filter_In. split.
    - rewrite Tn. apply in_or_app. right. left. reflexivity.
    - apply Z.eqb_refl. }
  split.
  { apply in_map.
    apply (Permutation_in _ (Permutation_sym (order_by_desc_perm _ _))).
    exact Hin. }
  split; [reflexivity|]. split; [reflexivity|]. split; [reflexivity|].
  split.
  { cbn [details_of NotificationWithDetails.sender Notification.senderId n].
    unfold attach. cbn [truthy]. apply Z.eqb_neq in Hz. rewrite Hz.
    rewrite (getUser_same_users _ _ _ Tu). unfold getUser.
    apply (lookup_row User.id _ _ Hn Hu). }
  split; [reflexivity|]. split; [reflexivity|].
  rewrite length_map, (Permutation_length (order_by_desc_perm _ _)).
  rewrite Tn, filter_app, length_app. cbn [filter Notification.userId n].
  rewrite Z.eqb_refl. cbn [List.length]. lia.
Qed.

Lemma friend_request_is_notified_witness :
  exists details d,
    getUserNotifications (snd (post_api_friends_request 5 ann 2 store_two_users)) 2
    = inr details
    /\ In d details
    /\ NotificationWithDetails.sender d = Some ann
    /\ List.length details = 1%nat.
Proof.
  destruct (friend_request_is_notified 5 ann 2 store_two_users)
    as (details & d & H1 & H2 & _ & _ & _ & H6 & _ & _ & H9).
  - repeat constructor; cbn; intuition discriminate.
  - left. reflexivity.
  - exists bob. split; [right; left; reflexivity | reflexivity].
  - discriminate.
  - intros (f & [] & _).
  - discriminate.
  - exists details, d. repeat split; assumption.
Defined.
